(** * Client-side event batching and delivery: a model of [EventBatcher]

    This development embeds the browser-side batcher of the observability
    SDK (class [EventBatcher], file [core/batcher.ts]) together with the
    helper [generateEventId] ([utils/helpers.ts]) and states the delivery,
    spill and retry properties of the specification over that embedding.

    Modelling conventions.

    - JavaScript runs every piece of code between two [await]s to
      completion.  One transition of the model is therefore one such
      synchronous segment: a public call, a listener, a timer callback, or
      the resumption of a suspended [async] frame.  A suspended frame keeps
      exactly the local variables the code still reads after the [await].
    - Numbers are [Z]; arrays are lists; [null] is [None].  No array is
      mutated while two live references reach it ([flush] replaces the
      buffer reference before anything else can run), so arrays are values.
    - The host (clock, entropy, [navigator.sendBeacon], [localStorage],
      timers, the network) is part of the state or an oracle; every call the
      batcher makes to the outside is appended to a chronological [trace].
    - The callbacks [onSuccess]/[onError] and [console] are observers: their
      invocation is recorded in the trace and they return normally.
    - [JSON.stringify] is kept symbolic: a payload is the serialised value
      under a constructor, and the persisted list holds well-formed batches.
    - The methods are given twice.  First with every [try]/[catch] resolved
      into a branch, which is what the delivery, spill and retry properties
      are stated on; then, in module [Raising], as the source writes them,
      with [throw], rejected promises, a throwing [localStorage] and
      [try]/[catch] explicit.  The second form is shown to complete normally
      with the result of the first. *)

From Stdlib Require Import ZArith List String Ascii Bool Lia.
Import ListNotations.

Local Open Scope Z_scope.

(** ** Schemas ([@observability/schemas]) *)

(** The fields of [BaseEvent] the batcher's clients and tests inspect; the
    batcher itself never looks inside a record. *)
Record ObservabilityEvent : Type := mkEvent {
  timestamp : Z;
  session_id : string;
  event_id : string;
  event_type : string
}.

Record EventBatch : Type := mkBatch {
  batch_id : string;
  batch_timestamp : Z;
  events : list ObservabilityEvent
}.

(** ** [utils/helpers.ts] *)

Module Helpers.

Definition digits36 : list ascii :=
  list_ascii_of_string "0123456789abcdefghijklmnopqrstuvwxyz".

Definition digit36 (d : N) : ascii := nth (N.to_nat d) digits36 "0"%char.

(** [Number.prototype.toString(36)] on a natural number, most significant
    digit first; [fuel] bounds the number of digits. *)
Fixpoint to36_digits (fuel : nat) (n : N) (acc : string) : string :=
  match fuel with
  | O => acc
  | S fuel' =>
      let acc' := String (digit36 (N.modulo n 36)) acc in
      if N.eqb (N.div n 36) 0 then acc' else to36_digits fuel' (N.div n 36) acc'
  end.

Definition toString36 (z : Z) : string :=
  match z with
  | Z0 => "0"%string
  | Zpos p => to36_digits (S (Pos.size_nat p)) (Npos p) EmptyString
  | Zneg p => String "-"%char (to36_digits (S (Pos.size_nat p)) (Npos p) EmptyString)
  end.

(** [generateEventId]: [`${timestamp}-${randomPart}-${counterPart}`] where
    [timestamp = Date.now().toString(36)]; the two other parts are derived
    from [Math.random()] and [performance.now()] and are supplied by the
    host already formatted. *)
Definition generateEventId (now : Z) (randomPart counterPart : string) : string :=
  (toString36 now ++ "-" ++ randomPart ++ "-" ++ counterPart)%string.

End Helpers.

(** ** Host interface *)

(** Serialised form of a batch ([JSON.stringify(batch)]). *)
Inductive Payload : Type :=
| Json (b : EventBatch).

Definition JSON_stringify (b : EventBatch) : Payload := Json b.

Definition parsed (p : Payload) : EventBatch := match p with Json b => b end.

Definition Headers : Type := list (string * string).

(** Object literal semantics: assigning an existing key keeps its position
    and replaces its value; a new key goes last. *)
Fixpoint obj_set (k v : string) (o : Headers) : Headers :=
  match o with
  | [] => [(k, v)]
  | (k', v') :: o' =>
      if String.eqb k k' then (k, v) :: o' else (k', v') :: obj_set k v o'
  end.

(** [{ ...base, ...extra }] *)
Definition obj_spread (base extra : Headers) : Headers :=
  fold_left (fun o kv => obj_set (fst kv) (snd kv) o) extra base.

(** What [fetch] eventually produces. *)
Inductive Response : Type :=
| NetworkFailure (message : string)     (* the promise rejects *)
| HttpResponse (status : Z).            (* the promise resolves *)

(** [response.ok] *)
Definition response_ok (status : Z) : bool :=
  (200 <=? status) && (status <=? 299).

(** The value bound by [catch (error)]. *)
Inductive Error : Type :=
| FetchRejected (message : string)
| HttpError (status : Z).               (* new Error(`HTTP error! status: ${status}`) *)

Definition TimerId : Type := nat.

Inductive TimerKind : Type :=
| FlushInterval                         (* setInterval(() => this.flush(), flushInterval) *)
| RetryTimeout.                         (* setTimeout(() => this.retryFailedBatches(), delay) *)

(** [navigator.sendBeacon]: missing, or present and currently accepting or
    refusing payloads. *)
Inductive BeaconMode : Type :=
| BeaconUnavailable
| BeaconAccepts
| BeaconRefuses.

(** [localStorage]: working, refusing writes (quota), or throwing on every
    access. *)
Inductive StorageFault : Type :=
| StorageOk
| QuotaExceeded
| StorageDenied.

Inductive Effect : Type :=
| SendBeacon (url : string) (body : Payload) (accepted : bool)
| Fetch (url : string) (hdrs : Headers) (body : Payload)
| OnSuccess (evs : list ObservabilityEvent)
| OnError (error : Error) (evs : list ObservabilityEvent)
| ConsoleError (message : string)
| ConsoleWarn (message : string)
| SetInterval (id : TimerId) (delay : Z)
| ClearInterval (id : TimerId)
| SetTimeout (id : TimerId) (delay : Z)
| ClearTimeout (id : TimerId).

(** What a suspended [await this.sendBatch(...)] is waiting for: a promise
    that is already resolved (beacon accepted) or a [fetch] in flight. *)
Inductive Awaited : Type :=
| Resolved
| InFlight.

(** Suspended [async] frames. *)
Inductive Frame : Type :=
| FlushAwait (evs : list ObservabilityEvent) (aw : Awaited)
    (* [flush] at [await this.sendBatch(batch, useBeacon)]; [evs] is the
       local [events] *)
| RetryAwait (batch : EventBatch) (rest : list EventBatch).
    (* [retryFailedBatches] at [await this.sendBatch(batch)] inside the
       loop; [rest] is what is left of [batchesToRetry] *)

(** Entropy consumed by [generateEventId], indexed by the number of earlier
    calls. *)
Record Entropy : Type := mkEntropy {
  randomPart : nat -> string;   (* Math.random().toString(36).substring(2, 15) *)
  counterPart : nat -> string   (* (performance.now() * 1000).toString(36).substring(0, 4) *)
}.

(** ** Configuration *)

(** [BatcherConfig]: what the caller passes; optional fields may be absent. *)
Record BatcherConfig : Type := mkBatcherConfig {
  cfg_endpoint : string;
  cfg_batchSize : option Z;
  cfg_flushInterval : option Z;
  cfg_maxRetries : option Z;
  cfg_retryDelay : option Z;
  cfg_headers : option Headers
}.

(** [Required<BatcherConfig>]: what the constructor stores. *)
Record RequiredConfig : Type := mkConfig {
  endpoint : string;
  batchSize : Z;
  flushInterval : Z;
  maxRetries : Z;
  retryDelay : Z;
  headers : Headers
}.

(** [x || d] on an optional number: [undefined] and [0] are falsy. *)
Definition or_default (x : option Z) (d : Z) : Z :=
  match x with
  | Some v => if v =? 0 then d else v
  | None => d
  end.

Definition resolve_config (c : BatcherConfig) : RequiredConfig :=
  {| endpoint := cfg_endpoint c;
     batchSize := or_default (cfg_batchSize c) 50;
     flushInterval := or_default (cfg_flushInterval c) 5000;
     maxRetries := or_default (cfg_maxRetries c) 3;
     retryDelay := or_default (cfg_retryDelay c) 1000;
     headers := match cfg_headers c with Some h => h | None => [] end |}.

(** ** State *)

(** The six private fields of the class followed by the host. *)
Record State : Type := mkState {
  config : RequiredConfig;
  eventBuffer : list ObservabilityEvent;
  flushTimer : option TimerId;
  isOnline : bool;
  failedBatches : list EventBatch;
  retryTimer : option TimerId;
  clock : Z;                                  (* Date.now() *)
  idCalls : nat;                              (* calls to generateEventId so far *)
  beacon : BeaconMode;
  storage : option (list EventBatch);         (* localStorage["obs_failed_batches"] *)
  storageFault : StorageFault;
  timers : list (TimerId * TimerKind);        (* timers currently armed *)
  nextTimer : TimerId;
  pending : list Frame;
  trace : list Effect
}.

Definition set_config (v : RequiredConfig) (s : State) : State :=
  mkState v (eventBuffer s) (flushTimer s) (isOnline s) (failedBatches s) (retryTimer s)
    (clock s) (idCalls s) (beacon s) (storage s) (storageFault s) (timers s) (nextTimer s)
    (pending s) (trace s).

Definition set_eventBuffer (v : list ObservabilityEvent) (s : State) : State :=
  mkState (config s) v (flushTimer s) (isOnline s) (failedBatches s) (retryTimer s)
    (clock s) (idCalls s) (beacon s) (storage s) (storageFault s) (timers s) (nextTimer s)
    (pending s) (trace s).

Definition set_flushTimer (v : option TimerId) (s : State) : State :=
  mkState (config s) (eventBuffer s) v (isOnline s) (failedBatches s) (retryTimer s)
    (clock s) (idCalls s) (beacon s) (storage s) (storageFault s) (timers s) (nextTimer s)
    (pending s) (trace s).

Definition set_isOnline (v : bool) (s : State) : State :=
  mkState (config s) (eventBuffer s) (flushTimer s) v (failedBatches s) (retryTimer s)
    (clock s) (idCalls s) (beacon s) (storage s) (storageFault s) (timers s) (nextTimer s)
    (pending s) (trace s).

Definition set_failedBatches (v : list EventBatch) (s : State) : State :=
  mkState (config s) (eventBuffer s) (flushTimer s) (isOnline s) v (retryTimer s)
    (clock s) (idCalls s) (beacon s) (storage s) (storageFault s) (timers s) (nextTimer s)
    (pending s) (trace s).

Definition set_retryTimer (v : option TimerId) (s : State) : State :=
  mkState (config s) (eventBuffer s) (flushTimer s) (isOnline s) (failedBatches s) v
    (clock s) (idCalls s) (beacon s) (storage s) (storageFault s) (timers s) (nextTimer s)
    (pending s) (trace s).

Definition set_clock (v : Z) (s : State) : State :=
  mkState (config s) (eventBuffer s) (flushTimer s) (isOnline s) (failedBatches s) (retryTimer s)
    v (idCalls s) (beacon s) (storage s) (storageFault s) (timers s) (nextTimer s)
    (pending s) (trace s).

Definition set_idCalls (v : nat) (s : State) : State :=
  mkState (config s) (eventBuffer s) (flushTimer s) (isOnline s) (failedBatches s) (retryTimer s)
    (clock s) v (beacon s) (storage s) (storageFault s) (timers s) (nextTimer s)
    (pending s) (trace s).

Definition set_beacon (v : BeaconMode) (s : State) : State :=
  mkState (config s) (eventBuffer s) (flushTimer s) (isOnline s) (failedBatches s) (retryTimer s)
    (clock s) (idCalls s) v (storage s) (storageFault s) (timers s) (nextTimer s)
    (pending s) (trace s).

Definition set_storage (v : option (list EventBatch)) (s : State) : State :=
  mkState (config s) (eventBuffer s) (flushTimer s) (isOnline s) (failedBatches s) (retryTimer s)
    (clock s) (idCalls s) (beacon s) v (storageFault s) (timers s) (nextTimer s)
    (pending s) (trace s).

Definition set_storageFault (v : StorageFault) (s : State) : State :=
  mkState (config s) (eventBuffer s) (flushTimer s) (isOnline s) (failedBatches s) (retryTimer s)
    (clock s) (idCalls s) (beacon s) (storage s) v (timers s) (nextTimer s)
    (pending s) (trace s).

Definition set_timers (v : list (TimerId * TimerKind)) (s : State) : State :=
  mkState (config s) (eventBuffer s) (flushTimer s) (isOnline s) (failedBatches s) (retryTimer s)
    (clock s) (idCalls s) (beacon s) (storage s) (storageFault s) v (nextTimer s)
    (pending s) (trace s).

Definition set_nextTimer (v : TimerId) (s : State) : State :=
  mkState (config s) (eventBuffer s) (flushTimer s) (isOnline s) (failedBatches s) (retryTimer s)
    (clock s) (idCalls s) (beacon s) (storage s) (storageFault s) (timers s) v
    (pending s) (trace s).

Definition set_pending (v : list Frame) (s : State) : State :=
  mkState (config s) (eventBuffer s) (flushTimer s) (isOnline s) (failedBatches s) (retryTimer s)
    (clock s) (idCalls s) (beacon s) (storage s) (storageFault s) (timers s) (nextTimer s)
    v (trace s).

Definition set_trace (v : list Effect) (s : State) : State :=
  mkState (config s) (eventBuffer s) (flushTimer s) (isOnline s) (failedBatches s) (retryTimer s)
    (clock s) (idCalls s) (beacon s) (storage s) (storageFault s) (timers s) (nextTimer s)
    (pending s) v.

(** ** The class [EventBatcher] *)

Definition emit (e : Effect) (s : State) : State :=
  set_trace (trace s ++ [e]) s.

Definition suspend (f : Frame) (s : State) : State :=
  set_pending (pending s ++ [f]) s.

(** [arr.slice(-n)]: the last [n] elements. *)
Definition slice_last {A : Type} (n : nat) (l : list A) : list A :=
  skipn (List.length l - n)%nat l.

(** The spill cap of [storeFailedBatch]. *)
Definition SPILL_CAP : nat := 100.

Definition request_headers (c : RequiredConfig) : Headers :=
  obj_spread [("Content-Type", "application/json")%string] (headers c).

Definition arm (id : TimerId) (k : TimerKind) (s : State) : State :=
  set_nextTimer (S id) (set_timers (timers s ++ [(id, k)]) s).

Definition disarm (id : TimerId) (s : State) : State :=
  set_timers (filter (fun t => negb (Nat.eqb (fst t) id)) (timers s)) s.

Definition timer_kind (id : TimerId) (s : State) : option TimerKind :=
  option_map snd (find (fun t => Nat.eqb (fst t) id) (timers s)).

Section Batcher.

Variable entropy : Entropy.

(** [generateEventId()] against the host clock and entropy. *)
Definition generateEventId (s : State) : string * State :=
  (Helpers.generateEventId (clock s)
     (randomPart entropy (idCalls s)) (counterPart entropy (idCalls s)),
   set_idCalls (S (idCalls s)) s).

(** [startFlushTimer] *)
Definition startFlushTimer (s : State) : State :=
  let s1 := match flushTimer s with
            | Some id => disarm id (emit (ClearInterval id) s)
            | None => s
            end in
  let id := nextTimer s1 in
  set_flushTimer (Some id)
    (arm id FlushInterval (emit (SetInterval id (flushInterval (config s1))) s1)).

(** [sendBatch(batch, useBeacon)] up to its first suspension: the beacon
    call is synchronous, the [fetch] is issued and then awaited.  The
    result says what the caller's [await] waits for. *)
Definition sendBatch (batch : EventBatch) (useBeacon : bool) (s : State)
  : Awaited * State :=
  let payload := JSON_stringify batch in
  let url := endpoint (config s) in
  let via_fetch (s' : State) :=
    (InFlight, emit (Fetch url (request_headers (config s')) payload) s') in
  if useBeacon then
    match beacon s with
    | BeaconUnavailable => via_fetch s
    | BeaconAccepts => (Resolved, emit (SendBeacon url payload true) s)
    | BeaconRefuses => via_fetch (emit (SendBeacon url payload false) s)
    end
  else via_fetch s.

(** How the awaited [sendBatch] completes: [None] when it returns, the
    thrown error otherwise. *)
Definition outcome (aw : Awaited) (r : Response) : option Error :=
  match aw with
  | Resolved => None
  | InFlight =>
      match r with
      | NetworkFailure m => Some (FetchRejected m)
      | HttpResponse st => if response_ok st then None else Some (HttpError st)
      end
  end.

(** [storeFailedBatch(events)] *)
Definition storeFailedBatch (evs : list ObservabilityEvent) (s : State) : State :=
  let (id, s1) := generateEventId s in
  let batch := mkBatch id (clock s1) evs in
  let s2 := set_failedBatches (failedBatches s1 ++ [batch]) s1 in
  match storageFault s2 with
  | StorageOk =>
      let existingBatches := match storage s2 with Some l => l | None => [] end in
      set_storage (Some (slice_last SPILL_CAP (existingBatches ++ [batch]))) s2
  | QuotaExceeded | StorageDenied =>
      emit (ConsoleWarn "Failed to store batch in localStorage:") s2
  end.

(** [flush(useBeacon)] up to its first suspension. *)
Definition flush (useBeacon : bool) (s : State) : State :=
  match eventBuffer s with
  | [] => s
  | _ :: _ =>
      if negb (isOnline s) then
        set_eventBuffer [] (storeFailedBatch (eventBuffer s) s)
      else
        let evs := eventBuffer s in
        let s1 := set_eventBuffer [] s in
        let (id, s2) := generateEventId s1 in
        let batch := mkBatch id (clock s2) evs in
        let (aw, s3) := sendBatch batch useBeacon s2 in
        suspend (FlushAwait evs aw) s3
  end.

(** [flush] after its [await]: the rest of the [try] block, or the
    [catch] block. *)
Definition resume_flush (evs : list ObservabilityEvent) (o : option Error)
    (s : State) : State :=
  match o with
  | None => emit (OnSuccess evs) s
  | Some error =>
      storeFailedBatch evs
        (emit (OnError error evs)
           (emit (ConsoleError "Failed to send event batch:") s))
  end.

(** One iteration of the retry loop up to its [await]. *)
Definition retry_send (batch : EventBatch) (rest : list EventBatch)
    (s : State) : State :=
  suspend (RetryAwait batch rest) (snd (sendBatch batch false s)).

(** The end of [retryFailedBatches]: schedule the next sweep. *)
Definition schedule_retry (s : State) : State :=
  match failedBatches s with
  | [] => s
  | _ :: _ =>
      let s1 := match retryTimer s with
                | Some id => disarm id (emit (ClearTimeout id) s)
                | None => s
                end in
      let id := nextTimer s1 in
      let delay :=
        retryDelay (config s1) * Z.min (Z.of_nat (List.length (failedBatches s1))) 10 in
      set_retryTimer (Some id) (arm id RetryTimeout (emit (SetTimeout id delay) s1))
  end.

(** The retry loop after its [await]: the rest of the [try] block or the
    [catch] block of the current iteration, then the next iteration or
    the end of the function. *)
Definition resume_retry (batch : EventBatch) (rest : list EventBatch)
    (o : option Error) (s : State) : State :=
  let s1 := match o with
            | None => emit (OnSuccess (events batch)) s
            | Some error =>
                let s' := emit (OnError error (events batch))
                            (emit (ConsoleError "Failed to retry batch:") s) in
                set_failedBatches (failedBatches s' ++ [batch]) s'
            end in
  match rest with
  | next :: rest' => retry_send next rest' s1
  | [] => schedule_retry s1
  end.

(** The persisted batches are appended to the in-memory list and the key
    is removed. *)
Definition load_persisted (s : State) : State :=
  match storageFault s with
  | StorageDenied =>
      emit (ConsoleWarn "Failed to load batches from localStorage:") s
  | StorageOk | QuotaExceeded =>
      match storage s with
      | Some batches =>
          set_storage None (set_failedBatches (failedBatches s ++ batches) s)
      | None => s
      end
  end.

(** [retryFailedBatches()] up to its first suspension. *)
Definition retryFailedBatches (s : State) : State :=
  if negb (isOnline s) then s
  else
    let s1 := load_persisted s in
    match failedBatches s1 with
    | [] => s1
    | batch :: rest => retry_send batch rest (set_failedBatches [] s1)
    end.

(** [addEvent(event)] *)
Definition addEvent (e : ObservabilityEvent) (s : State) : State :=
  let s1 := set_eventBuffer (eventBuffer s ++ [e]) s in
  if Z.of_nat (List.length (eventBuffer s1)) >=? batchSize (config s1)
  then flush false s1 else s1.

(** [addEvents(events)] *)
Definition addEvents (evs : list ObservabilityEvent) (s : State) : State :=
  let s1 := set_eventBuffer (eventBuffer s ++ evs) s in
  if Z.of_nat (List.length (eventBuffer s1)) >=? batchSize (config s1)
  then flush false s1 else s1.

(** [forceFlush()] *)
Definition forceFlush (s : State) : State := flush false s.

(** [destroy()] *)
Definition destroy (s : State) : State :=
  let s1 := match flushTimer s with
            | Some id => set_flushTimer None (disarm id (emit (ClearInterval id) s))
            | None => s
            end in
  let s2 := match retryTimer s1 with
            | Some id => set_retryTimer None (disarm id (emit (ClearTimeout id) s1))
            | None => s1
            end in
  flush true s2.

End Batcher.

(** ** Construction *)

(** What the constructor finds in the page. *)
Record Host : Type := mkHost {
  host_clock : Z;
  host_beacon : BeaconMode;
  host_storage : option (list EventBatch);
  host_storageFault : StorageFault
}.

(** Completion of a call: it returns or it throws. *)
Inductive Completion (A : Type) : Type :=
| Normal (a : A)
| Throw (message : string).

Arguments Normal {A} a.
Arguments Throw {A} message.

(** The field initialisers of the class. *)
Definition fresh (h : Host) (c : RequiredConfig) : State :=
  {| config := c;
     eventBuffer := [];
     flushTimer := None;
     isOnline := true;
     failedBatches := [];
     retryTimer := None;
     clock := host_clock h;
     idCalls := O;
     beacon := host_beacon h;
     storage := host_storage h;
     storageFault := host_storageFault h;
     timers := [];
     nextTimer := 1%nat;
     pending := [];
     trace := [] |}.

(** [new EventBatcher(config)]: resolve the defaults, register the
    listeners (they are the [Window...]/[Document...] actions below) and
    start the flush timer.  The body contains no [throw]. *)
Definition construct (h : Host) (c : BatcherConfig) : Completion State :=
  Normal (startFlushTimer (fresh h (resolve_config c))).

(** ** Transitions *)

Inductive Action : Type :=
| CallAddEvent (e : ObservabilityEvent)
| CallAddEvents (evs : list ObservabilityEvent)
| CallForceFlush
| CallDestroy
| WindowOnline
| WindowOffline
| WindowBeforeUnload
| DocumentVisibilityChange (hidden : bool)
| TimerFires (id : TimerId)
| Settle (k : nat) (r : Response)         (* the [k]-th suspended frame resumes *)
| Elapse (dt : Z)
| BeaconBecomes (m : BeaconMode)
| StorageBecomes (f : StorageFault).

Definition remove_nth {A : Type} (k : nat) (l : list A) : list A :=
  firstn k l ++ skipn (S k) l.

Section Transitions.

Variable entropy : Entropy.

Definition resume (f : Frame) (r : Response) (s : State) : State :=
  match f with
  | FlushAwait evs aw => resume_flush entropy evs (outcome aw r) s
  | RetryAwait batch rest => resume_retry batch rest (outcome InFlight r) s
  end.

Definition step (s : State) (a : Action) : State :=
  match a with
  | CallAddEvent e => addEvent entropy e s
  | CallAddEvents evs => addEvents entropy evs s
  | CallForceFlush => forceFlush entropy s
  | CallDestroy => destroy entropy s
  | WindowOnline => retryFailedBatches (set_isOnline true s)
  | WindowOffline => set_isOnline false s
  | WindowBeforeUnload => flush entropy true s
  | DocumentVisibilityChange hidden => if hidden then flush entropy true s else s
  | TimerFires id =>
      match timer_kind id s with
      | Some FlushInterval => flush entropy false s
      | Some RetryTimeout => retryFailedBatches (disarm id s)
      | None => s
      end
  | Settle k r =>
      match nth_error (pending s) k with
      | Some f => resume f r (set_pending (remove_nth k (pending s)) s)
      | None => s
      end
  | Elapse dt => set_clock (clock s + Z.max 0 dt) s
  | BeaconBecomes m => set_beacon m s
  | StorageBecomes f => set_storageFault f s
  end.

Definition run (s : State) (acts : list Action) : State :=
  fold_left step acts s.

End Transitions.

(** ** Observations on traces *)

(** The batches handed to a transport that took them: every [fetch] and
    every accepted beacon. *)
Definition attempt_of (e : Effect) : list EventBatch :=
  match e with
  | Fetch _ _ body => [parsed body]
  | SendBeacon _ body true => [parsed body]
  | _ => []
  end.

Definition attempts (t : list Effect) : list EventBatch := flat_map attempt_of t.

(** All calls to a transport, accepted or not. *)
Definition is_transport_call (e : Effect) : bool :=
  match e with
  | Fetch _ _ _ | SendBeacon _ _ _ => true
  | _ => false
  end.

Definition transport_calls (t : list Effect) : list Effect := filter is_transport_call t.

Definition is_callback (e : Effect) : bool :=
  match e with
  | OnSuccess _ | OnError _ _ => true
  | _ => false
  end.

(** What a caller that only supplied [onSuccess]/[onError] sees. *)
Definition callbacks (t : list Effect) : list Effect := filter is_callback t.

Definition records (bs : list EventBatch) : list ObservabilityEvent := flat_map events bs.

(** The records a list of actions enqueues. *)
Definition enqueued (a : Action) : list ObservabilityEvent :=
  match a with
  | CallAddEvent e => [e]
  | CallAddEvents evs => evs
  | _ => []
  end.

(** ** Vocabulary for the statements *)

Section Vocabulary.

Variable entropy : Entropy.

(** The identifier the next call of [generateEventId] returns. *)
Definition next_id (s : State) : string := fst (generateEventId entropy s).

(** The envelope [flush] builds in state [s]. *)
Definition flushed_batch (s : State) : EventBatch :=
  mkBatch (next_id s) (clock s) (eventBuffer s).

(** The envelope [storeFailedBatch(evs)] builds in state [s]. *)
Definition spilled_batch (evs : list ObservabilityEvent) (s : State) : EventBatch :=
  mkBatch (next_id s) (clock s) evs.

End Vocabulary.

(** What [storeFailedBatch] leaves under the storage key. *)
Definition persisted_after (b : EventBatch) (s : State) : option (list EventBatch) :=
  match storageFault s with
  | StorageOk =>
      Some (slice_last SPILL_CAP
              (match storage s with Some l => l | None => [] end ++ [b]))
  | QuotaExceeded | StorageDenied => storage s
  end.

(** What [storeFailedBatch] logs. *)
Definition spill_log (s : State) : list Effect :=
  match storageFault s with
  | StorageOk => []
  | QuotaExceeded | StorageDenied =>
      [ConsoleWarn "Failed to store batch in localStorage:"]
  end.

(** The transport calls of [sendBatch(batch, useBeacon)]. *)
Definition send_log (s : State) (batch : EventBatch) (useBeacon : bool) : list Effect :=
  let url := endpoint (config s) in
  let payload := JSON_stringify batch in
  let fetched := Fetch url (request_headers (config s)) payload in
  if useBeacon then
    match beacon s with
    | BeaconUnavailable => [fetched]
    | BeaconAccepts => [SendBeacon url payload true]
    | BeaconRefuses => [SendBeacon url payload false; fetched]
    end
  else [fetched].

(** Whether [sendBatch(_, useBeacon)] goes through [fetch]. *)
Definition uses_fetch (s : State) (useBeacon : bool) : bool :=
  if useBeacon then
    match beacon s with BeaconAccepts => false | _ => true end
  else true.

Definition awaited (s : State) (useBeacon : bool) : Awaited :=
  if uses_fetch s useBeacon then InFlight else Resolved.

(** The error [catch] binds for a failed response. *)
Definition error_of (r : Response) : option Error := outcome InFlight r.

Definition with_maxRetries (m : Z) (c : RequiredConfig) : RequiredConfig :=
  mkConfig (endpoint c) (batchSize c) (flushInterval c) m (retryDelay c) (headers c).

(** ** Statements shared by a theorem and its counterexample *)

(** Threshold flush on a batcher whose buffer is empty: enqueueing [es]
    one by one attempts nothing, and enqueueing [e] after them makes, within
    that call, one delivery attempt with exactly [es ++ [e]] and leaves the
    buffer empty. *)
Definition threshold_flush (entropy : Entropy) (s : State)
    (es : list ObservabilityEvent) (e : ObservabilityEvent) : Prop :=
  let s1 := run entropy s (map CallAddEvent es) in
  let s2 := step entropy s1 (CallAddEvent e) in
  attempts (trace s1) = attempts (trace s)
  /\ eventBuffer s1 = es
  /\ (exists b, attempts (trace s2) = attempts (trace s) ++ [b]
                /\ events b = es ++ [e])
  /\ eventBuffer s2 = [].

(** The calls and host events of an interleaving of [addEvent] and [flush]:
    everything except the online/offline signals. *)
Definition enqueue_or_flush (a : Action) : bool :=
  match a with
  | WindowOnline | WindowOffline => false
  | _ => true
  end.

(** No retry sweep is suspended or scheduled. *)
Definition no_sweep (s : State) : Prop :=
  Forall (fun f => exists evs aw, f = FlushAwait evs aw) (pending s)
  /\ Forall (fun t => snd t = FlushInterval) (timers s).

(** [destroy] before its final flush: both timers are cleared. *)
Definition stop_timers (s : State) : State :=
  let s1 := match flushTimer s with
            | Some id => set_flushTimer None (disarm id (emit (ClearInterval id) s))
            | None => s
            end in
  match retryTimer s1 with
  | Some id => set_retryTimer None (disarm id (emit (ClearTimeout id) s1))
  | None => s1
  end.

(** Conservation of records between two states of an online batcher: the
    batches [fetch] or the beacon took in between hold, once each and in
    order, the records that left the buffer. *)
Definition drained_online (s s' : State) (added : list ObservabilityEvent) : Prop :=
  exists d, attempts (trace s') = attempts (trace s) ++ d
            /\ records d ++ eventBuffer s' = eventBuffer s ++ added.

(** The same for an offline batcher: no transport is called and the
    records that left the buffer are in the batches spilled in between. *)
Definition drained_offline (s s' : State) (added : list ObservabilityEvent) : Prop :=
  transport_calls (trace s') = transport_calls (trace s)
  /\ exists d, failedBatches s' = failedBatches s ++ d
               /\ records d ++ eventBuffer s' = eventBuffer s ++ added.

Definition conserved (s s' : State) (added : list ObservabilityEvent) : Prop :=
  if isOnline s then drained_online s s' added else drained_offline s s' added.

(** ** A retry sweep, iteration by iteration *)

(** The local [batchesToRetry] of a sweep that starts in [s]: the in-memory
    list followed by what is read from storage. *)
Definition batchesToRetry (s : State) : list EventBatch :=
  failedBatches (load_persisted s).

(** The response counts as a delivery. *)
Definition delivered (r : Response) : Prop := error_of r = None.

(** One iteration of the retry loop with its [await] answered by [r]. *)
Definition retry_once (batch : EventBatch) (r : Response) (s : State) : State :=
  let s1 := snd (sendBatch batch false s) in
  match error_of r with
  | None => emit (OnSuccess (events batch)) s1
  | Some error =>
      let s' := emit (OnError error (events batch))
                  (emit (ConsoleError "Failed to retry batch:") s1) in
      set_failedBatches (failedBatches s' ++ [batch]) s'
  end.

(** The whole loop over [bs], the [i]-th [await] answered by the [i]-th
    response. *)
Fixpoint retry_all (bs : list EventBatch) (rs : list Response) (s : State) : State :=
  match bs, rs with
  | b :: bs', r :: rs' => retry_all bs' rs' (retry_once b r s)
  | _, _ => s
  end.

(** The batches of [bs] whose response is a failure. *)
Fixpoint refused (bs : list EventBatch) (rs : list Response) : list EventBatch :=
  match bs, rs with
  | b :: bs', r :: rs' =>
      match error_of r with
      | None => refused bs' rs'
      | Some _ => b :: refused bs' rs'
      end
  | _, _ => []
  end.

(** The same batcher configured with another [maxRetries]. *)
Definition retune (m : Z) (s : State) : State :=
  set_config (with_maxRetries m (config s)) s.

(** A sweep fired by the armed retry timer, on a batcher with nothing else
    suspended, in which every delivery is answered by [r]. *)
Definition timed_sweep (entropy : Entropy) (r : Response) (s : State) : State :=
  match retryTimer s with
  | Some id =>
      run entropy s
        (TimerFires id :: repeat (Settle O r) (List.length (batchesToRetry s)))
  | None => s
  end.

(** The retry timer is armed and timer identifiers are below the next one. *)
Definition retry_armed (s : State) : Prop :=
  (exists id, retryTimer s = Some id /\ timer_kind id s = Some RetryTimeout)
  /\ Forall (fun t => (fst t < nextTimer s)%nat) (timers s).

(** ** Further vocabulary *)

(** Reading a key of an object literal. *)
Fixpoint obj_get (k : string) (o : Headers) : option string :=
  match o with
  | [] => None
  | (k', v) :: o' => if String.eqb k k' then Some v else obj_get k o'
  end.

(** The callbacks a sweep over [bs] makes when its [i]-th delivery is
    answered by the [i]-th response. *)
Fixpoint sweep_callbacks (bs : list EventBatch) (rs : list Response) : list Effect :=
  match bs, rs with
  | b :: bs', r :: rs' =>
      match error_of r with
      | None => OnSuccess (events b)
      | Some error => OnError error (events b)
      end :: sweep_callbacks bs' rs'
  | _, _ => []
  end.

(** A transport call made with the batcher's own endpoint and headers. *)
Definition aimed_at (c : RequiredConfig) (e : Effect) : Prop :=
  match e with
  | Fetch url hdrs _ => url = endpoint c /\ hdrs = request_headers c
  | SendBeacon url _ _ => url = endpoint c
  | _ => True
  end.

(** The armed timers are the ones the batcher holds a handle of: distinct
    identifiers, all issued already, a flush interval only under
    [flushTimer] and a retry timeout only under [retryTimer]. *)
Definition timers_tidy (s : State) : Prop :=
  NoDup (map fst (timers s))
  /\ Forall (fun t => (fst t < nextTimer s)%nat) (timers s)
  /\ (forall id, In (id, FlushInterval) (timers s) -> flushTimer s = Some id)
  /\ (forall id, In (id, RetryTimeout) (timers s) -> retryTimer s = Some id).

(** Reading base 36 back: the value of a digit character (its position
    among the digits), the value of a digit string, most significant digit
    first, and whether a string contains a dash. *)
Fixpoint digit_index (c : ascii) (l : list ascii) : N :=
  match l with
  | [] => 0%N
  | d :: l' => if Ascii.eqb c d then 0%N else N.succ (digit_index c l')
  end.

Definition digit_value (c : ascii) : N := digit_index c Helpers.digits36.

Fixpoint parse36 (s : string) (acc : N) : N :=
  match s with
  | EmptyString => acc
  | String c s' => parse36 s' (acc * 36 + digit_value c)%N
  end.

Fixpoint has_dash (s : string) : bool :=
  match s with
  | EmptyString => false
  | String c s' => Ascii.eqb c "-"%char || has_dash s'
  end.

(** [36 ^ k] *)
Fixpoint pow36 (k : nat) : N :=
  match k with
  | O => 1%N
  | S k' => (36 * pow36 k')%N
  end.

(** From [s] to [s'] the trace was only appended to, and every transport
    call appended uses the endpoint and the headers of [c]. *)
Definition sends_only_to (c : RequiredConfig) (s s' : State) : Prop :=
  exists new, trace s' = trace s ++ new /\ Forall (aimed_at c) new.

(** The persisted list is within the spill cap. *)
Definition storage_capped (s : State) : Prop :=
  match storage s with
  | Some l => (List.length l <= SPILL_CAP)%nat
  | None => True
  end.

(** The timer handles the batcher holds. *)
Definition held_timers (s : State) : list TimerId :=
  match flushTimer s with Some id => [id] | None => [] end
  ++ match retryTimer s with Some id => [id] | None => [] end.

(** ** The SDK facade ([Observability], file [index.ts]) as far as it
    drives the batcher *)

(** The options of [ObservabilityConfig] that reach the batcher. *)
Record ObservabilityConfig : Type := mkObservabilityConfig {
  oc_endpoint : string;
  oc_batchSize : option Z;
  oc_flushInterval : option Z;
  oc_customHeaders : option Headers
}.

(** The argument of [new EventBatcher(...)] in the constructor of
    [Observability]: its own defaults are applied first, the headers are a
    copy of [customHeaders], and neither [maxRetries] nor [retryDelay] is
    passed. *)
Definition facade_batcher_config (oc : ObservabilityConfig) : BatcherConfig :=
  {| cfg_endpoint := oc_endpoint oc;
     cfg_batchSize := Some (or_default (oc_batchSize oc) 50);
     cfg_flushInterval := Some (or_default (oc_flushInterval oc) 5000);
     cfg_maxRetries := None;
     cfg_retryDelay := None;
     cfg_headers := Some (match oc_customHeaders oc with Some h => h | None => [] end) |}.

(** [Observability.flush()] *)
Definition Observability_flush (entropy : Entropy) (s : State) : State :=
  forceFlush entropy s.

(** The page becomes hidden: the batcher's [visibilitychange] listener
    (registered by its constructor) runs first, then the facade's
    (registered by [initialize]), which calls [this.flush()]. *)
Definition page_hidden (entropy : Entropy) (s : State) : State :=
  Observability_flush entropy (step entropy s (DocumentVisibilityChange true)).

(** The timer callback of [startEventCollection] once the two queues have
    been read into [evs]: each event is reported to [onEvent] and handed to
    [addEvent], one at a time.  The first component logs the [onEvent]
    calls. *)
Definition collect (entropy : Entropy) (evs : list ObservabilityEvent)
    (st : list ObservabilityEvent * State) : list ObservabilityEvent * State :=
  fold_left (fun st e => (fst st ++ [e], addEvent entropy e (snd st))) evs st.

(** ** The same methods with their exceptions written out *)

(** The definitions above resolve every [try]/[catch] on the spot: a
    catch block is a branch.  Here the bodies are written again as the
    source has them, in a state monad with exceptions: [throw], a rejected
    promise and a throwing [localStorage] raise, [try_catch] is
    [try { ... } catch (e) { ... }].  A computation ends in the state it
    reached, with its value or with the value thrown. *)
Inductive Result (E A : Type) : Type :=
| Returns (a : A) (s : State)
| Throws (e : E) (s : State).

Arguments Returns {E A} a s.
Arguments Throws {E A} e s.

Definition M (E A : Type) : Type := State -> Result E A.

Module Raising.

Definition ret {E A : Type} (a : A) : M E A := fun s => Returns a s.

Definition bind {E A B : Type} (m : M E A) (k : A -> M E B) : M E B :=
  fun s =>
    match m s with
    | Returns a s' => k a s'
    | Throws e s' => Throws e s'
    end.

Definition throw {E A : Type} (e : E) : M E A := fun s => Throws e s.

(** [try { body } catch (e) { handler }]: what the body changed before it
    threw stays changed. *)
Definition try_catch {E E' A : Type} (body : M E A) (handler : E -> M E' A)
  : M E' A :=
  fun s =>
    match body s with
    | Returns a s' => Returns a s'
    | Throws e s' => handler e s'
    end.

Definition read {E A : Type} (f : State -> A) : M E A := fun s => Returns (f s) s.

Definition update {E : Type} (f : State -> State) : M E unit :=
  fun s => Returns tt (f s).

Notation "x <- m ;; k" := (bind m (fun x => k))
  (at level 61, m at next level, right associativity).
Notation "m ;; k" := (bind m (fun _ => k))
  (at level 61, right associativity).

(** *** The host calls that throw *)

(** [JSON.parse(localStorage.getItem("obs_failed_batches"))]; [None] is
    the [null] of a missing key. *)
Definition localStorage_getItem : M StorageFault (option (list EventBatch)) :=
  fun s =>
    match storageFault s with
    | StorageDenied => Throws StorageDenied s
    | StorageOk | QuotaExceeded => Returns (storage s) s
    end.

(** [localStorage.setItem("obs_failed_batches", JSON.stringify(v))] *)
Definition localStorage_setItem (v : list EventBatch) : M StorageFault unit :=
  fun s =>
    match storageFault s with
    | StorageOk => Returns tt (set_storage (Some v) s)
    | QuotaExceeded => Throws QuotaExceeded s
    | StorageDenied => Throws StorageDenied s
    end.

(** [localStorage.removeItem("obs_failed_batches")] *)
Definition localStorage_removeItem : M StorageFault unit :=
  fun s =>
    match storageFault s with
    | StorageDenied => Throws StorageDenied s
    | StorageOk | QuotaExceeded => Returns tt (set_storage None s)
    end.

(** [await fetch(...)] when the request settles with [r]: the status of
    the response, or the rejection thrown at the [await]. *)
Definition await_fetch (r : Response) : M Error Z :=
  match r with
  | NetworkFailure m => throw (FetchRejected m)
  | HttpResponse status => ret status
  end.

Section Methods.

Variable entropy : Entropy.

(** [generateEventId()] *)
Definition generateEventId {E : Type} : M E string :=
  fun s =>
    Returns
      (Helpers.generateEventId (clock s)
         (randomPart entropy (idCalls s)) (counterPart entropy (idCalls s)))
      (set_idCalls (S (idCalls s)) s).

(** [sendBatch(batch, useBeacon)] up to its [await]: the value says
    whether the function has returned (the beacon took the payload) or
    waits for [fetch]. *)
Definition sendBatch {E : Type} (batch : EventBatch) (useBeacon : bool)
  : M E Awaited :=
  let payload := JSON_stringify batch in
  url <- read (fun s => endpoint (config s)) ;;
  b <- read beacon ;;
  sent <- (if useBeacon then
             match b with
             | BeaconUnavailable => ret false
             | BeaconAccepts => update (emit (SendBeacon url payload true)) ;; ret true
             | BeaconRefuses => update (emit (SendBeacon url payload false)) ;; ret false
             end
           else ret false) ;;
  if sent : bool then ret Resolved
  else
    hdrs <- read (fun s => request_headers (config s)) ;;
    update (emit (Fetch url hdrs payload)) ;;
    ret InFlight.

(** [sendBatch] from its [await] on. *)
Definition sendBatch_settles (aw : Awaited) (r : Response) : M Error unit :=
  match aw with
  | Resolved => ret tt
  | InFlight =>
      status <- await_fetch r ;;
      if negb (response_ok status) then throw (HttpError status) else ret tt
  end.

(** [storeFailedBatch(events)] *)
Definition storeFailedBatch {E : Type} (evs : list ObservabilityEvent) : M E unit :=
  id <- generateEventId ;;
  now <- read clock ;;
  let batch := mkBatch id now evs in
  update (fun s => set_failedBatches (failedBatches s ++ [batch]) s) ;;
  try_catch
    (storedBatches <- localStorage_getItem ;;
     let existingBatches := match storedBatches with Some l => l | None => [] end in
     localStorage_setItem (slice_last SPILL_CAP (existingBatches ++ [batch])))
    (fun _ => update (emit (ConsoleWarn "Failed to store batch in localStorage:"))).

(** [flush(useBeacon)] up to its [await]. *)
Definition flush {E : Type} (useBeacon : bool) : M E unit :=
  buffer <- read eventBuffer ;;
  match buffer with
  | [] => ret tt
  | _ :: _ =>
      online <- read isOnline ;;
      if negb online then
        storeFailedBatch buffer ;;
        update (set_eventBuffer [])
      else
        update (set_eventBuffer []) ;;
        id <- generateEventId ;;
        now <- read clock ;;
        let batch := mkBatch id now buffer in
        aw <- sendBatch batch useBeacon ;;
        update (suspend (FlushAwait buffer aw))
  end.

(** [flush] from its [await] on: the [try] block and its [catch]. *)
Definition resume_flush {E : Type} (evs : list ObservabilityEvent) (aw : Awaited)
    (r : Response) : M E unit :=
  try_catch
    (sendBatch_settles aw r ;;
     update (emit (OnSuccess evs)))
    (fun error =>
       update (emit (ConsoleError "Failed to send event batch:")) ;;
       update (emit (OnError error evs)) ;;
       storeFailedBatch evs).

(** One iteration of the retry loop up to its [await]. *)
Definition retry_send {E : Type} (batch : EventBatch) (rest : list EventBatch)
  : M E unit :=
  _ <- sendBatch batch false ;;
  update (suspend (RetryAwait batch rest)).

(** The first [try] of [retryFailedBatches]: load what is persisted. *)
Definition load_persisted {E : Type} : M E unit :=
  try_catch
    (storedBatches <- localStorage_getItem ;;
     match storedBatches with
     | Some batches =>
         update (fun s => set_failedBatches (failedBatches s ++ batches) s) ;;
         localStorage_removeItem
     | None => ret tt
     end)
    (fun _ => update (emit (ConsoleWarn "Failed to load batches from localStorage:"))).

(** [retryFailedBatches()] up to its [await]. *)
Definition retryFailedBatches {E : Type} : M E unit :=
  online <- read isOnline ;;
  if negb online then ret tt
  else
    load_persisted ;;
    batchesToRetry <- read failedBatches ;;
    match batchesToRetry with
    | [] => ret tt
    | batch :: rest =>
        update (set_failedBatches []) ;;
        retry_send batch rest
    end.

(** The retry loop from its [await] on: the [try] block and its [catch]
    for the current batch, then the next iteration or the scheduling of
    the next sweep. *)
Definition resume_retry {E : Type} (batch : EventBatch) (rest : list EventBatch)
    (r : Response) : M E unit :=
  try_catch
    (sendBatch_settles InFlight r ;;
     update (emit (OnSuccess (events batch))))
    (fun error =>
       update (emit (ConsoleError "Failed to retry batch:")) ;;
       update (emit (OnError error (events batch))) ;;
       update (fun s => set_failedBatches (failedBatches s ++ [batch]) s)) ;;
  match rest with
  | next :: rest' => retry_send next rest'
  | [] => update schedule_retry
  end.

(** [addEvent(event)] *)
Definition addEvent {E : Type} (e : ObservabilityEvent) : M E unit :=
  update (fun s => set_eventBuffer (eventBuffer s ++ [e]) s) ;;
  n <- read (fun s => Z.of_nat (List.length (eventBuffer s))) ;;
  size <- read (fun s => batchSize (config s)) ;;
  if n >=? size then flush false else ret tt.

(** [addEvents(events)] *)
Definition addEvents {E : Type} (evs : list ObservabilityEvent) : M E unit :=
  update (fun s => set_eventBuffer (eventBuffer s ++ evs) s) ;;
  n <- read (fun s => Z.of_nat (List.length (eventBuffer s))) ;;
  size <- read (fun s => batchSize (config s)) ;;
  if n >=? size then flush false else ret tt.

(** [forceFlush()] *)
Definition forceFlush {E : Type} : M E unit := flush false.

(** [destroy()] *)
Definition destroy {E : Type} : M E unit :=
  flushTimer <- read flushTimer ;;
  match flushTimer with
  | Some id => update (fun s => set_flushTimer None (disarm id (emit (ClearInterval id) s)))
  | None => ret tt
  end ;;
  retryTimer <- read retryTimer ;;
  match retryTimer with
  | Some id => update (fun s => set_retryTimer None (disarm id (emit (ClearTimeout id) s)))
  | None => ret tt
  end ;;
  flush true.

(** One synchronous segment.  A value thrown here reaches the caller of
    the public method, or rejects the promise of the [async] method the
    segment belongs to. *)
Definition step {E : Type} (a : Action) : M E unit :=
  match a with
  | CallAddEvent e => addEvent e
  | CallAddEvents evs => addEvents evs
  | CallForceFlush => forceFlush
  | CallDestroy => destroy
  | WindowOnline => update (set_isOnline true) ;; retryFailedBatches
  | WindowOffline => update (set_isOnline false)
  | WindowBeforeUnload => flush true
  | DocumentVisibilityChange hidden => if hidden then flush true else ret tt
  | TimerFires id =>
      kind <- read (timer_kind id) ;;
      match kind with
      | Some FlushInterval => flush false
      | Some RetryTimeout => update (disarm id) ;; retryFailedBatches
      | None => ret tt
      end
  | Settle k r =>
      frame <- read (fun s => nth_error (pending s) k) ;;
      match frame with
      | Some f =>
          update (fun s => set_pending (remove_nth k (pending s)) s) ;;
          match f with
          | FlushAwait evs aw => resume_flush evs aw r
          | RetryAwait batch rest => resume_retry batch rest r
          end
      | None => ret tt
      end
  | Elapse dt => update (fun s => set_clock (clock s + Z.max 0 dt) s)
  | BeaconBecomes m => update (set_beacon m)
  | StorageBecomes f => update (set_storageFault f)
  end.

(** The segments one after the other; the first value thrown ends the
    run. *)
Fixpoint run {E : Type} (acts : list Action) : M E unit :=
  match acts with
  | [] => ret tt
  | a :: acts' => step a ;; run acts'
  end.

End Methods.

End Raising.

(** ** Sample data *)

Module Sample.

Definition entropy : Entropy :=
  mkEntropy (fun n => Helpers.toString36 (Z.of_nat n + 46656))
            (fun _ => "1z4k"%string).

Definition host : Host := mkHost 1700000000000 BeaconUnavailable None StorageOk.

Definition beacon_host (m : BeaconMode) : Host := mkHost 1700000000000 m None StorageOk.

Definition url : string := "https://api.example.com/events".

Definition cfg (n : Z) : BatcherConfig :=
  mkBatcherConfig url (Some n) (Some 5000) None None None.

Definition ev (n : Z) : ObservabilityEvent :=
  mkEvent n "test-session" "test-event-id" "custom".

(** A batcher as the constructor leaves it. *)
Definition boot (h : Host) (c : BatcherConfig) : State :=
  match construct h c with
  | Normal s => s
  | Throw _ => fresh h (resolve_config c)
  end.

Definition start (n : Z) : State := boot host (cfg n).

Definition ok : Response := HttpResponse 200.

Definition unavailable : Response := HttpResponse 503.

(** One record buffered on a fresh batcher of batch size 3. *)
Definition one_buffered : State := step entropy (start 3) (CallAddEvent (ev 1)).

(** The same on a page whose beacon refuses payloads. *)
Definition beacon_refusing : State :=
  step entropy (boot (beacon_host BeaconRefuses) (cfg 3)) (CallAddEvent (ev 1)).

(** One record buffered after the offline signal. *)
Definition offline_buffered : State :=
  run entropy (start 3) [WindowOffline; CallAddEvent (ev 1)].

(** A flush is requested while the previous one still awaits its
    response; the first response then arrives. *)
Definition reentrant : list Action :=
  [CallAddEvent (ev 1); CallForceFlush; CallAddEvent (ev 2); CallForceFlush;
   Settle 0 ok; CallAddEvent (ev 3)].

(** A batch an earlier page session left under the storage key. *)
Definition old_batch : EventBatch := mkBatch "older-batch" 1699999990000 [ev 0].

Definition returning_host : Host :=
  mkHost 1700000000000 BeaconUnavailable (Some [old_batch]) StorageOk.

(** On that page: go offline, enqueue one record, flush. *)
Definition spilled_offline : State :=
  run entropy (boot returning_host (cfg 3))
    [WindowOffline; CallAddEvent (ev 1); CallForceFlush].

(** Back online with every delivery accepted. *)
Definition swept : State :=
  run entropy spilled_offline [WindowOnline; Settle 0 ok; Settle 0 ok; Settle 0 ok].

(** A flush whose delivery is answered 503. *)
Definition failed_flush : State :=
  run entropy (start 3) [CallAddEvent (ev 1); CallForceFlush; Settle 0 unavailable].

(** After [failed_flush], the online signal starts a sweep that fails
    too: the batch is queued again and the retry timer is armed. *)
Definition stuck : State :=
  run entropy failed_flush [WindowOnline; Settle 0 unavailable; Settle 0 unavailable].

(** A page whose beacon takes payloads, one record buffered. *)
Definition beacon_accepting : State :=
  step entropy (boot (beacon_host BeaconAccepts) (cfg 3)) (CallAddEvent (ev 1)).

(** A flush awaiting its response. *)
Definition flushing : State :=
  run entropy (start 3) [CallAddEvent (ev 1); CallForceFlush].

(** After [failed_flush], the online signal has started a sweep that
    awaits its first response. *)
Definition sweeping : State := step entropy failed_flush WindowOnline.

(** [stuck] after the offline signal: the retry timer is armed. *)
Definition offline_armed : State := step entropy stuck WindowOffline.

(** The configuration of the header test. *)
Definition with_headers : RequiredConfig :=
  resolve_config
    (mkBatcherConfig url None None None None
       (Some [("Authorization", "Bearer token123"); ("X-Custom", "value")]%string)).

Definition seven : list ObservabilityEvent :=
  [ev 1; ev 2; ev 3; ev 4; ev 5; ev 6; ev 7].

(** The facade's configuration of a page that sets only the endpoint. *)
Definition facade_page : ObservabilityConfig :=
  mkObservabilityConfig url None None None.

(** A facade-built batcher whose sweep waits for its last delivery. *)
Definition last_delivery : list Action :=
  [WindowOffline; CallAddEvent (ev 1); CallForceFlush; WindowOnline; Settle 0 ok].

(** Offline on a fresh page: one record is enqueued and flushed. *)
Definition offline_spill : State := step entropy offline_buffered CallForceFlush.

(** Back online: the first delivery of the sweep is answered 200, the
    second 503. *)
Definition half_delivered : State :=
  run entropy offline_spill [WindowOnline; Settle 0 ok; Settle 0 unavailable].

(** Storage refuses writes and the delivery of a flush is answered 503. *)
Definition quota_failure : list Action :=
  [StorageBecomes QuotaExceeded; CallAddEvent (ev 1); CallForceFlush;
   Settle 0 unavailable].

End Sample.

(** * Properties *)

(** ** How each method moves the fields *)

Section Frames.

Variable entropy : Entropy.

Lemma store_failedBatches evs s :
  failedBatches (storeFailedBatch entropy evs s)
  = failedBatches s ++ [spilled_batch entropy evs s].
Proof. unfold storeFailedBatch; simpl; destruct (storageFault s); reflexivity. Qed.

Lemma store_trace evs s :
  trace (storeFailedBatch entropy evs s) = trace s ++ spill_log s.
Proof.
  unfold storeFailedBatch, spill_log; simpl; destruct (storageFault s); simpl;
    auto using app_nil_r.
Qed.

Lemma store_storage evs s :
  storage (storeFailedBatch entropy evs s)
  = persisted_after (spilled_batch entropy evs s) s.
Proof. unfold storeFailedBatch, persisted_after; simpl; destruct (storageFault s); reflexivity. Qed.

Lemma store_unchanged evs s :
  let s' := storeFailedBatch entropy evs s in
  eventBuffer s' = eventBuffer s /\ isOnline s' = isOnline s /\
  pending s' = pending s /\ config s' = config s /\
  retryTimer s' = retryTimer s /\ timers s' = timers s /\
  nextTimer s' = nextTimer s /\ storageFault s' = storageFault s /\
  beacon s' = beacon s /\ clock s' = clock s /\ flushTimer s' = flushTimer s /\
  idCalls s' = S (idCalls s).
Proof.
  cbv zeta; unfold storeFailedBatch; simpl; destruct (storageFault s) eqn:E; simpl;
    repeat (split; [auto|]); reflexivity.
Qed.

Lemma sendBatch_trace b ub s :
  trace (snd (sendBatch b ub s)) = trace s ++ send_log s b ub.
Proof.
  unfold sendBatch, send_log; destruct ub, (beacon s); simpl;
    rewrite <- ?app_assoc; reflexivity.
Qed.

Lemma sendBatch_awaited b ub s : fst (sendBatch b ub s) = awaited s ub.
Proof. unfold sendBatch, awaited, uses_fetch; destruct ub, (beacon s); reflexivity. Qed.

Lemma sendBatch_state b ub s :
  snd (sendBatch b ub s) = set_trace (trace s ++ send_log s b ub) s.
Proof.
  unfold sendBatch, send_log, emit; destruct ub, (beacon s); simpl;
    try reflexivity; rewrite <- app_assoc; reflexivity.
Qed.

Lemma flush_empty ub s : eventBuffer s = [] -> flush entropy ub s = s.
Proof. unfold flush; intros ->; reflexivity. Qed.

Lemma flush_offline ub s :
  eventBuffer s <> [] -> isOnline s = false ->
  flush entropy ub s = set_eventBuffer [] (storeFailedBatch entropy (eventBuffer s) s).
Proof.
  unfold flush; intros Hne Hoff; destruct (eventBuffer s); [congruence|].
  rewrite Hoff; reflexivity.
Qed.

Lemma flush_online ub s :
  eventBuffer s <> [] -> isOnline s = true ->
  flush entropy ub s
  = set_pending (pending s ++ [FlushAwait (eventBuffer s) (awaited s ub)])
      (set_trace (trace s ++ send_log s (flushed_batch entropy s) ub)
         (set_idCalls (S (idCalls s)) (set_eventBuffer [] s))).
Proof.
  unfold flush; intros Hne Hon; destruct (eventBuffer s) as [|e l] eqn:E; [congruence|].
  rewrite Hon; simpl.
  unfold flushed_batch, next_id; simpl; rewrite E.
  match goal with |- context [sendBatch ?b ub ?x] =>
    rewrite (surjective_pairing (sendBatch b ub x));
    rewrite (sendBatch_state b ub x), (sendBatch_awaited b ub x)
  end.
  reflexivity.
Qed.

(** The buffer is empty after every [flush], whatever path it takes. *)
Lemma flush_drains ub s : eventBuffer (flush entropy ub s) = [].
Proof.
  destruct (eventBuffer s) eqn:E.
  - rewrite flush_empty; assumption.
  - destruct (isOnline s) eqn:O.
    + rewrite flush_online; [reflexivity | congruence | assumption].
    + rewrite flush_offline; [reflexivity | congruence | assumption].
Qed.

End Frames.

(** ** Callbacks and transport calls of each method *)

Lemma callbacks_app t u : callbacks (t ++ u) = callbacks t ++ callbacks u.
Proof. apply filter_app. Qed.

Lemma transport_calls_app t u :
  transport_calls (t ++ u) = transport_calls t ++ transport_calls u.
Proof. apply filter_app. Qed.

Lemma attempts_app t u : attempts (t ++ u) = attempts t ++ attempts u.
Proof. apply flat_map_app. Qed.

Lemma records_app a b : records (a ++ b) = records a ++ records b.
Proof. apply flat_map_app. Qed.

Lemma callbacks_spill_log s : callbacks (spill_log s) = [].
Proof. unfold spill_log; destruct (storageFault s); reflexivity. Qed.

Lemma transport_calls_spill_log s : transport_calls (spill_log s) = [].
Proof. unfold spill_log; destruct (storageFault s); reflexivity. Qed.

Lemma callbacks_send_log s b ub : callbacks (send_log s b ub) = [].
Proof. unfold send_log; destruct ub, (beacon s); reflexivity. Qed.

(** Exactly one transport takes the batch. *)
Lemma attempts_send_log s b ub : attempts (send_log s b ub) = [b].
Proof. unfold send_log; destruct ub, (beacon s); reflexivity. Qed.

Section Silence.

Variable entropy : Entropy.

Lemma store_callbacks evs s :
  callbacks (trace (storeFailedBatch entropy evs s)) = callbacks (trace s).
Proof.
  rewrite store_trace, callbacks_app, callbacks_spill_log; apply app_nil_r.
Qed.

Lemma flush_callbacks ub s :
  callbacks (trace (flush entropy ub s)) = callbacks (trace s).
Proof.
  destruct (eventBuffer s) eqn:E.
  - rewrite flush_empty; auto.
  - destruct (isOnline s) eqn:O.
    + rewrite flush_online by congruence; simpl.
      rewrite callbacks_app, callbacks_send_log; apply app_nil_r.
    + rewrite flush_offline by congruence; simpl. apply store_callbacks.
Qed.

Lemma retry_send_trace b rest s :
  trace (retry_send b rest s)
  = trace s ++ [Fetch (endpoint (config s)) (request_headers (config s)) (JSON_stringify b)].
Proof. reflexivity. Qed.

Lemma load_persisted_callbacks s :
  callbacks (trace (load_persisted s)) = callbacks (trace s).
Proof.
  unfold load_persisted; destruct (storageFault s), (storage s); simpl;
    rewrite ?callbacks_app; simpl; auto using app_nil_r.
Qed.

Lemma retryFailedBatches_callbacks s :
  callbacks (trace (retryFailedBatches s)) = callbacks (trace s).
Proof.
  unfold retryFailedBatches; destruct (isOnline s); simpl; [|reflexivity].
  destruct (failedBatches (load_persisted s)) eqn:E.
  - apply load_persisted_callbacks.
  - rewrite retry_send_trace, callbacks_app; simpl.
    rewrite app_nil_r; apply load_persisted_callbacks.
Qed.

Lemma destroy_callbacks s :
  callbacks (trace (destroy entropy s)) = callbacks (trace s).
Proof.
  unfold destroy; rewrite flush_callbacks.
  destruct (flushTimer s); simpl; destruct (retryTimer s); simpl;
    rewrite ?callbacks_app; simpl; rewrite ?callbacks_app; simpl;
    rewrite ?app_nil_r; reflexivity.
Qed.

(** Only the resumption of a suspended delivery invokes a callback. *)
Lemma callbacks_need_a_delivery s a :
  callbacks (trace (step entropy s a)) <> callbacks (trace s) ->
  exists k r f, a = Settle k r /\ nth_error (pending s) k = Some f.
Proof.
  destruct a; simpl; intros H.
  10: { destruct (nth_error (pending s) k) as [f|] eqn:E.
        - exists k, r, f; auto.
        - exfalso; apply H; reflexivity. }
  all: exfalso; apply H; clear H.
  - unfold addEvent; simpl.
    destruct (_ >=? _); [rewrite flush_callbacks|]; reflexivity.
  - unfold addEvents; simpl.
    destruct (_ >=? _); [rewrite flush_callbacks|]; reflexivity.
  - apply flush_callbacks.
  - apply destroy_callbacks.
  - rewrite retryFailedBatches_callbacks; reflexivity.
  - reflexivity.
  - apply flush_callbacks.
  - destruct hidden; [apply flush_callbacks | reflexivity].
  - destruct (timer_kind id s) as [[|]|];
      [apply flush_callbacks | rewrite retryFailedBatches_callbacks | ]; reflexivity.
  - reflexivity.
  - reflexivity.
  - reflexivity.
Qed.

End Silence.

(** ** Urgent flush *)

(** C4.  During an urgent flush, when [navigator.sendBeacon] returns
    [false], the same call goes on to [fetch] with the very same serialised
    payload; the refusal is not a failure: nothing is spilled and no
    callback fires, the flush simply awaits the [fetch]. *)
Theorem urgent_flush_falls_back_to_fetch (entropy : Entropy) (s : State) :
  isOnline s = true ->
  eventBuffer s <> [] ->
  beacon s = BeaconRefuses ->
  let payload := JSON_stringify (flushed_batch entropy s) in
  let s' := flush entropy true s in
  trace s' = trace s ++ [SendBeacon (endpoint (config s)) payload false;
                         Fetch (endpoint (config s)) (request_headers (config s)) payload]
  /\ pending s' = pending s ++ [FlushAwait (eventBuffer s) InFlight]
  /\ failedBatches s' = failedBatches s
  /\ storage s' = storage s
  /\ callbacks (trace s') = callbacks (trace s)
  /\ step entropy s WindowBeforeUnload = s'
  /\ step entropy s (DocumentVisibilityChange true) = s'.
Proof.
  intros Hon Hne Hb payload s'; subst payload s'.
  change (step entropy s WindowBeforeUnload) with (flush entropy true s).
  change (step entropy s (DocumentVisibilityChange true)) with (flush entropy true s).
  rewrite flush_online by assumption.
  unfold send_log, awaited, uses_fetch; rewrite Hb; simpl.
  repeat (split; [reflexivity|]).
  repeat split.
  rewrite callbacks_app; simpl; apply app_nil_r.
Qed.

(** ** Outcome of a standard delivery *)

(** C5.  A flush that goes through [fetch] suspends with the drained
    records.  When the [fetch] rejects or answers outside 200..299, the
    resumed flush logs, calls [onError] with the error and those records,
    and spills a batch holding them; when it answers within 200..299 it
    calls [onSuccess] with those records and spills nothing. *)
Theorem standard_delivery_outcome (entropy : Entropy) (s : State) (useBeacon : bool) :
  isOnline s = true ->
  eventBuffer s <> [] ->
  uses_fetch s useBeacon = true ->
  let evs := eventBuffer s in
  let s1 := flush entropy useBeacon s in
  pending s1 = pending s ++ [FlushAwait evs InFlight]
  /\ attempts (trace s1) = attempts (trace s) ++ [flushed_batch entropy s]
  /\ forall (s2 : State) (k : nat),
       nth_error (pending s2) k = Some (FlushAwait evs InFlight) ->
       let failed (error : Error) (s3 : State) :=
         trace s3 = trace s2 ++ [ConsoleError "Failed to send event batch:";
                                 OnError error evs] ++ spill_log s2
         /\ failedBatches s3 = failedBatches s2 ++ [spilled_batch entropy evs s2]
         /\ storage s3 = persisted_after (spilled_batch entropy evs s2) s2 in
       (forall m, failed (FetchRejected m) (step entropy s2 (Settle k (NetworkFailure m))))
       /\ (forall st, ~ 200 <= st <= 299 ->
             failed (HttpError st) (step entropy s2 (Settle k (HttpResponse st))))
       /\ (forall st, 200 <= st <= 299 ->
             let s3 := step entropy s2 (Settle k (HttpResponse st)) in
             trace s3 = trace s2 ++ [OnSuccess evs]
             /\ failedBatches s3 = failedBatches s2
             /\ storage s3 = storage s2).
Proof.
  intros Hon Hne Hf evs s1; subst evs s1.
  rewrite flush_online by assumption.
  unfold awaited; rewrite Hf; simpl.
  split; [reflexivity|]. split.
  { rewrite attempts_app, attempts_send_log; reflexivity. }
  intros s2 k Hk; simpl; rewrite Hk; simpl.
  assert (Hfail : forall error,
    let s3 := resume_flush entropy (eventBuffer s) (Some error)
                (set_pending (remove_nth k (pending s2)) s2) in
    trace s3 = trace s2 ++ [ConsoleError "Failed to send event batch:";
                            OnError error (eventBuffer s)] ++ spill_log s2
    /\ failedBatches s3 = failedBatches s2 ++ [spilled_batch entropy (eventBuffer s) s2]
    /\ storage s3 = persisted_after (spilled_batch entropy (eventBuffer s) s2) s2).
  { intros error; simpl.
    rewrite store_trace, store_failedBatches, store_storage; simpl.
    rewrite <- !app_assoc; simpl. repeat split. }
  split; [|split].
  - intros m; apply Hfail.
  - intros st Hst.
    assert (response_ok st = false) as ->.
    { unfold response_ok; apply andb_false_iff.
      destruct (Z.leb_spec 200 st); [right|left; reflexivity].
      apply Z.leb_gt; lia. }
    apply Hfail.
  - intros st Hst.
    assert (response_ok st = true) as ->.
    { unfold response_ok; apply andb_true_iff; split; apply Z.leb_le; lia. }
    simpl; repeat split.
Qed.

(** ** Offline flush and the callbacks *)

(** C10.  An offline flush with records in the buffer moves them to the
    spill store without invoking [onSuccess] or [onError]: the callbacks a
    caller has seen are the same before and after, exactly as if the
    records were still buffered.  In general a transition invokes a
    callback only when it resumes a suspended delivery. *)
Theorem offline_flush_is_silent (entropy : Entropy) (s : State) (useBeacon : bool) :
  isOnline s = false ->
  eventBuffer s <> [] ->
  let s' := flush entropy useBeacon s in
  callbacks (trace s') = callbacks (trace s)
  /\ eventBuffer s' = []
  /\ failedBatches s' = failedBatches s ++ [spilled_batch entropy (eventBuffer s) s]
  /\ pending s' = pending s
  /\ (forall (s0 : State) (a : Action),
        callbacks (trace (step entropy s0 a)) <> callbacks (trace s0) ->
        exists k r f, a = Settle k r /\ nth_error (pending s0) k = Some f).
Proof.
  intros Hoff Hne s'; subst s'.
  split; [apply flush_callbacks|].
  split; [apply flush_drains|].
  rewrite flush_offline by assumption; simpl.
  rewrite store_failedBatches.
  split; [reflexivity|].
  split; [apply store_unchanged|].
  apply callbacks_need_a_delivery.
Qed.

(** ** Threshold flush *)

Section Threshold.

Variable entropy : Entropy.

Lemma set_eventBuffer_same s : set_eventBuffer (eventBuffer s) s = s.
Proof. destruct s; reflexivity. Qed.

(** Below the threshold [addEvent] only appends. *)
Lemma addEvent_below e s :
  Z.of_nat (List.length (eventBuffer s ++ [e])) < batchSize (config s) ->
  addEvent entropy e s = set_eventBuffer (eventBuffer s ++ [e]) s.
Proof.
  intros H; unfold addEvent; simpl.
  destruct (Z.geb_spec (Z.of_nat (List.length (eventBuffer s ++ [e])))
              (batchSize (config s))); [lia | reflexivity].
Qed.

Lemma addEvent_reached e s :
  batchSize (config s) <= Z.of_nat (List.length (eventBuffer s ++ [e])) ->
  addEvent entropy e s = flush entropy false (set_eventBuffer (eventBuffer s ++ [e]) s).
Proof.
  intros H; unfold addEvent; simpl.
  destruct (Z.geb_spec (Z.of_nat (List.length (eventBuffer s ++ [e])))
              (batchSize (config s))); [reflexivity | lia].
Qed.

Lemma addEvents_below evs s :
  Z.of_nat (List.length (eventBuffer s ++ evs)) < batchSize (config s) ->
  addEvents entropy evs s = set_eventBuffer (eventBuffer s ++ evs) s.
Proof.
  intros H; unfold addEvents; simpl.
  destruct (Z.geb_spec (Z.of_nat (List.length (eventBuffer s ++ evs)))
              (batchSize (config s))); [lia | reflexivity].
Qed.

Lemma addEvents_reached evs s :
  batchSize (config s) <= Z.of_nat (List.length (eventBuffer s ++ evs)) ->
  addEvents entropy evs s = flush entropy false (set_eventBuffer (eventBuffer s ++ evs) s).
Proof.
  intros H; unfold addEvents; simpl.
  destruct (Z.geb_spec (Z.of_nat (List.length (eventBuffer s ++ evs)))
              (batchSize (config s))); [reflexivity | lia].
Qed.

(** A run of [addEvent]s that stays below the threshold only fills the
    buffer. *)
Lemma addEvent_run_below es : forall s,
  Z.of_nat (List.length (eventBuffer s ++ es)) < batchSize (config s) ->
  run entropy s (map CallAddEvent es) = set_eventBuffer (eventBuffer s ++ es) s.
Proof.
  induction es as [|e es IH]; intros s H; simpl.
  - rewrite app_nil_r; symmetry; apply set_eventBuffer_same.
  - rewrite addEvent_below.
    + change (fold_left (step entropy) (map CallAddEvent es) ?x)
        with (run entropy x (map CallAddEvent es)).
      rewrite IH; simpl.
      * rewrite <- app_assoc; reflexivity.
      * rewrite <- app_assoc; exact H.
    + rewrite !length_app in *; simpl in *; lia.
Qed.

(** An online flush of a non-empty buffer is one attempt carrying the
    whole buffer. *)
Lemma flush_online_attempt ub s :
  isOnline s = true -> eventBuffer s <> [] ->
  attempts (trace (flush entropy ub s))
  = attempts (trace s) ++ [flushed_batch entropy s].
Proof.
  intros Hon Hne; rewrite flush_online by assumption; simpl.
  rewrite attempts_app, attempts_send_log; reflexivity.
Qed.

End Threshold.

(** C6 (as amended).  On an online batcher whose buffer is empty and whose
    batch size is [n >= 1], the first [n-1] calls of [addEvent] attempt
    nothing and the [n]-th makes, within the call, exactly one delivery
    attempt holding those [n] records in insertion order, leaving the buffer
    empty.  [addEvents] checks the threshold once after appending: when it
    is reached there is exactly one attempt holding the whole buffer, else
    the records are only appended. *)
Theorem threshold_flush_online (entropy : Entropy) (s : State)
    (es : list ObservabilityEvent) (e : ObservabilityEvent) :
  isOnline s = true ->
  eventBuffer s = [] ->
  Z.of_nat (List.length (es ++ [e])) = batchSize (config s) ->
  threshold_flush entropy s es e
  /\ forall (s0 : State) (evs : list ObservabilityEvent),
       isOnline s0 = true ->
       let all := eventBuffer s0 ++ evs in
       let s' := addEvents entropy evs s0 in
       (batchSize (config s0) <= Z.of_nat (List.length all) -> all <> [] ->
          exists b, attempts (trace s') = attempts (trace s0) ++ [b]
                    /\ events b = all /\ eventBuffer s' = [])
       /\ (Z.of_nat (List.length all) < batchSize (config s0) ->
          trace s' = trace s0 /\ eventBuffer s' = all).
Proof.
  intros Hon Hbuf Hn; split.
  - unfold threshold_flush; cbv zeta.
    assert (Hbelow : Z.of_nat (List.length (eventBuffer s ++ es)) < batchSize (config s)).
    { rewrite Hbuf; rewrite length_app in Hn; simpl in *; lia. }
    rewrite addEvent_run_below by exact Hbelow.
    rewrite Hbuf; simpl.
    split; [reflexivity|]. split; [reflexivity|].
    rewrite addEvent_reached by (simpl; lia); simpl.
    split.
    + exists (flushed_batch entropy (set_eventBuffer (es ++ [e]) (set_eventBuffer es s))).
      split; [|reflexivity].
      rewrite flush_online_attempt; simpl; auto.
      destruct es; discriminate.
    + apply flush_drains.
  - intros s0 evs Hon0 all s'; subst all s'; split.
    + intros Hreach Hne.
      rewrite addEvents_reached by assumption.
      exists (flushed_batch entropy (set_eventBuffer (eventBuffer s0 ++ evs) s0)).
      split; [|split; [reflexivity | apply flush_drains]].
      rewrite flush_online_attempt; simpl; auto.
    + intros Hlow; rewrite addEvents_below by assumption; split; reflexivity.
Qed.

(** ** Atomic draining *)

Lemma remove_nth_In {A : Type} (x : A) k : forall l, In x (remove_nth k l) -> In x l.
Proof.
  unfold remove_nth; induction k as [|k IH]; intros [|y l]; simpl; auto.
  intros [H|H]; auto.
Qed.

Lemma Forall_remove_nth {A : Type} (P : A -> Prop) k l :
  Forall P l -> Forall P (remove_nth k l).
Proof.
  rewrite !Forall_forall; intros H x Hx; apply H; eapply remove_nth_In; eauto.
Qed.

Lemma Forall_filter_keep {A : Type} (P : A -> Prop) f l :
  Forall P l -> Forall P (filter f l).
Proof.
  rewrite !Forall_forall; intros H x Hx; apply H; apply filter_In in Hx; tauto.
Qed.

Lemma attempts_spill_log s : attempts (spill_log s) = [].
Proof. unfold spill_log; destruct (storageFault s); reflexivity. Qed.

Lemma timer_kind_flush id s :
  Forall (fun t => snd t = FlushInterval) (timers s) ->
  timer_kind id s = Some FlushInterval \/ timer_kind id s = None.
Proof.
  unfold timer_kind; intros H.
  destruct (find (fun t => Nat.eqb (fst t) id) (timers s)) as [t|] eqn:E; simpl; auto.
  apply find_some in E; destruct E as [E _].
  rewrite Forall_forall in H; left; f_equal; exact (H _ E).
Qed.

Section StopTimers.

Variable entropy : Entropy.

Lemma destroy_unfold s : destroy entropy s = flush entropy true (stop_timers s).
Proof. reflexivity. Qed.

Lemma stop_timers_unchanged s :
  let s' := stop_timers s in
  isOnline s' = isOnline s /\ pending s' = pending s /\
  eventBuffer s' = eventBuffer s /\ failedBatches s' = failedBatches s /\
  attempts (trace s') = attempts (trace s) /\
  transport_calls (trace s') = transport_calls (trace s) /\
  (forall P, Forall P (timers s) -> Forall P (timers s')).
Proof.
  cbv zeta; unfold stop_timers.
  destruct (flushTimer s); simpl; destruct (retryTimer s); simpl;
    rewrite ?attempts_app, ?transport_calls_app; simpl;
    rewrite ?attempts_app, ?transport_calls_app; simpl;
    rewrite ?app_nil_r;
    repeat (split; [reflexivity|]); intros P HP;
    repeat apply Forall_filter_keep; exact HP.
Qed.

End StopTimers.

Section Conservation.

Variable entropy : Entropy.

Lemma drained_online_refl s : drained_online s s [].
Proof. exists []; rewrite !app_nil_r; auto. Qed.

Lemma drained_offline_refl s : drained_offline s s [].
Proof. split; auto; exists []; rewrite !app_nil_r; auto. Qed.

(** First the buffer grows by [added], then [s1] moves to [s']. *)
Lemma drained_online_after s s1 s' added :
  attempts (trace s1) = attempts (trace s) ->
  eventBuffer s1 = eventBuffer s ++ added ->
  drained_online s1 s' [] -> drained_online s s' added.
Proof.
  intros Ha Hb [d [H1 H2]]; exists d.
  rewrite H1, Ha, H2, Hb, app_nil_r; auto.
Qed.

Lemma drained_offline_after s s1 s' added :
  transport_calls (trace s1) = transport_calls (trace s) ->
  failedBatches s1 = failedBatches s ->
  eventBuffer s1 = eventBuffer s ++ added ->
  drained_offline s1 s' [] -> drained_offline s s' added.
Proof.
  intros Ha Hf Hb [Ht [d [H1 H2]]]; split; [congruence|]; exists d.
  rewrite H1, Hf, H2, Hb, app_nil_r; auto.
Qed.

Lemma flush_online_conserves ub s :
  isOnline s = true -> no_sweep s ->
  let s' := flush entropy ub s in
  isOnline s' = true /\ no_sweep s' /\ drained_online s s' [].
Proof.
  intros Hon [Hp Ht]; cbv zeta; destruct (eventBuffer s) as [|e l] eqn:E.
  - rewrite flush_empty by assumption.
    repeat split; auto using drained_online_refl.
  - assert (Hne : eventBuffer s <> []) by congruence.
    rewrite flush_online by assumption; unfold drained_online; simpl.
    split; [assumption|]. split.
    + split; simpl; [|assumption].
      apply Forall_app; split; [assumption|]; constructor; eauto.
    + exists [flushed_batch entropy s]; simpl.
      rewrite attempts_app, attempts_send_log, E, !app_nil_r; auto.
Qed.

Lemma flush_offline_conserves ub s :
  isOnline s = false -> pending s = [] ->
  let s' := flush entropy ub s in
  isOnline s' = false /\ pending s' = [] /\ timers s' = timers s
  /\ drained_offline s s' [].
Proof.
  intros Hoff Hp; cbv zeta; destruct (eventBuffer s) as [|e l] eqn:E.
  - rewrite flush_empty by assumption.
    repeat split; auto; apply drained_offline_refl.
  - assert (Hne : eventBuffer s <> []) by congruence.
    rewrite flush_offline by assumption; unfold drained_offline; simpl.
    destruct (store_unchanged entropy (eventBuffer s) s)
      as (_ & Ho & Hpe & _ & _ & Hti & _).
    rewrite Ho, Hpe, Hti.
    repeat split; auto.
    + rewrite store_trace, transport_calls_app, transport_calls_spill_log.
      apply app_nil_r.
    + exists [spilled_batch entropy (eventBuffer s) s].
      rewrite store_failedBatches; simpl; rewrite !app_nil_r; auto.
Qed.

Lemma resume_flush_online evs o s :
  let s' := resume_flush entropy evs o s in
  isOnline s' = isOnline s /\ pending s' = pending s /\ timers s' = timers s
  /\ eventBuffer s' = eventBuffer s /\ attempts (trace s') = attempts (trace s).
Proof.
  cbv zeta; destruct o as [error|]; simpl.
  - match goal with |- context [storeFailedBatch entropy evs ?x] =>
      destruct (store_unchanged entropy evs x) as (Hb & Ho & Hpe & _ & _ & Hti & _);
      rewrite Hb, Ho, Hpe, Hti, store_trace
    end; simpl.
    rewrite !attempts_app, attempts_spill_log; simpl; rewrite !app_nil_r; auto.
  - rewrite attempts_app; simpl; rewrite app_nil_r; auto.
Qed.

Ltac unchanged_online :=
  split; [assumption
         |split; [first [assumption | split; assumption]
                 |first [apply drained_online_refl
                        |exists []; simpl; rewrite !app_nil_r; auto]]].

Lemma step_online_conserves s a :
  isOnline s = true -> no_sweep s -> enqueue_or_flush a = true ->
  let s' := step entropy s a in
  isOnline s' = true /\ no_sweep s' /\ drained_online s s' (enqueued a).
Proof.
  intros Hon Hns Ha; cbv zeta; destruct a; try discriminate; simpl.
  - (* addEvent *)
    unfold addEvent; destruct (_ >=? _).
    + destruct (flush_online_conserves false
                  (set_eventBuffer (eventBuffer s ++ [e]) s) Hon Hns) as (? & ? & ?).
      split; [assumption|split; [assumption|]].
      apply (drained_online_after s (set_eventBuffer (eventBuffer s ++ [e]) s));
        [reflexivity | reflexivity | assumption].
    + split; [assumption|split; [assumption|]].
      exists []; simpl; rewrite app_nil_r; auto.
  - (* addEvents *)
    unfold addEvents; destruct (_ >=? _).
    + destruct (flush_online_conserves false
                  (set_eventBuffer (eventBuffer s ++ evs) s) Hon Hns) as (? & ? & ?).
      split; [assumption|split; [assumption|]].
      apply (drained_online_after s (set_eventBuffer (eventBuffer s ++ evs) s));
        [reflexivity | reflexivity | assumption].
    + split; [assumption|split; [assumption|]].
      exists []; simpl; rewrite app_nil_r; auto.
  - (* forceFlush *)
    apply flush_online_conserves; assumption.
  - (* destroy *)
    rewrite destroy_unfold.
    destruct (stop_timers_unchanged s) as (Ho & Hp & Hb & _ & Hat & _ & Hti).
    destruct Hns as [Hn1 Hn2].
    destruct (flush_online_conserves true (stop_timers s)) as (? & ? & ?).
    { congruence. }
    { split; [rewrite Hp; assumption | apply Hti; assumption]. }
    split; [assumption|split; [assumption|]].
    apply (drained_online_after s (stop_timers s));
      [assumption | rewrite Hb, app_nil_r; reflexivity | assumption].
  - (* beforeunload *)
    apply flush_online_conserves; assumption.
  - (* visibilitychange *)
    destruct hidden; [apply flush_online_conserves; assumption|].
    unchanged_online.
  - (* timer *)
    destruct Hns as [Hn1 Hn2].
    destruct (timer_kind_flush id s Hn2) as [-> | ->].
    + apply flush_online_conserves; [assumption | split; assumption].
    + unchanged_online.
  - (* a suspended flush resumes *)
    destruct Hns as [Hn1 Hn2].
    destruct (nth_error (pending s) k) as [f|] eqn:E.
    + pose proof (nth_error_In _ _ E) as Hin.
      rewrite Forall_forall in Hn1; destruct (Hn1 _ Hin) as (evs & aw & ->); simpl.
      match goal with |- context [resume_flush entropy evs ?o ?x] =>
        destruct (resume_flush_online evs o x) as (Ho & Hp & Hti & Hb & Hat)
      end.
      unfold no_sweep, drained_online; rewrite Ho, Hp, Hti, Hat, Hb; simpl.
      split; [assumption|]. split.
      * split; [|assumption]. apply Forall_remove_nth, Forall_forall; assumption.
      * exists []; rewrite !app_nil_r; auto.
    + unchanged_online.
  - unchanged_online.
  - unchanged_online.
  - unchanged_online.
Qed.

End Conservation.

Section ConservationRuns.

Variable entropy : Entropy.

Lemma step_offline_conserves s a :
  isOnline s = false -> pending s = [] ->
  Forall (fun t => snd t = FlushInterval) (timers s) ->
  enqueue_or_flush a = true ->
  let s' := step entropy s a in
  isOnline s' = false /\ pending s' = []
  /\ Forall (fun t => snd t = FlushInterval) (timers s')
  /\ drained_offline s s' (enqueued a).
Proof.
  intros Hoff Hp Hti Ha; cbv zeta.
  assert (Hflush : forall ub s1 added,
    isOnline s1 = false -> pending s1 = [] ->
    Forall (fun t => snd t = FlushInterval) (timers s1) ->
    transport_calls (trace s1) = transport_calls (trace s) ->
    failedBatches s1 = failedBatches s ->
    eventBuffer s1 = eventBuffer s ++ added ->
    let s' := flush entropy ub s1 in
    isOnline s' = false /\ pending s' = []
    /\ Forall (fun t => snd t = FlushInterval) (timers s')
    /\ drained_offline s s' added).
  { intros ub s1 added H1 H2 H3 H4 H5 H6; cbv zeta.
    destruct (flush_offline_conserves entropy ub s1 H1 H2) as (? & ? & Ht & ?).
    rewrite Ht; repeat (split; [assumption|]).
    apply (drained_offline_after s s1); assumption. }
  assert (Hsame : forall s1,
    isOnline s1 = false -> pending s1 = [] -> timers s1 = timers s ->
    trace s1 = trace s -> failedBatches s1 = failedBatches s ->
    eventBuffer s1 = eventBuffer s ->
    isOnline s1 = false /\ pending s1 = []
    /\ Forall (fun t => snd t = FlushInterval) (timers s1)
    /\ drained_offline s s1 []).
  { intros s1 H1 H2 H3 H4 H5 H6; rewrite H3.
    repeat (split; [assumption|]).
    split; [rewrite H4; reflexivity|].
    exists []; rewrite H5, H6, !app_nil_r; auto. }
  destruct a; try discriminate; cbn [step enqueued].
  - unfold addEvent; cbv zeta; destruct (_ >=? _).
    + apply Hflush; auto.
    + simpl; repeat (split; [assumption|]); split; [reflexivity|].
      exists []; simpl; rewrite app_nil_r; auto.
  - unfold addEvents; cbv zeta; destruct (_ >=? _).
    + apply Hflush; auto.
    + simpl; repeat (split; [assumption|]); split; [reflexivity|].
      exists []; simpl; rewrite app_nil_r; auto.
  - apply Hflush; auto using app_nil_r.
  - rewrite destroy_unfold.
    destruct (stop_timers_unchanged s) as (Ho & Hpe & Hb & Hf & _ & Htc & Hkeep).
    apply Hflush; try congruence; auto.
    rewrite Hb, app_nil_r; reflexivity.
  - apply Hflush; auto using app_nil_r.
  - destruct hidden; [apply Hflush; auto using app_nil_r | apply Hsame; auto].
  - destruct (timer_kind_flush id s Hti) as [-> | ->];
      [apply Hflush; auto using app_nil_r | apply Hsame; auto].
  - rewrite Hp; destruct k; simpl; apply Hsame; auto.
  - apply Hsame; auto.
  - apply Hsame; auto.
  - apply Hsame; auto.
Qed.

Lemma drained_online_trans s s1 s' l1 l2 :
  drained_online s s1 l1 -> drained_online s1 s' l2 ->
  drained_online s s' (l1 ++ l2).
Proof.
  intros [d1 [A1 B1]] [d2 [A2 B2]]; exists (d1 ++ d2); split.
  - rewrite A2, A1, app_assoc; reflexivity.
  - rewrite records_app, <- app_assoc, B2, !app_assoc, B1; reflexivity.
Qed.

Lemma drained_offline_trans s s1 s' l1 l2 :
  drained_offline s s1 l1 -> drained_offline s1 s' l2 ->
  drained_offline s s' (l1 ++ l2).
Proof.
  intros [T1 [d1 [A1 B1]]] [T2 [d2 [A2 B2]]]; split; [congruence|].
  exists (d1 ++ d2); split.
  - rewrite A2, A1, app_assoc; reflexivity.
  - rewrite records_app, <- app_assoc, B2, !app_assoc, B1; reflexivity.
Qed.

Lemma run_online_conserves acts : forall s,
  isOnline s = true -> no_sweep s ->
  forallb enqueue_or_flush acts = true ->
  drained_online s (run entropy s acts) (flat_map enqueued acts).
Proof.
  induction acts as [|a acts IH]; intros s Hon Hns Hall; simpl.
  - apply drained_online_refl.
  - simpl in Hall; apply andb_true_iff in Hall; destruct Hall as [Ha Hall].
    destruct (step_online_conserves entropy s a Hon Hns Ha) as (Hon' & Hns' & Hd).
    eapply drained_online_trans; [exact Hd|].
    apply IH; assumption.
Qed.

Lemma run_offline_conserves acts : forall s,
  isOnline s = false -> pending s = [] ->
  Forall (fun t => snd t = FlushInterval) (timers s) ->
  forallb enqueue_or_flush acts = true ->
  drained_offline s (run entropy s acts) (flat_map enqueued acts).
Proof.
  induction acts as [|a acts IH]; intros s Hoff Hp Hti Hall; simpl.
  - apply drained_offline_refl.
  - simpl in Hall; apply andb_true_iff in Hall; destruct Hall as [Ha Hall].
    destruct (step_offline_conserves s a Hoff Hp Hti Ha) as (Hoff' & Hp' & Hti' & Hd).
    eapply drained_offline_trans; [exact Hd|].
    apply IH; assumption.
Qed.

End ConservationRuns.

(** C1.  Take any interleaving of [addEvent]/[addEvents] calls, flushes
    (forced, timed, urgent, at destroy) and resumptions of suspended flushes
    with any responses, on a batcher with no retry sweep under way.  Every
    flush empties the buffer in its synchronous part and the suspended frame
    alone holds the drained records.  Hence, online, the batches taken by a
    transport followed by the buffer are exactly the enqueued records, each
    once and in order: none is lost, none is in two attempts, even when a
    flush starts while another awaits the network.  Offline the same holds
    with the spilled batches and no transport call is made. *)
Theorem drain_is_atomic (entropy : Entropy) (s0 : State) (acts : list Action) :
  no_sweep s0 ->
  (isOnline s0 = false -> pending s0 = []) ->
  forallb enqueue_or_flush acts = true ->
  conserved s0 (run entropy s0 acts) (flat_map enqueued acts)
  /\ forall (useBeacon : bool) (s : State),
       eventBuffer (flush entropy useBeacon s) = []
       /\ (isOnline s = true -> eventBuffer s <> [] ->
           pending (flush entropy useBeacon s)
           = pending s ++ [FlushAwait (eventBuffer s) (awaited s useBeacon)]).
Proof.
  intros Hns Hp Hall; split.
  - unfold conserved; destruct (isOnline s0) eqn:O.
    + apply run_online_conserves; assumption.
    + apply run_offline_conserves; auto; apply Hns.
  - intros ub s; split; [apply flush_drains|].
    intros Hon Hne; rewrite flush_online by assumption; reflexivity.
Qed.

(** ** Retry sweeps *)

Lemma remove_nth_last {A : Type} (l : list A) (x : A) :
  remove_nth (List.length l) (l ++ [x]) = l.
Proof.
  unfold remove_nth; induction l as [|y l IH]; simpl; [reflexivity|].
  simpl in IH; rewrite IH; reflexivity.
Qed.

Lemma nth_error_last {A : Type} (l : list A) (x : A) :
  nth_error (l ++ [x]) (List.length l) = Some x.
Proof. rewrite nth_error_app2, Nat.sub_diag by lia; reflexivity. Qed.

Lemma set_pending_same s : set_pending (pending s) s = s.
Proof. destruct s; reflexivity. Qed.

Section Sweep.

Variable entropy : Entropy.

(** Resuming the frame a state has just suspended. *)
Lemma settle_last f r s :
  step entropy (suspend f s) (Settle (List.length (pending s)) r)
  = resume entropy f r s.
Proof.
  simpl; rewrite nth_error_last, remove_nth_last.
  f_equal; destruct s; reflexivity.
Qed.

Lemma retry_once_unchanged b r s :
  let s' := retry_once b r s in
  pending s' = pending s /\ isOnline s' = isOnline s /\ storage s' = storage s
  /\ storageFault s' = storageFault s /\ config s' = config s
  /\ retryTimer s' = retryTimer s /\ timers s' = timers s
  /\ nextTimer s' = nextTimer s /\ eventBuffer s' = eventBuffer s
  /\ idCalls s' = idCalls s /\ clock s' = clock s.
Proof.
  cbv zeta; unfold retry_once; destruct (error_of r); simpl;
    repeat (split; [reflexivity|]); reflexivity.
Qed.

Lemma retry_all_unchanged bs : forall rs s,
  let s' := retry_all bs rs s in
  pending s' = pending s /\ isOnline s' = isOnline s /\ storage s' = storage s
  /\ storageFault s' = storageFault s /\ config s' = config s
  /\ retryTimer s' = retryTimer s /\ timers s' = timers s
  /\ nextTimer s' = nextTimer s /\ eventBuffer s' = eventBuffer s
  /\ idCalls s' = idCalls s /\ clock s' = clock s.
Proof.
  induction bs as [|b bs IH]; intros [|r rs] s; cbv zeta; simpl;
    try (repeat (split; [reflexivity|]); reflexivity).
  destruct (IH rs (retry_once b r s)) as (A1&A2&A3&A4&A5&A6&A7&A8&A9&A10&A11).
  destruct (retry_once_unchanged b r s) as (B1&B2&B3&B4&B5&B6&B7&B8&B9&B10&B11).
  repeat split; congruence.
Qed.

Lemma retry_once_failedBatches b r s :
  failedBatches (retry_once b r s) = failedBatches s ++ refused [b] [r].
Proof.
  unfold retry_once; simpl; destruct (error_of r); simpl; auto using app_nil_r.
Qed.

Lemma retry_all_failedBatches bs : forall rs s,
  failedBatches (retry_all bs rs s) = failedBatches s ++ refused bs rs.
Proof.
  induction bs as [|b bs IH]; intros [|r rs] s; simpl; auto using app_nil_r.
  rewrite IH, retry_once_failedBatches; simpl.
  destruct (error_of r); simpl; rewrite <- ?app_assoc; auto using app_nil_r.
Qed.

Lemma retry_once_attempts b r s :
  attempts (trace (retry_once b r s)) = attempts (trace s) ++ [b].
Proof.
  unfold retry_once; destruct (error_of r); simpl;
    rewrite !attempts_app; simpl; rewrite ?app_nil_r; reflexivity.
Qed.

(** The loop attempts the batches once each, in list order. *)
Lemma retry_all_attempts bs : forall rs s,
  List.length rs = List.length bs ->
  attempts (trace (retry_all bs rs s)) = attempts (trace s) ++ bs.
Proof.
  induction bs as [|b bs IH]; intros [|r rs] s H; simpl in *;
    try discriminate; auto using app_nil_r.
  rewrite IH, retry_once_attempts, <- app_assoc by lia; reflexivity.
Qed.

Lemma settle_at f r s k :
  k = List.length (pending s) ->
  step entropy (suspend f s) (Settle k r) = resume entropy f r s.
Proof. intros ->; apply settle_last. Qed.

(** The suspended loop, resumed once per remaining batch, is the loop. *)
Lemma sweep_run_at k rest : forall b rs s,
  k = List.length (pending s) ->
  List.length rs = S (List.length rest) ->
  run entropy (retry_send b rest s) (map (Settle k) rs)
  = schedule_retry (retry_all (b :: rest) rs s).
Proof.
  induction rest as [|b' rest IH]; intros b [|r rs] s Hk H; simpl in H;
    try discriminate.
  - destruct rs; [|discriminate].
    unfold retry_send, run; cbn [map fold_left].
    rewrite settle_at by exact Hk; reflexivity.
  - unfold retry_send at 1; unfold run; cbn [map fold_left].
    rewrite settle_at by exact Hk.
    change (resume entropy (RetryAwait b (b' :: rest)) r (snd (sendBatch b false s)))
      with (retry_send b' rest (retry_once b r s)).
    change (fold_left (step entropy) ?l ?x) with (run entropy x l).
    rewrite IH; [reflexivity | | lia].
    rewrite (proj1 (retry_once_unchanged b r s)); exact Hk.
Qed.

Lemma sweep_run rest b rs s :
  List.length rs = S (List.length rest) ->
  run entropy (retry_send b rest s) (map (Settle (List.length (pending s))) rs)
  = schedule_retry (retry_all (b :: rest) rs s).
Proof. apply sweep_run_at; reflexivity. Qed.

End Sweep.

Section SweepFacts.

Variable entropy : Entropy.

Lemma schedule_retry_unchanged s :
  let s' := schedule_retry s in
  failedBatches s' = failedBatches s /\ pending s' = pending s
  /\ storage s' = storage s /\ isOnline s' = isOnline s
  /\ attempts (trace s') = attempts (trace s)
  /\ eventBuffer s' = eventBuffer s /\ config s' = config s.
Proof.
  cbv zeta; unfold schedule_retry.
  destruct (failedBatches s) eqn:E; [repeat (split; [auto|]); auto|].
  destruct (retryTimer s); simpl; rewrite ?attempts_app; simpl;
    rewrite ?attempts_app; simpl; rewrite ?app_nil_r;
    repeat (split; [auto|]); auto.
Qed.

Lemma load_persisted_unchanged s :
  let s' := load_persisted s in
  pending s' = pending s /\ isOnline s' = isOnline s
  /\ attempts (trace s') = attempts (trace s)
  /\ storageFault s' = storageFault s
  /\ (storageFault s <> StorageDenied -> storage s' = None).
Proof.
  cbv zeta; unfold load_persisted.
  destruct (storageFault s) eqn:F, (storage s) eqn:S; simpl;
    rewrite ?attempts_app; simpl; rewrite ?app_nil_r;
    repeat (split; [auto|]); auto; congruence.
Qed.

Lemma batchesToRetry_online s :
  batchesToRetry (set_isOnline true s) = batchesToRetry s.
Proof.
  unfold batchesToRetry, load_persisted; simpl.
  destruct (storageFault s), (storage s); reflexivity.
Qed.

(** What is read from storage comes after the in-memory list. *)
Lemma batchesToRetry_order s :
  batchesToRetry s
  = failedBatches s
    ++ match storageFault s, storage s with
       | StorageDenied, _ | _, None => []
       | _, Some persisted => persisted
       end.
Proof.
  unfold batchesToRetry, load_persisted.
  destruct (storageFault s), (storage s); simpl; auto using app_nil_r.
Qed.

Lemma retryFailedBatches_online s :
  isOnline s = true ->
  retryFailedBatches s
  = match batchesToRetry s with
    | [] => load_persisted s
    | b :: rest => retry_send b rest (set_failedBatches [] (load_persisted s))
    end.
Proof. unfold retryFailedBatches, batchesToRetry; intros ->; reflexivity. Qed.

(** A sweep run to its end, whatever the responses. *)
Lemma sweep_complete s rs :
  isOnline s = true ->
  List.length rs = List.length (batchesToRetry s) ->
  let s' := run entropy (retryFailedBatches s)
              (map (Settle (List.length (pending s))) rs) in
  attempts (trace s') = attempts (trace s) ++ batchesToRetry s
  /\ failedBatches s' = refused (batchesToRetry s) rs
  /\ pending s' = pending s
  /\ isOnline s' = true
  /\ (storageFault s <> StorageDenied -> storage s' = None).
Proof.
  intros Hon Hlen; cbv zeta.
  rewrite retryFailedBatches_online by assumption.
  destruct (load_persisted_unchanged s) as (Lp & Lo & La & Lf & Ls).
  destruct (batchesToRetry s) as [|b rest] eqn:E.
  - destruct rs; [|discriminate]; simpl.
    rewrite app_nil_r. repeat (split; [auto|]); auto. congruence.
  - rewrite <- Lp.
    change (pending (load_persisted s))
      with (pending (set_failedBatches [] (load_persisted s))).
    rewrite sweep_run by (simpl in Hlen; lia).
    match goal with |- context [schedule_retry ?x] =>
      destruct (schedule_retry_unchanged x) as (Sf & Sp & Ss & So & Sa & _)
    end.
    rewrite Sf, Sp, Ss, So, Sa.
    match goal with |- context [retry_all ?bs rs ?x] =>
      destruct (retry_all_unchanged bs rs x) as (Rp & Ro & Rs & _)
    end.
    rewrite Rp, Ro, Rs, retry_all_attempts, retry_all_failedBatches by assumption.
    simpl. rewrite La. repeat (split; [auto|]); auto. congruence.
Qed.

Lemma refused_delivered bs : forall rs,
  Forall delivered rs -> refused bs rs = [].
Proof.
  induction bs as [|b bs IH]; intros rs H; simpl; [reflexivity|].
  destruct H as [|r rs Hr H]; [reflexivity|].
  unfold delivered in Hr; rewrite Hr; auto.
Qed.

Lemma refused_all bs : forall rs,
  List.length rs = List.length bs ->
  Forall (fun r => error_of r <> None) rs -> refused bs rs = bs.
Proof.
  induction bs as [|b bs IH]; intros [|r rs] Hl H; simpl in *;
    try discriminate; [reflexivity|].
  inversion H; subst.
  destruct (error_of r); [|congruence].
  f_equal; apply IH; [lia | assumption].
Qed.

End SweepFacts.

(** ** Offline spill and the sweep at the online signal *)

(** X21.  An offline flush of a non-empty buffer calls no transport, spills
    exactly one batch holding the buffered records (appended to the
    in-memory list and, storage permitting, to the persisted list) and
    leaves the buffer empty.  The online signal sets the batcher online and
    starts a sweep in the same turn: the first entry is sent at once.
    Whatever the responses, the sweep attempts every entry, in-memory ones
    first, and leaves in the in-memory list exactly the entries whose own
    delivery failed; the storage key is removed. *)
Theorem offline_flush_then_online_sweep (entropy : Entropy) (s : State)
    (useBeacon : bool) :
  isOnline s = false ->
  eventBuffer s <> [] ->
  let b := spilled_batch entropy (eventBuffer s) s in
  let s1 := flush entropy useBeacon s in
  transport_calls (trace s1) = transport_calls (trace s)
  /\ events b = eventBuffer s
  /\ failedBatches s1 = failedBatches s ++ [b]
  /\ storage s1 = persisted_after b s
  /\ eventBuffer s1 = []
  /\ pending s1 = pending s
  /\ forall (s2 : State),
       let s3 := step entropy s2 WindowOnline in
       isOnline s3 = true
       /\ incl (failedBatches s2) (batchesToRetry s2)
       /\ (forall b0 rest, batchesToRetry s2 = b0 :: rest ->
             pending s3 = pending s2 ++ [RetryAwait b0 rest]
             /\ attempts (trace s3) = attempts (trace s2) ++ [b0])
       /\ forall (rs : list Response),
            List.length rs = List.length (batchesToRetry s2) ->
            let s4 := run entropy s3 (map (Settle (List.length (pending s2))) rs) in
            attempts (trace s4) = attempts (trace s2) ++ batchesToRetry s2
            /\ failedBatches s4 = refused (batchesToRetry s2) rs
            /\ (storageFault s2 <> StorageDenied -> storage s4 = None)
            /\ pending s4 = pending s2.
Proof.
  intros Hoff Hne b s1; subst b s1.
  rewrite flush_offline by assumption; simpl.
  rewrite store_trace, transport_calls_app, transport_calls_spill_log, app_nil_r.
  rewrite store_failedBatches, store_storage.
  destruct (store_unchanged entropy (eventBuffer s) s) as (_ & _ & Hp & _).
  rewrite Hp.
  repeat (split; [reflexivity|]).
  intros s2.
  assert (Hon : isOnline (set_isOnline true s2) = true) by reflexivity.
  pose proof (batchesToRetry_online s2) as Hb.
  split.
  { rewrite retryFailedBatches_online by assumption; rewrite Hb.
    destruct (load_persisted_unchanged (set_isOnline true s2)) as (_ & Lo & _).
    destruct (batchesToRetry s2); simpl; auto. }
  split.
  { rewrite batchesToRetry_order; apply incl_appl, incl_refl. }
  split.
  { intros b0 rest E.
    rewrite retryFailedBatches_online by assumption; rewrite Hb, E.
    destruct (load_persisted_unchanged (set_isOnline true s2)) as (Lp & _ & La & _).
    simpl; simpl in Lp, La; rewrite Lp, attempts_app, La; auto. }
  intros rs Hlen.
  change (pending s2) with (pending (set_isOnline true s2)).
  destruct (sweep_complete entropy (set_isOnline true s2) rs Hon)
    as (Ha & Hf & Hpe & _ & Hs).
  { rewrite Hb; assumption. }
  rewrite Hb in *.
  rewrite Ha, Hf, Hpe.
  repeat (split; [reflexivity|]). split; [exact Hs | reflexivity].
Qed.

(** ** [maxRetries] is never read *)

Section Retune.

Variable entropy : Entropy.
Variable m : Z.

Lemma retune_store evs s :
  storeFailedBatch entropy evs (retune m s) = retune m (storeFailedBatch entropy evs s).
Proof. unfold storeFailedBatch; simpl; destruct (storageFault s); reflexivity. Qed.

Lemma retune_sendBatch b ub s :
  sendBatch b ub (retune m s)
  = (fst (sendBatch b ub s), retune m (snd (sendBatch b ub s))).
Proof. unfold sendBatch; simpl; destruct ub, (beacon s); reflexivity. Qed.

Lemma retune_flush ub s :
  flush entropy ub (retune m s) = retune m (flush entropy ub s).
Proof.
  unfold flush; simpl.
  destruct (eventBuffer s) eqn:E; [reflexivity|].
  destruct (isOnline s); simpl.
  - change (set_idCalls (S (idCalls s)) (set_eventBuffer [] (retune m s)))
      with (retune m (set_idCalls (S (idCalls s)) (set_eventBuffer [] s))).
    rewrite retune_sendBatch.
    match goal with |- context [sendBatch ?b ub ?x] =>
      destruct (sendBatch b ub x) as [aw s3]
    end; reflexivity.
  - rewrite retune_store; reflexivity.
Qed.

Lemma retune_resume_flush evs o s :
  resume_flush entropy evs o (retune m s) = retune m (resume_flush entropy evs o s).
Proof.
  destruct o as [error|]; simpl; [|reflexivity].
  match goal with |- storeFailedBatch _ _ ?x = retune m (storeFailedBatch _ _ ?y) =>
    change x with (retune m y)
  end.
  apply retune_store.
Qed.

Lemma retune_retry_send b rest s :
  retry_send b rest (retune m s) = retune m (retry_send b rest s).
Proof. reflexivity. Qed.

Lemma retune_schedule_retry s :
  schedule_retry (retune m s) = retune m (schedule_retry s).
Proof.
  unfold schedule_retry; simpl.
  destruct (failedBatches s) eqn:E; [reflexivity|].
  destruct (retryTimer s); simpl; rewrite E; reflexivity.
Qed.

Lemma retune_resume_retry b rest o s :
  resume_retry b rest o (retune m s) = retune m (resume_retry b rest o s).
Proof.
  unfold resume_retry; destruct rest as [|b' rest'], o as [error|];
    first [reflexivity | rewrite <- retune_schedule_retry; reflexivity].
Qed.

Lemma retune_retryFailedBatches s :
  retryFailedBatches (retune m s) = retune m (retryFailedBatches s).
Proof.
  unfold retryFailedBatches, load_persisted; simpl.
  destruct (isOnline s); [|reflexivity].
  destruct (storageFault s), (storage s); simpl;
    match goal with |- context [match ?l with [] => _ | _ :: _ => _ end] =>
      destruct l; reflexivity
    end.
Qed.

Lemma retune_destroy s :
  destroy entropy (retune m s) = retune m (destroy entropy s).
Proof.
  rewrite !destroy_unfold.
  replace (stop_timers (retune m s)) with (retune m (stop_timers s));
    [apply retune_flush|].
  unfold stop_timers; simpl.
  destruct (flushTimer s); simpl; destruct (retryTimer s); reflexivity.
Qed.

(** The transitions commute with a change of [maxRetries]: the value has
    no influence on anything the batcher does. *)
Lemma retune_step s a :
  step entropy (retune m s) a = retune m (step entropy s a).
Proof.
  destruct a; cbn [step].
  - unfold addEvent; simpl. destruct (_ >=? _); [|reflexivity].
    apply (retune_flush false (set_eventBuffer (eventBuffer s ++ [e]) s)).
  - unfold addEvents; simpl. destruct (_ >=? _); [|reflexivity].
    apply (retune_flush false (set_eventBuffer (eventBuffer s ++ evs) s)).
  - apply retune_flush.
  - apply retune_destroy.
  - apply (retune_retryFailedBatches (set_isOnline true s)).
  - reflexivity.
  - apply retune_flush.
  - destruct hidden; [apply retune_flush | reflexivity].
  - change (timer_kind id (retune m s)) with (timer_kind id s).
    destruct (timer_kind id s) as [[|]|];
      [apply retune_flush | apply (retune_retryFailedBatches (disarm id s)) | reflexivity].
  - simpl. destruct (nth_error (pending s) k) as [[evs aw|b rest]|]; simpl.
    + apply (retune_resume_flush evs (outcome aw r)
               (set_pending (remove_nth k (pending s)) s)).
    + apply (retune_resume_retry b rest (outcome InFlight r)
               (set_pending (remove_nth k (pending s)) s)).
    + reflexivity.
  - reflexivity.
  - reflexivity.
  - reflexivity.
Qed.

Lemma retune_run acts : forall s,
  run entropy (retune m s) acts = retune m (run entropy s acts).
Proof.
  induction acts as [|a acts IH]; intros s; simpl; [reflexivity|].
  rewrite retune_step; apply IH.
Qed.

End Retune.

(** ** Scheduling the next sweep *)

Lemma find_after {A : Type} (f : A -> bool) (l : list A) (x : A) :
  Forall (fun y => f y = false) l -> f x = true -> find f (l ++ [x]) = Some x.
Proof.
  induction 1 as [|y l Hy _ IH]; intros Hx; simpl.
  - rewrite Hx; reflexivity.
  - rewrite Hy; auto.
Qed.

Section Backoff.

Variable entropy : Entropy.

(** The armed timers after [schedule_retry] has something to schedule. *)
Lemma schedule_retry_scheduled s :
  failedBatches s <> [] ->
  let s' := schedule_retry s in
  let id := nextTimer s in
  let delay := retryDelay (config s) * Z.min (Z.of_nat (List.length (failedBatches s))) 10 in
  (exists pre, trace s' = pre ++ [SetTimeout id delay])
  /\ retryTimer s' = Some id
  /\ nextTimer s' = S id
  /\ (exists kept, timers s' = kept ++ [(id, RetryTimeout)] /\ incl kept (timers s)).
Proof.
  intros Hne; cbv zeta; unfold schedule_retry.
  destruct (failedBatches s) eqn:E; [congruence|].
  destruct (retryTimer s) as [old|]; simpl; rewrite E; simpl.
  - split; [eexists; reflexivity|]. split; [reflexivity|]. split; [reflexivity|].
    eexists; split; [reflexivity | apply incl_filter].
  - split; [eexists; reflexivity|]. split; [reflexivity|]. split; [reflexivity|].
    eexists; split; [reflexivity | apply incl_refl].
Qed.

Lemma schedule_retry_arms s :
  failedBatches s <> [] ->
  Forall (fun t => (fst t < nextTimer s)%nat) (timers s) ->
  retry_armed (schedule_retry s).
Proof.
  intros Hne Hlt.
  destruct (schedule_retry_scheduled s Hne) as (_ & Hr & Hn & kept & Ht & Hk).
  assert (Hkept : Forall (fun t => (fst t < nextTimer s)%nat) kept).
  { rewrite Forall_forall in *; auto. }
  split.
  - exists (nextTimer s); split; [assumption|].
    unfold timer_kind; rewrite Ht, find_after; simpl; auto using Nat.eqb_refl.
    eapply Forall_impl; [|exact Hkept]; simpl; intros t Hlt'.
    apply Nat.eqb_neq; lia.
  - rewrite Ht, Hn; apply Forall_app; split.
    + eapply Forall_impl; [|exact Hkept]; simpl; intros; lia.
    + constructor; simpl; auto.
Qed.

(** The end of a sweep: the resumption of its last iteration. *)
Lemma sweep_end_schedules s k b r :
  nth_error (pending s) k = Some (RetryAwait b []) ->
  let s' := step entropy s (Settle k r) in
  let n := List.length (failedBatches s') in
  (n <> O ->
     exists pre id,
       trace s' = pre ++ [SetTimeout id (retryDelay (config s) * Z.min (Z.of_nat n) 10)]
       /\ retryTimer s' = Some id
       /\ In (id, RetryTimeout) (timers s'))
  /\ (n = O ->
        trace s' = trace s ++ [OnSuccess (events b)]
        /\ retryTimer s' = retryTimer s /\ timers s' = timers s).
Proof.
  intros Hk; cbv zeta.
  set (s0 := set_pending (remove_nth k (pending s)) s).
  assert (Hstep : step entropy s (Settle k r)
                  = schedule_retry
                      match outcome InFlight r with
                      | None => emit (OnSuccess (events b)) s0
                      | Some error =>
                          let x := emit (OnError error (events b))
                                     (emit (ConsoleError "Failed to retry batch:") s0) in
                          set_failedBatches (failedBatches x ++ [b]) x
                      end).
  { cbn [step]; rewrite Hk; reflexivity. }
  rewrite Hstep; clear Hstep.
  destruct (outcome InFlight r) as [error|]; cbv zeta.
  - match goal with |- context [schedule_retry ?x] => set (s1 := x) end.
    assert (Hne : failedBatches s1 <> []).
    { subst s1; simpl; destruct (failedBatches s); discriminate. }
    destruct (schedule_retry_unchanged s1) as (Hf & _).
    destruct (schedule_retry_scheduled s1 Hne) as ([pre Ht] & Hr & _ & kept & Hti & _).
    rewrite Hf; split.
    + intros _; exists pre, (nextTimer s1); split; [exact Ht|split; [exact Hr|]].
      rewrite Hti; apply in_or_app; right; left; reflexivity.
    + intros Hn; destruct (failedBatches s1); [congruence | discriminate].
  - match goal with |- context [schedule_retry ?x] => set (s1 := x) end.
    destruct (schedule_retry_unchanged s1) as (Hf & _).
    rewrite Hf; split.
    + intros Hn.
      assert (Hne : failedBatches s1 <> []).
      { intros E; rewrite E in Hn; apply Hn; reflexivity. }
      destruct (schedule_retry_scheduled s1 Hne) as ([pre Ht] & Hr & _ & kept & Hti & _).
      exists pre, (nextTimer s1); split; [exact Ht|split; [exact Hr|]].
      rewrite Hti; apply in_or_app; right; left; reflexivity.
    + intros Hn.
      assert (He : failedBatches s1 = []).
      { destruct (failedBatches s1); [reflexivity | discriminate]. }
      unfold schedule_retry; rewrite He; subst s1 s0; simpl; repeat split.
Qed.

End Backoff.

Section Indefinitely.

Variable entropy : Entropy.

Lemma map_repeat {A B : Type} (f : A -> B) (x : A) n :
  map f (repeat x n) = repeat (f x) n.
Proof. induction n; simpl; congruence. Qed.

Lemma load_persisted_timers s :
  timers (load_persisted s) = timers s
  /\ nextTimer (load_persisted s) = nextTimer s
  /\ retryTimer (load_persisted s) = retryTimer s.
Proof.
  unfold load_persisted; destruct (storageFault s), (storage s); repeat split.
Qed.

Lemma schedule_retry_fault s :
  storageFault (schedule_retry s) = storageFault s.
Proof.
  unfold schedule_retry; destruct (failedBatches s); [reflexivity|].
  destruct (retryTimer s); reflexivity.
Qed.

Lemma batchesToRetry_disarm id s :
  batchesToRetry (disarm id s) = batchesToRetry s.
Proof.
  unfold batchesToRetry, load_persisted; simpl.
  destruct (storageFault s), (storage s); reflexivity.
Qed.

(** One timer-fired sweep on a batcher with nothing else suspended, every
    delivery failing: all batches are attempted and queued again, and the
    next sweep is scheduled. *)
Lemma timed_sweep_round r s :
  isOnline s = true -> pending s = [] -> batchesToRetry s <> [] ->
  retry_armed s -> error_of r <> None ->
  let s' := timed_sweep entropy r s in
  isOnline s' = true /\ pending s' = [] /\ retry_armed s'
  /\ batchesToRetry s' = batchesToRetry s
  /\ failedBatches s' = batchesToRetry s
  /\ attempts (trace s') = attempts (trace s) ++ batchesToRetry s.
Proof.
  intros Hon Hp Hne [(id & Hr & Hk) Hlt] Hfail; cbv zeta.
  set (sd := disarm id s).
  set (rs := repeat r (List.length (batchesToRetry s))).
  assert (Hrun : timed_sweep entropy r s
                 = run entropy (retryFailedBatches sd)
                     (map (Settle (List.length (pending sd))) rs)).
  { unfold timed_sweep; rewrite Hr.
    unfold run; cbn [fold_left step]; rewrite Hk.
    subst rs sd; simpl pending; rewrite Hp, map_repeat; reflexivity. }
  assert (Hbs : batchesToRetry sd = batchesToRetry s) by apply batchesToRetry_disarm.
  assert (Hlen : List.length rs = List.length (batchesToRetry sd)).
  { subst rs; rewrite Hbs, repeat_length; reflexivity. }
  assert (Hall : Forall (fun r0 => error_of r0 <> None) rs).
  { subst rs; apply Forall_forall; intros x Hx.
    apply repeat_spec in Hx; subst x; assumption. }
  assert (Hex : exists X,
    timed_sweep entropy r s = schedule_retry X
    /\ failedBatches X = batchesToRetry s
    /\ timers X = timers sd /\ nextTimer X = nextTimer sd
    /\ storageFault X = storageFault s).
  { rewrite Hrun, retryFailedBatches_online by exact Hon.
    destruct (batchesToRetry sd) as [|b rest] eqn:E; [congruence|].
    destruct (load_persisted_unchanged sd) as (Lp & _ & _ & Lf & _).
    destruct (load_persisted_timers sd) as (Lt & Ln & _).
    rewrite <- Lp.
    change (pending (load_persisted sd))
      with (pending (set_failedBatches [] (load_persisted sd))).
    rewrite sweep_run by (simpl in Hlen; lia).
    eexists; split; [reflexivity|].
    match goal with |- context [retry_all ?bs rs ?x] =>
      destruct (retry_all_unchanged bs rs x) as (_&_&_&Rf&_&_&Rt&Rn&_)
    end.
    rewrite retry_all_failedBatches, refused_all, Rt, Rn, Rf by assumption.
    simpl; rewrite <- Hbs, Lt, Ln, Lf; repeat split. }
  destruct Hex as (X & HX & Xf & Xt & Xn & Xs).
  assert (XneX : failedBatches X <> []) by (rewrite Xf; assumption).
  assert (Harm : retry_armed (schedule_retry X)).
  { apply schedule_retry_arms; [assumption|].
    rewrite Xt, Xn; subst sd; simpl; apply Forall_filter_keep; assumption. }
  destruct (sweep_complete entropy sd rs Hon Hlen) as (Sa & Sf & Sp & So & Ss).
  rewrite <- Hrun in Sa, Sf, Sp, So, Ss.
  rewrite Hbs in Sa, Sf.
  rewrite refused_all in Sf by (try assumption; rewrite <- Hbs; assumption).
  split; [assumption|]. split; [rewrite Sp; assumption|].
  split; [rewrite HX; assumption|].
  split; [|split; [assumption | exact Sa]].
  rewrite batchesToRetry_order, Sf.
  assert (Hsf : storageFault (timed_sweep entropy r s) = storageFault s).
  { rewrite HX, schedule_retry_fault; assumption. }
  rewrite Hsf.
  destruct (storageFault s) eqn:F; try rewrite Ss by (simpl; congruence);
    auto using app_nil_r.
Qed.

(** Any number of failing sweeps in a row. *)
Lemma timed_sweeps_forever r n : forall s,
  isOnline s = true -> pending s = [] -> batchesToRetry s <> [] ->
  retry_armed s -> error_of r <> None ->
  let s' := Nat.iter n (timed_sweep entropy r) s in
  isOnline s' = true /\ pending s' = [] /\ retry_armed s'
  /\ batchesToRetry s' = batchesToRetry s
  /\ attempts (trace s')
     = attempts (trace s) ++ List.concat (repeat (batchesToRetry s) n).
Proof.
  induction n as [|n IH]; intros s Hon Hp Hne Harm Hfail; cbv zeta.
  - simpl; rewrite app_nil_r.
    repeat (split; [assumption|]); split; reflexivity.
  - simpl Nat.iter.
    destruct (IH s Hon Hp Hne Harm Hfail) as (Ion & Ip & Iarm & Ib & Ia).
    destruct (timed_sweep_round r (Nat.iter n (timed_sweep entropy r) s))
      as (Ron & Rp & Rarm & Rb & _ & Ra); try assumption.
    { rewrite Ib; assumption. }
    repeat (split; [assumption|]).
    split; [congruence|].
    rewrite Ra, Ia, Ib, <- app_assoc; f_equal.
    clear; induction n; simpl; rewrite ?app_nil_r; [reflexivity|].
    rewrite <- app_assoc; f_equal; assumption.
Qed.

End Indefinitely.

(** C7.  When the last iteration of a sweep resumes and [n > 0] batches are
    in the failed list, a timeout is set whose delay is exactly
    [retryDelay * min n 10] and it becomes the retry timer.  [maxRetries]
    is never consulted: changing it changes no transition.  No retry count
    exists: on a batcher with the retry timer armed, any number of sweeps
    that all fail attempts every batch in every sweep, keeps them queued and
    arms the timer again. *)
Theorem retry_backoff_without_cap (entropy : Entropy) :
  (forall (s : State) (k : nat) (b : EventBatch) (r : Response),
     nth_error (pending s) k = Some (RetryAwait b []) ->
     let s' := step entropy s (Settle k r) in
     let n := List.length (failedBatches s') in
     n <> O ->
     exists pre id,
       trace s' = pre ++ [SetTimeout id (retryDelay (config s) * Z.min (Z.of_nat n) 10)]
       /\ retryTimer s' = Some id
       /\ In (id, RetryTimeout) (timers s'))
  /\ (forall (m : Z) (s : State) (acts : list Action),
        run entropy (retune m s) acts = retune m (run entropy s acts))
  /\ (forall (s : State) (r : Response) (n : nat),
        isOnline s = true -> pending s = [] -> batchesToRetry s <> [] ->
        retry_armed s -> error_of r <> None ->
        let s' := Nat.iter n (timed_sweep entropy r) s in
        retry_armed s'
        /\ batchesToRetry s' = batchesToRetry s
        /\ attempts (trace s')
           = attempts (trace s) ++ List.concat (repeat (batchesToRetry s) n)).
Proof.
  split; [|split].
  - intros s k b r Hk s' n Hn.
    exact (proj1 (sweep_end_schedules entropy s k b r Hk) Hn).
  - intros m s acts; apply retune_run.
  - intros s r n Hon Hp Hne Harm Hfail.
    destruct (timed_sweeps_forever entropy r n s Hon Hp Hne Harm Hfail)
      as (_ & _ & H1 & H2 & H3).
    split; [assumption | split; assumption].
Qed.

(** ** Batch identity *)

(** X22.  A flush of a non-empty buffer builds one envelope for the
    drained records, with one identifier generated at that moment: online
    it is the envelope whose delivery is attempted, offline it is the entry
    spilled.  When the delivery of an online flush fails, the entry spilled
    is built at that moment by [storeFailedBatch]: it holds the same records
    in the same order, its identifier is the result of one more call of
    [generateEventId] and its timestamp is the current time.  A spilled
    entry whose retry fails is put back as it is, identifier included. *)
Theorem spill_builds_new_envelope (entropy : Entropy) (s : State) (useBeacon : bool) :
  isOnline s = true ->
  eventBuffer s <> [] ->
  let evs := eventBuffer s in
  let envelope := flushed_batch entropy s in
  let s1 := flush entropy useBeacon s in
  attempts (trace s1) = attempts (trace s) ++ [envelope]
  /\ idCalls s1 = S (idCalls s)
  /\ failedBatches s1 = failedBatches s
  /\ pending s1 = pending s ++ [FlushAwait evs (awaited s useBeacon)]
  /\ (forall (s2 : State) (k : nat) (r : Response) (error : Error),
        nth_error (pending s2) k = Some (FlushAwait evs InFlight) ->
        error_of r = Some error ->
        let spilled := spilled_batch entropy evs s2 in
        let s3 := step entropy s2 (Settle k r) in
        failedBatches s3 = failedBatches s2 ++ [spilled]
        /\ idCalls s3 = S (idCalls s2)
        /\ events spilled = events envelope
        /\ batch_id spilled
           = Helpers.generateEventId (clock s2)
               (randomPart entropy (idCalls s2)) (counterPart entropy (idCalls s2))
        /\ batch_timestamp spilled = clock s2)
  /\ (forall (s2 : State) (k : nat) (b : EventBatch) (rest : list EventBatch)
             (r : Response) (error : Error),
        nth_error (pending s2) k = Some (RetryAwait b rest) ->
        error_of r = Some error ->
        let s3 := step entropy s2 (Settle k r) in
        failedBatches s3 = failedBatches s2 ++ [b]
        /\ idCalls s3 = idCalls s2)
  /\ (forall (s0 : State) (urgent : bool),
        isOnline s0 = false ->
        eventBuffer s0 <> [] ->
        let s' := flush entropy urgent s0 in
        failedBatches s' = failedBatches s0 ++ [spilled_batch entropy (eventBuffer s0) s0]
        /\ idCalls s' = S (idCalls s0)
        /\ attempts (trace s') = attempts (trace s0)).
Proof.
  intros Hon Hne evs envelope s1; subst evs envelope s1.
  split; [apply flush_online_attempt; assumption|].
  rewrite flush_online by assumption.
  do 3 (split; [reflexivity|]). split; [|split].
  - intros s2 k r error Hk Hr; cbn [step]; rewrite Hk.
    unfold error_of in Hr; cbn [resume]; rewrite Hr; simpl.
    rewrite store_failedBatches.
    match goal with |- context [idCalls (storeFailedBatch entropy ?e ?x)] =>
      destruct (store_unchanged entropy e x) as (_&_&_&_&_&_&_&_&_&_&_&Hid)
    end.
    rewrite Hid; repeat split.
  - intros s2 k b rest r error Hk Hr; cbn [step]; rewrite Hk.
    unfold error_of in Hr; cbn [resume]; rewrite Hr.
    unfold resume_retry; destruct rest as [|b' rest'].
    + match goal with |- context [schedule_retry ?x] =>
        rewrite (proj1 (schedule_retry_unchanged x))
      end.
      split; [reflexivity|].
      unfold schedule_retry; simpl.
      destruct (failedBatches s2 ++ [b]); [reflexivity|].
      destruct (retryTimer s2); reflexivity.
    + split; reflexivity.
  - intros s0 urgent Hoff0 Hne0; cbv zeta.
    rewrite flush_offline by assumption; simpl.
    rewrite store_failedBatches, store_trace, attempts_app, attempts_spill_log, app_nil_r.
    destruct (store_unchanged entropy (eventBuffer s0) s0) as (_&_&_&_&_&_&_&_&_&_&_&Hid).
    rewrite Hid; repeat split.
Qed.

(** ** Construction *)

(** *** Every exception is caught *)

(** The methods with their exceptions written out complete normally, in
    the state the methods above compute: each [throw], each rejected
    [fetch] and each failing [localStorage] call sits in a [try] block
    whose [catch] block returns. *)
Section Caught.

Variable entropy : Entropy.
Variable E : Type.

Lemma bind_read {A B : Type} (f : State -> A) (k : A -> M E B) s :
  Raising.bind (Raising.read f) k s = k (f s) s.
Proof. reflexivity. Qed.

Lemma bind_update {B : Type} (f : State -> State) (k : unit -> M E B) s :
  Raising.bind (Raising.update f) k s = k tt (f s).
Proof. reflexivity. Qed.

Lemma bind_ret {A B : Type} (a : A) (k : A -> M E B) s :
  Raising.bind (Raising.ret a) k s = k a s.
Proof. reflexivity. Qed.

Ltac mstep :=
  repeat (first [rewrite bind_read | rewrite bind_update | rewrite bind_ret];
          cbv beta).

Ltac run_monad :=
  cbv beta iota delta [Raising.bind Raising.ret Raising.read Raising.update
                       Raising.throw Raising.try_catch].

Lemma sendBatch_returns b ub s :
  Raising.sendBatch (E:=E) b ub s
  = Returns (fst (sendBatch b ub s)) (snd (sendBatch b ub s)).
Proof.
  unfold Raising.sendBatch, sendBatch; run_monad.
  destruct ub; [destruct (beacon s)|]; reflexivity.
Qed.

(** The awaited [sendBatch] throws exactly the error of [outcome]. *)
Lemma sendBatch_settles_outcome aw r s :
  Raising.sendBatch_settles aw r s
  = match outcome aw r with
    | None => Returns tt s
    | Some error => Throws error s
    end.
Proof.
  unfold Raising.sendBatch_settles, Raising.await_fetch, outcome.
  destruct aw; [reflexivity|].
  destruct r as [m|st]; run_monad; [reflexivity|].
  destruct (response_ok st); reflexivity.
Qed.

Lemma storeFailedBatch_returns evs s :
  Raising.storeFailedBatch (E:=E) entropy evs s
  = Returns tt (storeFailedBatch entropy evs s).
Proof.
  unfold Raising.storeFailedBatch, storeFailedBatch, Raising.generateEventId,
    generateEventId, Raising.localStorage_getItem, Raising.localStorage_setItem;
    run_monad.
  assert (H : forall l n, storageFault (set_failedBatches l (set_idCalls n s))
                          = storageFault s) by reflexivity.
  rewrite !H.
  destruct (storageFault s) eqn:F; cbv beta iota; rewrite ?H, ?F; reflexivity.
Qed.

Lemma flush_returns ub s :
  Raising.flush (E:=E) entropy ub s = Returns tt (flush entropy ub s).
Proof.
  unfold Raising.flush, flush.
  unfold Raising.bind at 1, Raising.read at 1.
  destruct (eventBuffer s) as [|e es] eqn:Hb; [reflexivity|].
  unfold Raising.bind at 1, Raising.read at 1.
  destruct (isOnline s); cbn [negb].
  - unfold Raising.generateEventId, generateEventId; run_monad.
    rewrite sendBatch_returns.
    destruct (sendBatch _ _ _); reflexivity.
  - unfold Raising.bind at 1. rewrite storeFailedBatch_returns.
    reflexivity.
Qed.

Lemma resume_flush_returns evs aw r s :
  Raising.resume_flush (E:=E) entropy evs aw r s
  = Returns tt (resume_flush entropy evs (outcome aw r) s).
Proof.
  unfold Raising.resume_flush, resume_flush.
  unfold Raising.try_catch, Raising.bind at 1.
  rewrite sendBatch_settles_outcome.
  destruct (outcome aw r) as [error|]; [|reflexivity].
  run_monad. apply storeFailedBatch_returns.
Qed.

Lemma retry_send_returns b rest s :
  Raising.retry_send (E:=E) b rest s = Returns tt (retry_send b rest s).
Proof.
  unfold Raising.retry_send, retry_send, Raising.bind.
  rewrite sendBatch_returns; reflexivity.
Qed.

Lemma load_persisted_returns s :
  Raising.load_persisted (E:=E) s = Returns tt (load_persisted s).
Proof.
  unfold Raising.load_persisted, load_persisted, Raising.localStorage_getItem,
    Raising.localStorage_removeItem; run_monad.
  destruct (storageFault s) eqn:F; [| |reflexivity];
    (destruct (storage s) as [batches|]; [|reflexivity]);
    cbv beta iota;
    change (storageFault (set_failedBatches (failedBatches s ++ batches) s))
      with (storageFault s);
    rewrite F; reflexivity.
Qed.

Lemma retryFailedBatches_returns s :
  Raising.retryFailedBatches (E:=E) s = Returns tt (retryFailedBatches s).
Proof.
  unfold Raising.retryFailedBatches, retryFailedBatches.
  unfold Raising.bind at 1, Raising.read at 1.
  destruct (isOnline s); cbn [negb]; [|reflexivity].
  unfold Raising.bind at 1; rewrite load_persisted_returns.
  unfold Raising.bind at 1, Raising.read at 1.
  destruct (failedBatches (load_persisted s)) as [|batch rest]; [reflexivity|].
  unfold Raising.bind at 1, Raising.update at 1.
  apply retry_send_returns.
Qed.

Lemma resume_retry_returns b rest r s :
  Raising.resume_retry (E:=E) b rest r s
  = Returns tt (resume_retry b rest (outcome InFlight r) s).
Proof.
  unfold Raising.resume_retry, resume_retry.
  unfold Raising.bind at 1, Raising.try_catch, Raising.bind at 1.
  rewrite sendBatch_settles_outcome.
  destruct (outcome InFlight r) as [error|]; run_monad;
    (destruct rest as [|next rest']; [reflexivity | apply retry_send_returns]).
Qed.

Lemma addEvent_returns e s :
  Raising.addEvent (E:=E) entropy e s = Returns tt (addEvent entropy e s).
Proof.
  unfold Raising.addEvent, addEvent; mstep.
  destruct (_ >=? _); [apply flush_returns | reflexivity].
Qed.

Lemma addEvents_returns evs s :
  Raising.addEvents (E:=E) entropy evs s = Returns tt (addEvents entropy evs s).
Proof.
  unfold Raising.addEvents, addEvents; mstep.
  destruct (_ >=? _); [apply flush_returns | reflexivity].
Qed.

Lemma destroy_returns s :
  Raising.destroy (E:=E) entropy s = Returns tt (destroy entropy s).
Proof.
  unfold Raising.destroy, destroy; mstep.
  destruct (flushTimer s) as [id|]; mstep;
    (match goal with |- context [retryTimer ?x] => destruct (retryTimer x) end);
    mstep; apply flush_returns.
Qed.

Lemma step_returns a s :
  Raising.step (E:=E) entropy a s = Returns tt (step entropy s a).
Proof.
  destruct a; cbn [Raising.step step].
  - apply addEvent_returns.
  - apply addEvents_returns.
  - apply flush_returns.
  - apply destroy_returns.
  - mstep; apply retryFailedBatches_returns.
  - reflexivity.
  - apply flush_returns.
  - destruct hidden; [apply flush_returns | reflexivity].
  - mstep.
    destruct (timer_kind id s) as [[|]|]; [apply flush_returns | | reflexivity].
    mstep; apply retryFailedBatches_returns.
  - mstep.
    destruct (nth_error (pending s) k) as [[evs aw|b rest]|]; [| |reflexivity];
      mstep; unfold resume.
    + apply resume_flush_returns.
    + apply resume_retry_returns.
  - reflexivity.
  - reflexivity.
  - reflexivity.
Qed.

Lemma run_returns acts : forall s,
  Raising.run (E:=E) entropy acts s = Returns tt (run entropy s acts).
Proof.
  induction acts as [|a acts IH]; intros s; [reflexivity|].
  cbn [Raising.run]; unfold Raising.bind.
  rewrite step_returns; apply IH.
Qed.

End Caught.


(** ** The sweep on a concrete page *)

(** C3, evaluated.  A page holds one batch persisted by an earlier session.
    The batcher goes offline, one record is enqueued and flushed (the batch
    goes to the in-memory list and to storage, behind the older one), and
    the online signal starts a sweep.  The sweep sends the new batch, then
    the older one, then the new batch a second time. *)
Theorem sweep_repeats_persisted_batch :
  exists spilled : EventBatch,
    failedBatches Sample.spilled_offline = [spilled]
    /\ storage Sample.spilled_offline = Some [Sample.old_batch; spilled]
    /\ batchesToRetry Sample.spilled_offline = [spilled; Sample.old_batch; spilled]
    /\ attempts (trace Sample.swept)
       = attempts (trace Sample.spilled_offline)
         ++ [spilled; Sample.old_batch; spilled]
    /\ failedBatches Sample.swept = [] /\ storage Sample.swept = None.
Proof. eexists; vm_compute; repeat split. Qed.

(** C2, evaluated.  On a fresh page the batcher goes offline, one record is
    enqueued and flushed: no transport is called, one batch holding the
    record is spilled (in memory and under the storage key) and the buffer
    is empty.  The online signal starts a sweep at once.  The sweep finds
    the batch twice, in memory and in storage; its first delivery is
    answered 200 and [onSuccess] is called with the record, its second 503:
    the delivered batch is back in the spill store and a retry is armed. *)
Theorem delivered_batch_stays_spilled :
  exists spilled : EventBatch,
    isOnline Sample.offline_buffered = false
    /\ eventBuffer Sample.offline_buffered = [Sample.ev 1]
    /\ transport_calls (trace Sample.offline_spill) = []
    /\ failedBatches Sample.offline_spill = [spilled]
    /\ storage Sample.offline_spill = Some [spilled]
    /\ events spilled = [Sample.ev 1]
    /\ eventBuffer Sample.offline_spill = []
    /\ attempts (trace (step Sample.entropy Sample.offline_spill WindowOnline))
       = [spilled]
    /\ attempts (trace Sample.half_delivered) = [spilled; spilled]
    /\ callbacks (trace Sample.half_delivered)
       = [OnSuccess [Sample.ev 1]; OnError (HttpError 503) [Sample.ev 1]]
    /\ failedBatches Sample.half_delivered = [spilled]
    /\ storage Sample.half_delivered = None
    /\ pending Sample.half_delivered = []
    /\ retryTimer Sample.half_delivered = Some 2%nat
    /\ timer_kind 2%nat Sample.half_delivered = Some RetryTimeout.
Proof. eexists; vm_compute; repeat split. Qed.

(** C8, evaluated.  One record is enqueued and flushed online and the
    delivery is answered 503.  The envelope whose delivery was attempted and
    the entry handed to the spill store hold the same records, but the entry
    has another identifier: [flush] passes the records, not the envelope, to
    [storeFailedBatch], which generates an identifier of its own.  The sweep
    that fails afterwards puts the entry back as it is. *)
Theorem spill_changes_identity :
  exists envelope spilled : EventBatch,
    attempts (trace Sample.flushing) = [envelope]
    /\ attempts (trace Sample.failed_flush) = [envelope]
    /\ failedBatches Sample.failed_flush = [spilled]
    /\ storage Sample.failed_flush = Some [spilled]
    /\ events spilled = events envelope
    /\ batch_id envelope = "loyw3v28-1000-1z4k"%string
    /\ batch_id spilled = "loyw3v28-1001-1z4k"%string
    /\ batch_id spilled <> batch_id envelope
    /\ failedBatches Sample.stuck = [spilled; spilled].
Proof.
  do 2 eexists; vm_compute.
  repeat (split; [reflexivity|]).
  split; [discriminate | reflexivity].
Qed.

(** ** Instances *)

Lemma drain_is_atomic_witness :
  no_sweep (Sample.start 3)
  /\ forallb enqueue_or_flush Sample.reentrant = true
  /\ conserved (Sample.start 3)
       (run Sample.entropy (Sample.start 3) Sample.reentrant)
       (flat_map enqueued Sample.reentrant).
Proof.
  assert (H1 : no_sweep (Sample.start 3)).
  { split; [constructor | repeat constructor]. }
  assert (H2 : isOnline (Sample.start 3) = false -> pending (Sample.start 3) = []).
  { intros _; reflexivity. }
  assert (H3 : forallb enqueue_or_flush Sample.reentrant = true) by reflexivity.
  split; [exact H1 | split; [exact H3|]].
  exact (proj1 (drain_is_atomic Sample.entropy (Sample.start 3) Sample.reentrant H1 H2 H3)).
Defined.

Lemma offline_flush_then_online_sweep_witness :
  isOnline Sample.offline_buffered = false
  /\ eventBuffer Sample.offline_buffered <> []
  /\ transport_calls (trace (flush Sample.entropy false Sample.offline_buffered))
     = transport_calls (trace Sample.offline_buffered).
Proof.
  assert (H1 : isOnline Sample.offline_buffered = false) by reflexivity.
  assert (H2 : eventBuffer Sample.offline_buffered <> []) by (vm_compute; discriminate).
  split; [exact H1 | split; [exact H2|]].
  exact (proj1 (offline_flush_then_online_sweep Sample.entropy Sample.offline_buffered
                  false H1 H2)).
Defined.

Lemma urgent_flush_falls_back_to_fetch_witness :
  isOnline Sample.beacon_refusing = true
  /\ eventBuffer Sample.beacon_refusing <> []
  /\ beacon Sample.beacon_refusing = BeaconRefuses
  /\ trace (flush Sample.entropy true Sample.beacon_refusing)
     = trace Sample.beacon_refusing
       ++ [SendBeacon Sample.url
             (JSON_stringify (flushed_batch Sample.entropy Sample.beacon_refusing)) false;
           Fetch Sample.url (request_headers (config Sample.beacon_refusing))
             (JSON_stringify (flushed_batch Sample.entropy Sample.beacon_refusing))].
Proof.
  assert (H1 : isOnline Sample.beacon_refusing = true) by reflexivity.
  assert (H2 : eventBuffer Sample.beacon_refusing <> []) by (vm_compute; discriminate).
  assert (H3 : beacon Sample.beacon_refusing = BeaconRefuses) by reflexivity.
  split; [exact H1 | split; [exact H2 | split; [exact H3|]]].
  exact (proj1 (urgent_flush_falls_back_to_fetch Sample.entropy Sample.beacon_refusing
                  H1 H2 H3)).
Defined.

Lemma standard_delivery_outcome_witness :
  isOnline Sample.one_buffered = true
  /\ eventBuffer Sample.one_buffered <> []
  /\ uses_fetch Sample.one_buffered false = true
  /\ pending (flush Sample.entropy false Sample.one_buffered)
     = pending Sample.one_buffered
       ++ [FlushAwait (eventBuffer Sample.one_buffered) InFlight].
Proof.
  assert (H1 : isOnline Sample.one_buffered = true) by reflexivity.
  assert (H2 : eventBuffer Sample.one_buffered <> []) by (vm_compute; discriminate).
  assert (H3 : uses_fetch Sample.one_buffered false = true) by reflexivity.
  split; [exact H1 | split; [exact H2 | split; [exact H3|]]].
  exact (proj1 (standard_delivery_outcome Sample.entropy Sample.one_buffered false
                  H1 H2 H3)).
Defined.

Lemma threshold_flush_online_witness :
  isOnline (Sample.start 3) = true
  /\ eventBuffer (Sample.start 3) = []
  /\ Z.of_nat (List.length ([Sample.ev 1; Sample.ev 2] ++ [Sample.ev 3]))
     = batchSize (config (Sample.start 3))
  /\ threshold_flush Sample.entropy (Sample.start 3)
       [Sample.ev 1; Sample.ev 2] (Sample.ev 3).
Proof.
  assert (H1 : isOnline (Sample.start 3) = true) by reflexivity.
  assert (H2 : eventBuffer (Sample.start 3) = []) by reflexivity.
  assert (H3 : Z.of_nat (List.length ([Sample.ev 1; Sample.ev 2] ++ [Sample.ev 3]))
               = batchSize (config (Sample.start 3))) by reflexivity.
  split; [exact H1 | split; [exact H2 | split; [exact H3|]]].
  exact (proj1 (threshold_flush_online Sample.entropy (Sample.start 3)
                  [Sample.ev 1; Sample.ev 2] (Sample.ev 3) H1 H2 H3)).
Defined.

(** Counterexample to C6 as stated, on an offline batcher of batch size 3: the third
    [addEvent] empties the buffer into the spill store and no delivery is
    attempted. *)
Lemma threshold_flush_fails_offline :
  let s := step Sample.entropy (Sample.start 3) WindowOffline in
  let s3 := run Sample.entropy s
              (map CallAddEvent [Sample.ev 1; Sample.ev 2; Sample.ev 3]) in
  eventBuffer s = []
  /\ batchSize (config s) = 3
  /\ attempts (trace s3) = attempts (trace s)
  /\ transport_calls (trace s3) = []
  /\ eventBuffer s3 = []
  /\ records (failedBatches s3) = [Sample.ev 1; Sample.ev 2; Sample.ev 3]
  /\ ~ threshold_flush Sample.entropy s [Sample.ev 1; Sample.ev 2] (Sample.ev 3).
Proof.
  cbv zeta; repeat (split; [vm_compute; reflexivity|]).
  intros (_ & _ & (b & H & _) & _).
  vm_compute in H; discriminate H.
Qed.

Lemma retry_backoff_without_cap_witness :
  isOnline Sample.stuck = true
  /\ pending Sample.stuck = []
  /\ error_of Sample.unavailable <> None
  /\ batchesToRetry (Nat.iter 3 (timed_sweep Sample.entropy Sample.unavailable) Sample.stuck)
     = batchesToRetry Sample.stuck.
Proof.
  assert (H1 : isOnline Sample.stuck = true) by reflexivity.
  assert (H2 : pending Sample.stuck = []) by reflexivity.
  assert (H3 : batchesToRetry Sample.stuck <> []) by (vm_compute; discriminate).
  assert (H4 : retry_armed Sample.stuck).
  { split.
    - exists 2%nat; split; vm_compute; reflexivity.
    - assert (Ht : timers Sample.stuck = [(1%nat, FlushInterval); (2%nat, RetryTimeout)])
        by (vm_compute; reflexivity).
      assert (Hn : nextTimer Sample.stuck = 3%nat) by (vm_compute; reflexivity).
      rewrite Ht, Hn.
      constructor; [simpl; lia|]. constructor; [simpl; lia|]. constructor. }
  assert (H5 : error_of Sample.unavailable <> None) by (vm_compute; discriminate).
  split; [exact H1 | split; [exact H2 | split; [exact H5|]]].
  exact (proj1 (proj2 (proj2 (proj2 (retry_backoff_without_cap Sample.entropy))
                         Sample.stuck Sample.unavailable 3%nat H1 H2 H3 H4 H5))).
Defined.

Lemma spill_builds_new_envelope_witness :
  isOnline Sample.one_buffered = true
  /\ eventBuffer Sample.one_buffered <> []
  /\ attempts (trace (flush Sample.entropy false Sample.one_buffered))
     = attempts (trace Sample.one_buffered)
       ++ [flushed_batch Sample.entropy Sample.one_buffered].
Proof.
  assert (H1 : isOnline Sample.one_buffered = true) by reflexivity.
  assert (H2 : eventBuffer Sample.one_buffered <> []) by (vm_compute; discriminate).
  split; [exact H1 | split; [exact H2|]].
  exact (proj1 (spill_builds_new_envelope Sample.entropy Sample.one_buffered false H1 H2)).
Defined.



Lemma offline_flush_is_silent_witness :
  isOnline Sample.offline_buffered = false
  /\ eventBuffer Sample.offline_buffered <> []
  /\ callbacks (trace (flush Sample.entropy false Sample.offline_buffered))
     = callbacks (trace Sample.offline_buffered).
Proof.
  assert (H1 : isOnline Sample.offline_buffered = false) by reflexivity.
  assert (H2 : eventBuffer Sample.offline_buffered <> []) by (vm_compute; discriminate).
  split; [exact H1 | split; [exact H2|]].
  exact (proj1 (offline_flush_is_silent Sample.entropy Sample.offline_buffered false H1 H2)).
Defined.

(** * Further properties of the batcher, its helper and its caller *)

(** ** What each method leaves alone *)

Section Untouched.

Variable entropy : Entropy.

Lemma flush_untouched ub s :
  let s' := flush entropy ub s in
  config s' = config s /\ isOnline s' = isOnline s
  /\ flushTimer s' = flushTimer s /\ retryTimer s' = retryTimer s
  /\ timers s' = timers s /\ nextTimer s' = nextTimer s
  /\ storageFault s' = storageFault s.
Proof.
  cbv zeta; destruct (eventBuffer s) eqn:E.
  - rewrite flush_empty by assumption; repeat (split; [reflexivity|]); reflexivity.
  - destruct (isOnline s) eqn:O.
    + rewrite flush_online by congruence; simpl.
      repeat (split; [auto|]); auto.
    + rewrite flush_offline by congruence; simpl.
      destruct (store_unchanged entropy (eventBuffer s) s)
        as (_ & Ho & _ & Hc & Hr & Ht & Hn & Hf & _ & _ & Hft & _).
      rewrite Ho, Hc, Hr, Ht, Hn, Hf, Hft.
      repeat (split; [auto|]); auto.
Qed.

Lemma resume_flush_untouched evs o s :
  let s' := resume_flush entropy evs o s in
  config s' = config s /\ isOnline s' = isOnline s
  /\ flushTimer s' = flushTimer s /\ retryTimer s' = retryTimer s
  /\ timers s' = timers s /\ nextTimer s' = nextTimer s
  /\ eventBuffer s' = eventBuffer s /\ pending s' = pending s.
Proof.
  cbv zeta; destruct o as [error|]; simpl.
  - match goal with |- context [storeFailedBatch entropy evs ?x] =>
      destruct (store_unchanged entropy evs x)
        as (Hb & Ho & Hp & Hc & Hr & Ht & Hn & _ & _ & _ & Hft & _)
    end.
    rewrite Hb, Ho, Hp, Hc, Hr, Ht, Hn, Hft.
    repeat (split; [reflexivity|]); reflexivity.
  - repeat (split; [reflexivity|]); reflexivity.
Qed.

End Untouched.

(** ** The spill store *)

(** X1.  With a working [localStorage], [storeFailedBatch] leaves under the
    key the newest entries only: the new batch last, before it a suffix of
    what was there, at most 100 entries in all, and nothing is dropped while
    fewer than 100 were stored.  The in-memory list is not capped: it grows
    by the new batch even when storage drops its oldest entry. *)
Theorem spill_cap_keeps_newest (entropy : Entropy)
    (evs : list ObservabilityEvent) (s : State) :
  storageFault s = StorageOk ->
  let b := spilled_batch entropy evs s in
  let old := match storage s with Some l => l | None => [] end in
  let s' := storeFailedBatch entropy evs s in
  failedBatches s' = failedBatches s ++ [b]
  /\ exists dropped kept,
       old = dropped ++ kept
       /\ storage s' = Some (kept ++ [b])
       /\ List.length (kept ++ [b]) = Nat.min (S (List.length old)) SPILL_CAP
       /\ ((List.length old < SPILL_CAP)%nat -> dropped = []).
Proof.
  intros Hok b old s'; subst s'.
  split; [apply store_failedBatches|].
  rewrite store_storage; unfold persisted_after; rewrite Hok.
  fold old; fold b; unfold slice_last.
  set (d := (List.length (old ++ [b]) - SPILL_CAP)%nat).
  assert (Hd : (d <= List.length old)%nat).
  { subst d; rewrite length_app; unfold SPILL_CAP; simpl; lia. }
  exists (firstn d old), (skipn d old).
  split; [symmetry; apply firstn_skipn|].
  split.
  { rewrite skipn_app.
    replace (d - List.length old)%nat with O by lia; reflexivity. }
  split.
  { rewrite length_app, length_skipn; subst d; rewrite length_app.
    unfold SPILL_CAP; simpl; lia. }
  intros Hlt.
  assert (d = O) as -> by (subst d; rewrite length_app; unfold SPILL_CAP in *; simpl; lia).
  reflexivity.
Qed.

(** ** Destroy *)

Lemma find_filter_out id (l : list (TimerId * TimerKind)) :
  find (fun t => Nat.eqb (fst t) id)
    (filter (fun t => negb (Nat.eqb (fst t) id)) l) = None.
Proof.
  induction l as [|[i k] l IH]; simpl; [reflexivity|].
  destruct (Nat.eqb i id) eqn:E; simpl; rewrite ?E; exact IH.
Qed.

Lemma timer_kind_disarm id s : timer_kind id (disarm id s) = None.
Proof. unfold timer_kind, disarm; simpl; rewrite find_filter_out; reflexivity. Qed.

Lemma timer_kind_filtered id (f : TimerId * TimerKind -> bool) l :
  find (fun t => Nat.eqb (fst t) id) l = None ->
  find (fun t => Nat.eqb (fst t) id) (filter f l) = None.
Proof.
  induction l as [|t l IH]; simpl; [reflexivity|].
  destruct (Nat.eqb (fst t) id) eqn:E; [discriminate|].
  intros H; destruct (f t); simpl; rewrite ?E; auto.
Qed.

(** X5.  [destroy] clears both timer handles and disarms their timers, so
    that neither fires a callback any more, and leaves the buffer empty.
    A second [destroy] changes nothing. *)
Theorem destroy_stops_timers (entropy : Entropy) (s : State) :
  let s' := destroy entropy s in
  flushTimer s' = None
  /\ retryTimer s' = None
  /\ eventBuffer s' = []
  /\ (forall id, flushTimer s = Some id \/ retryTimer s = Some id ->
        timer_kind id s' = None /\ step entropy s' (TimerFires id) = s')
  /\ destroy entropy s' = s'.
Proof.
  cbv zeta; rewrite destroy_unfold.
  destruct (flush_untouched entropy true (stop_timers s))
    as (_ & _ & Hft & Hrt & Hti & _).
  assert (Sft : flushTimer (stop_timers s) = None).
  { unfold stop_timers; destruct (flushTimer s) eqn:F; simpl;
      destruct (retryTimer s); simpl; auto. }
  assert (Srt : retryTimer (stop_timers s) = None).
  { unfold stop_timers; destruct (flushTimer s); simpl;
      destruct (retryTimer s) eqn:R; simpl; auto. }
  split; [congruence|]. split; [congruence|].
  split; [apply flush_drains|]. split.
  - intros id Hid.
    assert (Hk : timer_kind id (flush entropy true (stop_timers s)) = None).
    { unfold timer_kind; rewrite Hti.
      assert (find (fun t => Nat.eqb (fst t) id) (timers (stop_timers s)) = None) as ->;
        [|reflexivity].
      unfold stop_timers.
      destruct Hid as [F|R].
      - rewrite F; simpl; destruct (retryTimer s); simpl.
        + apply timer_kind_filtered, find_filter_out.
        + apply find_filter_out.
      - destruct (flushTimer s) as [ft|]; simpl; rewrite R; simpl;
          apply find_filter_out. }
    split; [exact Hk|]. cbn [step]; rewrite Hk; reflexivity.
  - rewrite destroy_unfold.
    set (s1 := flush entropy true (stop_timers s)).
    assert (stop_timers s1 = s1) as ->.
    { unfold stop_timers; subst s1; rewrite Hft, Sft; simpl; rewrite Hrt, Srt; reflexivity. }
    apply flush_empty; apply flush_drains.
Qed.

(** ** Beacon delivery *)

(** X8.  When [navigator.sendBeacon] takes the payload of an urgent flush,
    no [fetch] is made and the flush reports success: whatever happens on
    the network afterwards, its resumption calls [onSuccess] with the
    drained records and spills nothing. *)
Theorem accepted_beacon_counts_as_success (entropy : Entropy) (s : State) :
  isOnline s = true ->
  eventBuffer s <> [] ->
  beacon s = BeaconAccepts ->
  let evs := eventBuffer s in
  let s1 := flush entropy true s in
  trace s1 = trace s ++ [SendBeacon (endpoint (config s))
                           (JSON_stringify (flushed_batch entropy s)) true]
  /\ pending s1 = pending s ++ [FlushAwait evs Resolved]
  /\ forall (s2 : State) (k : nat) (r : Response),
       nth_error (pending s2) k = Some (FlushAwait evs Resolved) ->
       let s3 := step entropy s2 (Settle k r) in
       trace s3 = trace s2 ++ [OnSuccess evs]
       /\ failedBatches s3 = failedBatches s2
       /\ storage s3 = storage s2.
Proof.
  intros Hon Hne Hb evs s1; subst evs s1.
  rewrite flush_online by assumption.
  unfold send_log, awaited, uses_fetch; rewrite Hb; simpl.
  split; [reflexivity|]. split; [reflexivity|].
  intros s2 k r Hk; cbn [step]; rewrite Hk; simpl.
  split; [reflexivity|]. split; reflexivity.
Qed.

(** ** Flushing twice *)

(** X12.  A flush that follows a flush does nothing, whatever their
    urgency, since the first one emptied the buffer.  So when the page
    becomes hidden the facade's listener, which runs after the batcher's
    own, adds nothing to the urgent flush, and flushing the facade twice is
    flushing it once. *)
Theorem second_flush_is_noop (entropy : Entropy) (s : State) (first second : bool) :
  flush entropy second (flush entropy first s) = flush entropy first s
  /\ page_hidden entropy s = step entropy s (DocumentVisibilityChange true)
  /\ Observability_flush entropy (Observability_flush entropy s)
     = Observability_flush entropy s.
Proof.
  split; [apply flush_empty, flush_drains|]. split.
  - unfold page_hidden, Observability_flush, forceFlush; cbn [step].
    apply flush_empty, flush_drains.
  - unfold Observability_flush, forceFlush; apply flush_empty, flush_drains.
Qed.

(** ** A retry timer that fires offline *)

(** X4.  When the retry timeout fires while the batcher is offline, the
    sweep returns at once: the timeout is used up, nothing is sent, the
    failed batches stay where they are and no new timeout is set.  If that
    was the only retry timeout, none is armed any more: retries resume only
    with the next online signal. *)
Theorem retry_timer_offline_is_dropped (entropy : Entropy) (s : State) (id : TimerId) :
  isOnline s = false ->
  timer_kind id s = Some RetryTimeout ->
  let s' := step entropy s (TimerFires id) in
  s' = disarm id s
  /\ trace s' = trace s
  /\ failedBatches s' = failedBatches s
  /\ storage s' = storage s
  /\ timer_kind id s' = None
  /\ ((forall t, In t (timers s) -> snd t = RetryTimeout -> fst t = id) ->
      Forall (fun t => snd t = FlushInterval) (timers s')).
Proof.
  intros Hoff Hk; cbv zeta; cbn [step]; rewrite Hk.
  unfold retryFailedBatches.
  change (isOnline (disarm id s)) with (isOnline s); rewrite Hoff; simpl.
  repeat (split; [reflexivity|]).
  split; [apply timer_kind_disarm|].
  intros Honly; apply Forall_forall; intros [i k] Hin.
  apply filter_In in Hin; destruct Hin as [Hin Hneq]; simpl in *.
  destruct k; [reflexivity|].
  pose proof (Honly _ Hin eq_refl) as Hi; simpl in Hi; subst i.
  rewrite Nat.eqb_refl in Hneq; discriminate.
Qed.

(** ** Destroy and a sweep under way *)

Section DestroySweep.

Variable entropy : Entropy.

Lemma flush_pending_grows ub s :
  exists l, pending (flush entropy ub s) = pending s ++ l.
Proof.
  destruct (eventBuffer s) eqn:E.
  - rewrite flush_empty by assumption; exists []; symmetry; apply app_nil_r.
  - destruct (isOnline s) eqn:O.
    + rewrite flush_online by congruence; simpl; eauto.
    + rewrite flush_offline by congruence; simpl.
      rewrite (proj1 (proj2 (proj2 (store_unchanged entropy (eventBuffer s) s)))).
      exists []; symmetry; apply app_nil_r.
Qed.

Lemma retry_failure_requeues s k b rest r error :
  nth_error (pending s) k = Some (RetryAwait b rest) ->
  error_of r = Some error ->
  failedBatches (step entropy s (Settle k r)) = failedBatches s ++ [b].
Proof.
  intros Hk Hr; cbn [step]; rewrite Hk.
  unfold error_of in Hr; cbn [resume]; rewrite Hr.
  unfold resume_retry; destruct rest as [|b' rest'].
  - match goal with |- context [schedule_retry ?x] =>
      rewrite (proj1 (schedule_retry_unchanged x))
    end; reflexivity.
  - reflexivity.
Qed.

Lemma retry_goes_on s k b next rest r :
  nth_error (pending s) k = Some (RetryAwait b (next :: rest)) ->
  attempts (trace (step entropy s (Settle k r))) = attempts (trace s) ++ [next].
Proof.
  intros Hk; cbn [step]; rewrite Hk; cbn [resume].
  unfold resume_retry; rewrite retry_send_trace, attempts_app.
  destruct (outcome InFlight r); simpl;
    rewrite ?attempts_app; simpl; rewrite ?app_nil_r; reflexivity.
Qed.

End DestroySweep.

(** X6.  [destroy] does not cancel a sweep that is suspended: its frame
    stays, the remaining batches are still sent when it resumes, and when
    its last delivery fails the batch is queued again and a new retry
    timeout is armed on the destroyed batcher. *)
Theorem destroy_leaves_sweep_running (entropy : Entropy) (s : State)
    (k : nat) (b : EventBatch) (rest : list EventBatch) :
  nth_error (pending s) k = Some (RetryAwait b rest) ->
  let s' := destroy entropy s in
  nth_error (pending s') k = Some (RetryAwait b rest)
  /\ (forall r next rest', rest = next :: rest' ->
        attempts (trace (step entropy s' (Settle k r)))
        = attempts (trace s') ++ [next])
  /\ (forall r error, rest = [] -> error_of r = Some error ->
        let s'' := step entropy s' (Settle k r) in
        failedBatches s'' = failedBatches s' ++ [b]
        /\ exists id, retryTimer s'' = Some id /\ In (id, RetryTimeout) (timers s'')).
Proof.
  intros Hk; cbv zeta.
  assert (Hk' : nth_error (pending (destroy entropy s)) k = Some (RetryAwait b rest)).
  { rewrite destroy_unfold.
    destruct (flush_pending_grows entropy true (stop_timers s)) as [l Hl].
    rewrite Hl, (proj1 (proj2 (stop_timers_unchanged s))).
    rewrite nth_error_app1; [assumption|].
    apply nth_error_Some; congruence. }
  split; [exact Hk'|]. split.
  - intros r next rest' ->; apply retry_goes_on with (b := b) (rest := rest'); assumption.
  - intros r error -> Hr.
    pose proof (retry_failure_requeues entropy _ _ _ _ _ _ Hk' Hr) as Hf.
    split; [exact Hf|].
    destruct (sweep_end_schedules entropy _ _ _ r Hk') as [Hs _].
    destruct Hs as (pre & id & _ & Hrt & Hin).
    { rewrite Hf, length_app; simpl; lia. }
    exists id; split; assumption.
Qed.

(** ** The flush interval *)

(** X7.  The constructor arms one interval with the configured period.
    Records enqueued below the batch size wait in the buffer; when the
    interval fires they leave in one delivery attempt, in order, and the
    interval stays armed for the next period. *)
Theorem interval_flush_sends_the_buffer (entropy : Entropy) (h : Host)
    (c : BatcherConfig) (es : list ObservabilityEvent) :
  es <> [] ->
  Z.of_nat (List.length es) < batchSize (resolve_config c) ->
  exists s0 : State,
    construct h c = Normal s0
    /\ trace s0 = [SetInterval 1%nat (flushInterval (resolve_config c))]
    /\ flushTimer s0 = Some 1%nat
    /\ let s := run entropy s0 (map CallAddEvent es) in
       let s' := step entropy s (TimerFires 1%nat) in
       attempts (trace s) = []
       /\ eventBuffer s = es
       /\ (exists b, attempts (trace s') = [b] /\ events b = es)
       /\ eventBuffer s' = []
       /\ timer_kind 1%nat s' = Some FlushInterval.
Proof.
  intros Hne Hlen; eexists; split; [reflexivity|].
  split; [reflexivity|]. split; [reflexivity|]. cbv zeta.
  rewrite addEvent_run_below by exact Hlen.
  split; [reflexivity|]. split; [reflexivity|].
  cbn [step].
  match goal with |- context [timer_kind 1%nat ?x] =>
    change (timer_kind 1%nat x) with (Some FlushInterval)
  end.
  cbv iota; split; [|split].
  - eexists; split; [rewrite flush_online_attempt; [reflexivity | reflexivity | exact Hne]
                    |reflexivity].
  - apply flush_drains.
  - match goal with |- context [flush entropy false ?x] =>
      destruct (flush_untouched entropy false x) as (_ & _ & _ & _ & Ht & _)
    end.
    unfold timer_kind; rewrite Ht; reflexivity.
Qed.

(** ** Reaching the batch size offline *)

(** X15.  On an offline batcher with an empty buffer, enqueueing as many
    records as the batch size calls no transport and no callback: the
    first ones wait in the buffer and the last [addEvent] moves them all,
    in order, into one spilled batch. *)
Theorem threshold_spill_offline (entropy : Entropy) (s : State)
    (es : list ObservabilityEvent) (e : ObservabilityEvent) :
  isOnline s = false ->
  eventBuffer s = [] ->
  Z.of_nat (List.length (es ++ [e])) = batchSize (config s) ->
  let s1 := run entropy s (map CallAddEvent es) in
  let s2 := step entropy s1 (CallAddEvent e) in
  trace s1 = trace s
  /\ failedBatches s1 = failedBatches s
  /\ eventBuffer s1 = es
  /\ transport_calls (trace s2) = transport_calls (trace s)
  /\ callbacks (trace s2) = callbacks (trace s)
  /\ failedBatches s2 = failedBatches s ++ [spilled_batch entropy (es ++ [e]) s]
  /\ eventBuffer s2 = [].
Proof.
  intros Hoff Hbuf Hn; cbv zeta.
  assert (Hbelow : Z.of_nat (List.length (eventBuffer s ++ es)) < batchSize (config s)).
  { rewrite Hbuf; rewrite length_app in Hn; simpl in *; lia. }
  rewrite addEvent_run_below by exact Hbelow.
  rewrite Hbuf; simpl.
  do 3 (split; [reflexivity|]).
  rewrite addEvent_reached by (simpl; lia); simpl.
  rewrite flush_callbacks.
  rewrite flush_offline by (simpl; auto; destruct es; discriminate).
  simpl; rewrite store_trace, transport_calls_app, transport_calls_spill_log,
    app_nil_r, store_failedBatches.
  repeat (split; [reflexivity|]); reflexivity.
Qed.

(** ** A flush that resumes *)

(** X17.  The resumption of a suspended flush, whatever the outcome,
    sends nothing and touches no timer.  A batch spilled because its flush
    failed is therefore retried only by a sweep that something else
    starts: the online signal, or a retry timeout that is already armed. *)
Theorem failed_flush_schedules_no_retry (entropy : Entropy) (s : State) (k : nat)
    (evs : list ObservabilityEvent) (aw : Awaited) (r : Response) :
  nth_error (pending s) k = Some (FlushAwait evs aw) ->
  let s' := step entropy s (Settle k r) in
  timers s' = timers s
  /\ retryTimer s' = retryTimer s
  /\ transport_calls (trace s') = transport_calls (trace s)
  /\ pending s' = remove_nth k (pending s)
  /\ (outcome aw r <> None ->
      failedBatches s' = failedBatches s ++ [spilled_batch entropy evs s]).
Proof.
  intros Hk; cbv zeta; cbn [step]; rewrite Hk; cbn [resume].
  match goal with |- context [resume_flush entropy evs ?o ?x] =>
    destruct (resume_flush_untouched entropy evs o x)
      as (_ & _ & _ & Hr & Ht & _ & _ & Hp)
  end.
  rewrite Hr, Ht, Hp.
  split; [reflexivity|]. split; [reflexivity|]. split.
  - destruct (outcome aw r); simpl.
    + rewrite store_trace; simpl.
      rewrite !transport_calls_app, transport_calls_spill_log; simpl.
      rewrite !app_nil_r; reflexivity.
    + rewrite transport_calls_app; simpl; apply app_nil_r.
  - split; [reflexivity|].
    intros Ho; destruct (outcome aw r); [|congruence]; simpl.
    rewrite store_failedBatches; reflexivity.
Qed.

(** ** The buffer never reaches the batch size *)

Section BufferBound.

Variable entropy : Entropy.

Lemma retryFailedBatches_untouched s :
  config (retryFailedBatches s) = config s
  /\ eventBuffer (retryFailedBatches s) = eventBuffer s.
Proof.
  unfold retryFailedBatches, load_persisted.
  destruct (isOnline s); [|split; reflexivity].
  destruct (storageFault s), (storage s); simpl;
    match goal with |- context [match ?l with [] => _ | _ :: _ => _ end] =>
      destruct l; split; reflexivity
    end.
Qed.

Lemma resume_retry_untouched b rest o s :
  config (resume_retry b rest o s) = config s
  /\ eventBuffer (resume_retry b rest o s) = eventBuffer s.
Proof.
  unfold resume_retry; destruct rest as [|b' rest'].
  - match goal with |- context [schedule_retry ?x] =>
      destruct (schedule_retry_unchanged x) as (_ & _ & _ & _ & _ & Hb & Hc)
    end.
    rewrite Hb, Hc; destruct o; split; reflexivity.
  - destruct o; split; reflexivity.
Qed.

Lemma stop_timers_untouched s :
  config (stop_timers s) = config s.
Proof.
  unfold stop_timers; destruct (flushTimer s); simpl; destruct (retryTimer s); reflexivity.
Qed.

(** No transition changes the configuration. *)
Lemma step_config s a : config (step entropy s a) = config s.
Proof.
  destruct a; cbn [step].
  - unfold addEvent; cbv zeta; destruct (_ >=? _); [|reflexivity].
    rewrite (proj1 (flush_untouched entropy false _)); reflexivity.
  - unfold addEvents; cbv zeta; destruct (_ >=? _); [|reflexivity].
    rewrite (proj1 (flush_untouched entropy false _)); reflexivity.
  - apply flush_untouched.
  - rewrite destroy_unfold, (proj1 (flush_untouched entropy true _)).
    apply stop_timers_untouched.
  - rewrite (proj1 (retryFailedBatches_untouched _)); reflexivity.
  - reflexivity.
  - apply flush_untouched.
  - destruct hidden; [apply flush_untouched | reflexivity].
  - destruct (timer_kind id s) as [[|]|]; [apply flush_untouched | | reflexivity].
    rewrite (proj1 (retryFailedBatches_untouched _)); reflexivity.
  - destruct (nth_error (pending s) k) as [[evs aw|b rest]|]; cbn [resume].
    + rewrite (proj1 (resume_flush_untouched entropy evs _ _)); reflexivity.
    + rewrite (proj1 (resume_retry_untouched b rest _ _)); reflexivity.
    + reflexivity.
  - reflexivity.
  - reflexivity.
  - reflexivity.
Qed.

Lemma run_config acts : forall s, config (run entropy s acts) = config s.
Proof.
  induction acts as [|a acts IH]; intros s; simpl; [reflexivity|].
  change (fold_left (step entropy) acts ?x) with (run entropy x acts).
  rewrite IH; apply step_config.
Qed.

Lemma step_buffer_bound s a :
  1 <= batchSize (config s) ->
  Z.of_nat (List.length (eventBuffer s)) < batchSize (config s) ->
  Z.of_nat (List.length (eventBuffer (step entropy s a))) < batchSize (config s).
Proof.
  intros Hn Hb.
  assert (Hflush : forall ub x,
    Z.of_nat (List.length (eventBuffer (flush entropy ub x))) < batchSize (config s)).
  { intros ub x; rewrite flush_drains; simpl; lia. }
  destruct a; cbn [step]; auto.
  - unfold addEvent; cbv zeta.
    destruct (Z.geb_spec (Z.of_nat (List.length (eventBuffer
                (set_eventBuffer (eventBuffer s ++ [e]) s))))
                (batchSize (config (set_eventBuffer (eventBuffer s ++ [e]) s))));
      [apply Hflush | simpl in *; lia].
  - unfold addEvents; cbv zeta.
    destruct (Z.geb_spec (Z.of_nat (List.length (eventBuffer
                (set_eventBuffer (eventBuffer s ++ evs) s))))
                (batchSize (config (set_eventBuffer (eventBuffer s ++ evs) s))));
      [apply Hflush | simpl in *; lia].
  - apply Hflush.
  - rewrite destroy_unfold; apply Hflush.
  - rewrite (proj2 (retryFailedBatches_untouched _)); exact Hb.
  - destruct hidden; auto.
  - destruct (timer_kind id s) as [[|]|]; auto.
    rewrite (proj2 (retryFailedBatches_untouched _)); exact Hb.
  - destruct (nth_error (pending s) k) as [[evs aw|b rest]|]; cbn [resume]; auto.
    + destruct (resume_flush_untouched entropy evs (outcome aw r)
                  (set_pending (remove_nth k (pending s)) s))
        as (_ & _ & _ & _ & _ & _ & He & _).
      rewrite He; exact Hb.
    + rewrite (proj2 (resume_retry_untouched b rest _ _)); exact Hb.
Qed.

End BufferBound.

(** X10.  On a batcher whose batch size is at least 1 and whose buffer is
    below it, every sequence of calls, signals, timers and resumptions
    leaves the configuration as it is and the buffer below the batch size:
    what [addEvent] or [addEvents] brings up to the batch size is flushed
    in the same call. *)
Theorem buffer_stays_below_batch_size (entropy : Entropy) (s : State)
    (acts : list Action) :
  1 <= batchSize (config s) ->
  Z.of_nat (List.length (eventBuffer s)) < batchSize (config s) ->
  let s' := run entropy s acts in
  config s' = config s
  /\ Z.of_nat (List.length (eventBuffer s')) < batchSize (config s).
Proof.
  intros Hn Hb; cbv zeta; split; [apply run_config|].
  revert s Hn Hb; induction acts as [|a acts IH]; intros s Hn Hb; simpl; [exact Hb|].
  change (fold_left (step entropy) acts ?x) with (run entropy x acts).
  rewrite <- (step_config entropy s a).
  apply IH; rewrite step_config; [exact Hn|].
  apply step_buffer_bound; assumption.
Qed.

(** ** Events collected one at a time *)

(** X11.  The collection timer of the facade hands its events to
    [addEvent] one by one.  On an online batcher whose buffer is below the
    batch size [n >= 1], every event is first reported to [onEvent], in
    order; the delivery attempts made on the way hold exactly [n] records
    each; and these batches followed by what stays in the buffer, fewer than
    [n] records, are the earlier buffer followed by the collected events. *)
Theorem collect_sends_full_batches (entropy : Entropy)
    (evs : list ObservabilityEvent) :
  forall (reported : list ObservabilityEvent) (s : State),
  isOnline s = true ->
  1 <= batchSize (config s) ->
  Z.of_nat (List.length (eventBuffer s)) < batchSize (config s) ->
  let st := collect entropy evs (reported, s) in
  fst st = reported ++ evs
  /\ exists batches,
       attempts (trace (snd st)) = attempts (trace s) ++ batches
       /\ Forall (fun b => Z.of_nat (List.length (events b)) = batchSize (config s)) batches
       /\ records batches ++ eventBuffer (snd st) = eventBuffer s ++ evs
       /\ Z.of_nat (List.length (eventBuffer (snd st))) < batchSize (config s)
       /\ isOnline (snd st) = true.
Proof.
  unfold collect.
  induction evs as [|e evs IH]; intros reported s Hon Hn Hb; cbv zeta; simpl.
  - rewrite !app_nil_r; split; [reflexivity|].
    exists []; simpl; rewrite !app_nil_r; auto.
  - set (s1 := addEvent entropy e s).
    assert (Hstep : config s1 = config s /\ isOnline s1 = true
      /\ Z.of_nat (List.length (eventBuffer s1)) < batchSize (config s)
      /\ exists d, attempts (trace s1) = attempts (trace s) ++ d
           /\ Forall (fun b => Z.of_nat (List.length (events b)) = batchSize (config s)) d
           /\ records d ++ eventBuffer s1 = eventBuffer s ++ [e]).
    { subst s1.
      destruct (Z.lt_ge_cases (Z.of_nat (List.length (eventBuffer s ++ [e])))
                  (batchSize (config s))) as [Hlt|Hge].
      - rewrite addEvent_below by exact Hlt; simpl.
        repeat (split; [auto|]).
        exists []; simpl; rewrite app_nil_r; auto.
      - rewrite addEvent_reached by exact Hge.
        set (x := set_eventBuffer (eventBuffer s ++ [e]) s).
        destruct (flush_untouched entropy false x) as (Hc & Ho & _).
        rewrite Hc, Ho, flush_drains.
        split; [reflexivity|]. split; [exact Hon|]. split; [simpl; lia|].
        exists [flushed_batch entropy x]; split.
        + rewrite flush_online_attempt; [reflexivity | exact Hon|].
          subst x; simpl; destruct (eventBuffer s); discriminate.
        + split.
          * constructor; [|constructor]. subst x; simpl.
            rewrite length_app in *; simpl in *; lia.
          * subst x; simpl; rewrite !app_nil_r; reflexivity. }
    destruct Hstep as (Hc & Hon1 & Hb1 & d & Ha & Hd & Hr).
    destruct (IH (reported ++ [e]) s1 Hon1) as (Hf & batches & Ha2 & Hd2 & Hr2 & Hb2 & Hon2).
    { rewrite Hc; exact Hn. }
    { rewrite Hc; exact Hb1. }
    split; [rewrite Hf, <- app_assoc; reflexivity|].
    exists (d ++ batches); split; [rewrite Ha2, Ha, app_assoc; reflexivity|].
    split; [apply Forall_app; split; [exact Hd | rewrite <- Hc; exact Hd2]|].
    split.
    { rewrite records_app, <- app_assoc, Hr2, app_assoc, Hr, <- app_assoc; reflexivity. }
    split; [rewrite <- Hc; exact Hb2 | exact Hon2].
Qed.

(** ** Where the batcher sends *)

Section Destination.

Variable entropy : Entropy.

Lemma sends_refl c s s' : trace s' = trace s -> sends_only_to c s s'.
Proof. intros H; exists []; rewrite H, app_nil_r; auto. Qed.

Lemma sends_trans c s s1 s' :
  sends_only_to c s s1 -> sends_only_to c s1 s' -> sends_only_to c s s'.
Proof.
  intros [n1 [H1 F1]] [n2 [H2 F2]]; exists (n1 ++ n2); split.
  - rewrite H2, H1, app_assoc; reflexivity.
  - apply Forall_app; split; assumption.
Qed.

Lemma sends_more c s s' new :
  trace s' = trace s ++ new -> Forall (aimed_at c) new -> sends_only_to c s s'.
Proof. intros H F; exists new; auto. Qed.

Lemma aimed_spill_log c s : Forall (aimed_at c) (spill_log s).
Proof. unfold spill_log; destruct (storageFault s); repeat constructor. Qed.

Lemma aimed_send_log s b ub : Forall (aimed_at (config s)) (send_log s b ub).
Proof. unfold send_log; destruct ub, (beacon s); repeat constructor. Qed.

Lemma store_sends c evs s : sends_only_to c s (storeFailedBatch entropy evs s).
Proof. eapply sends_more; [apply store_trace | apply aimed_spill_log]. Qed.

Lemma flush_sends ub s : sends_only_to (config s) s (flush entropy ub s).
Proof.
  destruct (eventBuffer s) eqn:E.
  - rewrite flush_empty by assumption; apply sends_refl; reflexivity.
  - destruct (isOnline s) eqn:O.
    + rewrite flush_online by congruence.
      eapply sends_more; [reflexivity | apply aimed_send_log].
    + rewrite flush_offline by congruence.
      eapply sends_trans; [apply store_sends | apply sends_refl; reflexivity].
Qed.

Lemma resume_flush_sends evs o s :
  sends_only_to (config s) s (resume_flush entropy evs o s).
Proof.
  destruct o as [error|]; simpl.
  - eapply sends_trans; [|apply store_sends].
    eapply sends_more; [simpl; rewrite <- app_assoc; reflexivity | repeat constructor].
  - eapply sends_more; [reflexivity | repeat constructor].
Qed.

Lemma retry_send_sends b rest s : sends_only_to (config s) s (retry_send b rest s).
Proof. eapply sends_more; [apply retry_send_trace | repeat constructor]. Qed.

Lemma load_persisted_sends c s : sends_only_to c s (load_persisted s).
Proof.
  unfold load_persisted; destruct (storageFault s), (storage s);
    first [apply sends_refl; reflexivity
          | eapply sends_more; [reflexivity | repeat constructor]].
Qed.

Lemma load_persisted_config s : config (load_persisted s) = config s.
Proof. unfold load_persisted; destruct (storageFault s), (storage s); reflexivity. Qed.

Lemma retryFailedBatches_sends s :
  sends_only_to (config s) s (retryFailedBatches s).
Proof.
  unfold retryFailedBatches; destruct (isOnline s); simpl;
    [|apply sends_refl; reflexivity].
  destruct (failedBatches (load_persisted s)) as [|b rest].
  - apply load_persisted_sends.
  - eapply sends_trans; [apply load_persisted_sends|].
    rewrite <- (load_persisted_config s).
    apply (retry_send_sends b rest (set_failedBatches [] (load_persisted s))).
Qed.

Lemma schedule_retry_sends c s : sends_only_to c s (schedule_retry s).
Proof.
  unfold schedule_retry; destruct (failedBatches s); [apply sends_refl; reflexivity|].
  destruct (retryTimer s); simpl.
  - eapply sends_more; [simpl; rewrite <- app_assoc; reflexivity | repeat constructor].
  - eapply sends_more; [reflexivity | repeat constructor].
Qed.

Lemma resume_retry_sends b rest o s :
  sends_only_to (config s) s (resume_retry b rest o s).
Proof.
  unfold resume_retry.
  set (s1 := match o with Some _ => _ | None => _ end).
  assert (H1 : sends_only_to (config s) s s1 /\ config s1 = config s).
  { subst s1; destruct o; split; try reflexivity.
    - eapply sends_more; [simpl; rewrite <- app_assoc; reflexivity | repeat constructor].
    - eapply sends_more; [reflexivity | repeat constructor]. }
  destruct H1 as [H1 Hc].
  destruct rest as [|next rest'].
  - eapply sends_trans; [exact H1 | apply schedule_retry_sends].
  - eapply sends_trans; [exact H1|]. rewrite <- Hc; apply retry_send_sends.
Qed.

Lemma stop_timers_sends c s : sends_only_to c s (stop_timers s).
Proof.
  unfold stop_timers; destruct (flushTimer s); simpl; destruct (retryTimer s); simpl;
    first [apply sends_refl; reflexivity
          | eapply sends_more; [simpl; rewrite <- ?app_assoc; reflexivity
                               | repeat constructor]].
Qed.

Lemma step_sends s a : sends_only_to (config s) s (step entropy s a).
Proof.
  destruct a; cbn [step]; try (apply sends_refl; reflexivity).
  - unfold addEvent; cbv zeta; destruct (_ >=? _); [|apply sends_refl; reflexivity].
    apply (flush_sends false (set_eventBuffer (eventBuffer s ++ [e]) s)).
  - unfold addEvents; cbv zeta; destruct (_ >=? _); [|apply sends_refl; reflexivity].
    apply (flush_sends false (set_eventBuffer (eventBuffer s ++ evs) s)).
  - apply flush_sends.
  - rewrite destroy_unfold.
    eapply sends_trans; [apply stop_timers_sends|].
    rewrite <- (stop_timers_untouched s); apply flush_sends.
  - apply (retryFailedBatches_sends (set_isOnline true s)).
  - apply flush_sends.
  - destruct hidden; [apply flush_sends | apply sends_refl; reflexivity].
  - destruct (timer_kind id s) as [[|]|];
      [apply flush_sends | apply (retryFailedBatches_sends (disarm id s))
      | apply sends_refl; reflexivity].
  - destruct (nth_error (pending s) k) as [[evs aw|b rest]|]; cbn [resume].
    + apply (resume_flush_sends evs _ (set_pending (remove_nth k (pending s)) s)).
    + apply (resume_retry_sends b rest _ (set_pending (remove_nth k (pending s)) s)).
    + apply sends_refl; reflexivity.
Qed.

End Destination.

(** X16.  Whatever happens to a batcher, its trace is only appended to,
    every [fetch] it makes goes to the configured endpoint with the
    configured headers merged over [Content-Type], and every beacon goes to
    the configured endpoint: no transition can redirect a delivery. *)
Theorem deliveries_go_to_the_endpoint (entropy : Entropy) (acts : list Action)
    (s : State) :
  exists new : list Effect,
    trace (run entropy s acts) = trace s ++ new
    /\ (forall url hdrs body,
          In (Fetch url hdrs body) new ->
          url = endpoint (config s) /\ hdrs = request_headers (config s))
    /\ (forall url body accepted,
          In (SendBeacon url body accepted) new -> url = endpoint (config s)).
Proof.
  assert (Hrun : forall s0, sends_only_to (config s0) s0 (run entropy s0 acts)).
  { induction acts as [|a acts IH]; intros s0; simpl;
      [apply sends_refl; reflexivity|].
    eapply sends_trans; [apply step_sends|].
    rewrite <- (step_config entropy s0 a); apply IH. }
  destruct (Hrun s) as [new [Ht Hf]].
  exists new; split; [exact Ht|].
  rewrite Forall_forall in Hf; split.
  - intros url hdrs body Hin; exact (Hf _ Hin).
  - intros url body accepted Hin; exact (Hf _ Hin).
Qed.

(** ** Request headers *)

Lemma obj_get_set_same k v o : obj_get k (obj_set k v o) = Some v.
Proof.
  induction o as [|[k' v'] o IH]; simpl.
  - rewrite String.eqb_refl; reflexivity.
  - destruct (String.eqb k k') eqn:E; simpl; rewrite ?String.eqb_refl, ?E; auto.
Qed.

Lemma obj_get_set_other k k' v o :
  k <> k' -> obj_get k (obj_set k' v o) = obj_get k o.
Proof.
  intros Hne; induction o as [|[k0 v0] o IH]; simpl.
  - apply String.eqb_neq in Hne; rewrite Hne; reflexivity.
  - destruct (String.eqb k' k0) eqn:E; simpl.
    + apply String.eqb_eq in E; subst k0.
      apply String.eqb_neq in Hne; rewrite Hne; reflexivity.
    + rewrite IH; reflexivity.
Qed.

Lemma obj_set_keys k v o :
  map fst (obj_set k v o)
  = if existsb (String.eqb k) (map fst o) then map fst o else map fst o ++ [k].
Proof.
  induction o as [|[k0 v0] o IH]; simpl; [reflexivity|].
  destruct (String.eqb k k0) eqn:E; simpl.
  - apply String.eqb_eq in E; subst; reflexivity.
  - rewrite IH; destruct (existsb _ _); reflexivity.
Qed.

Lemma obj_set_NoDup k v o : NoDup (map fst o) -> NoDup (map fst (obj_set k v o)).
Proof.
  intros H; rewrite obj_set_keys.
  destruct (existsb (String.eqb k) (map fst o)) eqn:E; [assumption|].
  apply NoDup_app; [assumption | repeat constructor; simpl; tauto |].
  intros x Hx [Heq|[]]; subst x.
  assert (existsb (String.eqb k) (map fst o) = true); [|congruence].
  apply existsb_exists; exists k; split; [assumption | apply String.eqb_refl].
Qed.

Lemma obj_spread_other extra : forall base k,
  ~ In k (map fst extra) -> obj_get k (obj_spread base extra) = obj_get k base.
Proof.
  unfold obj_spread; induction extra as [|[k1 v1] extra IH]; intros base k Hk; simpl;
    [reflexivity|].
  simpl in Hk; rewrite IH by tauto.
  apply obj_get_set_other; intros ->; tauto.
Qed.

Lemma obj_spread_given extra : forall base k v,
  NoDup (map fst extra) -> In (k, v) extra ->
  obj_get k (obj_spread base extra) = Some v.
Proof.
  induction extra as [|[k1 v1] extra IH]; intros base k v Hnd Hin; [destruct Hin|].
  simpl in Hnd; inversion Hnd as [|? ? Hnot Hnd']; subst.
  destruct Hin as [Heq|Hin].
  - inversion Heq; subst.
    change (obj_spread base ((k, v) :: extra))
      with (obj_spread (obj_set k v base) extra).
    rewrite obj_spread_other by assumption; apply obj_get_set_same.
  - change (obj_spread base ((k1, v1) :: extra))
      with (obj_spread (obj_set k1 v1 base) extra).
    apply IH; assumption.
Qed.

Lemma obj_spread_NoDup extra : forall base,
  NoDup (map fst base) -> NoDup (map fst (obj_spread base extra)).
Proof.
  unfold obj_spread; induction extra as [|[k1 v1] extra IH]; intros base H; simpl;
    [assumption|].
  apply IH, obj_set_NoDup; assumption.
Qed.

(** X9.  The headers of a [fetch] are the configured ones merged over
    [Content-Type: application/json]: every configured header is sent with
    its value, [Content-Type] is [application/json] unless the
    configuration gives its own, nothing else is sent, and no key occurs
    twice. *)
Theorem request_headers_merge (c : RequiredConfig) :
  NoDup (map fst (headers c)) ->
  (forall k v, In (k, v) (headers c) -> obj_get k (request_headers c) = Some v)
  /\ (~ In "Content-Type"%string (map fst (headers c)) ->
      obj_get "Content-Type" (request_headers c) = Some "application/json"%string)
  /\ (forall k, k <> "Content-Type"%string -> ~ In k (map fst (headers c)) ->
        obj_get k (request_headers c) = None)
  /\ NoDup (map fst (request_headers c)).
Proof.
  intros Hnd; unfold request_headers; split; [|split; [|split]].
  - intros k v Hin; apply obj_spread_given; assumption.
  - intros Hno; rewrite obj_spread_other by assumption; reflexivity.
  - intros k Hk Hno; rewrite obj_spread_other by assumption; simpl.
    apply String.eqb_neq in Hk; rewrite Hk; reflexivity.
  - apply obj_spread_NoDup; repeat constructor; simpl; tauto.
Qed.

(** ** The persisted list stays within the cap *)

Section Capped.

Variable entropy : Entropy.

Lemma capped_same s s' : storage s' = storage s -> storage_capped s -> storage_capped s'.
Proof. unfold storage_capped; intros ->; auto. Qed.

Lemma capped_none s : storage s = None -> storage_capped s.
Proof. unfold storage_capped; intros ->; exact I. Qed.

Lemma store_capped evs s :
  storage_capped s -> storage_capped (storeFailedBatch entropy evs s).
Proof.
  intros H; unfold storage_capped; rewrite store_storage; unfold persisted_after.
  destruct (storageFault s); try exact H.
  unfold slice_last; rewrite length_skipn; lia.
Qed.

Lemma flush_capped ub s : storage_capped s -> storage_capped (flush entropy ub s).
Proof.
  intros H; destruct (eventBuffer s) eqn:E.
  - rewrite flush_empty; assumption.
  - destruct (isOnline s) eqn:O.
    + rewrite flush_online by congruence; exact H.
    + rewrite flush_offline by congruence.
      apply (capped_same (storeFailedBatch entropy (eventBuffer s) s));
        [reflexivity | apply store_capped; exact H].
Qed.

Lemma resume_flush_capped evs o s :
  storage_capped s -> storage_capped (resume_flush entropy evs o s).
Proof.
  intros H; destruct o; simpl; [|exact H].
  apply store_capped; exact H.
Qed.

Lemma retryFailedBatches_capped s :
  storage_capped s -> storage_capped (retryFailedBatches s).
Proof.
  intros H; unfold retryFailedBatches, load_persisted.
  destruct (isOnline s); [|exact H].
  destruct (storageFault s), (storage s) eqn:S; simpl;
    match goal with |- context [match ?l with [] => _ | _ :: _ => _ end] =>
      destruct l
    end;
    first [apply capped_none; reflexivity
          | unfold storage_capped in *; simpl; rewrite ?S in *; exact H].
Qed.

Lemma resume_retry_capped b rest o s :
  storage_capped s -> storage_capped (resume_retry b rest o s).
Proof.
  intros H; unfold resume_retry; destruct rest as [|next rest'].
  - unfold storage_capped.
    match goal with |- context [schedule_retry ?x] =>
      rewrite (proj1 (proj2 (proj2 (schedule_retry_unchanged x))))
    end.
    destruct o; exact H.
  - destruct o; exact H.
Qed.

Lemma stop_timers_storage s : storage (stop_timers s) = storage s.
Proof.
  unfold stop_timers; destruct (flushTimer s); simpl; destruct (retryTimer s); reflexivity.
Qed.

Lemma step_capped s a : storage_capped s -> storage_capped (step entropy s a).
Proof.
  intros H; destruct a; cbn [step]; try exact H.
  - unfold addEvent; cbv zeta; destruct (_ >=? _); [|exact H].
    apply flush_capped; exact H.
  - unfold addEvents; cbv zeta; destruct (_ >=? _); [|exact H].
    apply flush_capped; exact H.
  - apply flush_capped; exact H.
  - rewrite destroy_unfold; apply flush_capped.
    apply (capped_same s); [apply stop_timers_storage | exact H].
  - apply retryFailedBatches_capped; exact H.
  - apply flush_capped; exact H.
  - destruct hidden; [apply flush_capped|]; exact H.
  - destruct (timer_kind id s) as [[|]|];
      [apply flush_capped | apply retryFailedBatches_capped|]; exact H.
  - destruct (nth_error (pending s) k) as [[evs aw|b rest]|]; cbn [resume];
      [apply resume_flush_capped | apply resume_retry_capped|]; exact H.
Qed.

End Capped.

(** X2.  If the list under the storage key has at most 100 entries, it has
    at most 100 entries after any sequence of calls, signals, timers and
    resumptions; and one spill with a working [localStorage] brings any
    list, however long, down to at most 100 entries. *)
Theorem persisted_list_stays_capped (entropy : Entropy) (acts : list Action)
    (s : State) :
  storage_capped s ->
  storage_capped (run entropy s acts)
  /\ forall (evs : list ObservabilityEvent) (s0 : State),
       storageFault s0 = StorageOk ->
       storage_capped (storeFailedBatch entropy evs s0).
Proof.
  intros H; split.
  - revert s H; induction acts as [|a acts IH]; intros s H; simpl; [exact H|].
    apply IH, step_capped; exact H.
  - intros evs s0 Hok; unfold storage_capped.
    rewrite store_storage; unfold persisted_after; rewrite Hok.
    unfold slice_last; rewrite length_skipn; lia.
Qed.

(** ** Timers *)

Section Tidy.

Variable entropy : Entropy.

Lemma tidy_same s s' :
  timers s' = timers s -> nextTimer s' = nextTimer s ->
  flushTimer s' = flushTimer s -> retryTimer s' = retryTimer s ->
  timers_tidy s -> timers_tidy s'.
Proof. unfold timers_tidy; intros -> -> -> ->; auto. Qed.

Lemma NoDup_keys_filter (f : TimerId * TimerKind -> bool) l :
  NoDup (map fst l) -> NoDup (map fst (filter f l)).
Proof.
  induction l as [|t l IH]; simpl; intros H; [constructor|].
  inversion H as [|? ? Hnot Hnd]; subst.
  destruct (f t); simpl; auto.
  constructor; auto.
  intros Hin; apply Hnot.
  apply in_map_iff in Hin; destruct Hin as (x & Hx & Hin).
  apply filter_In in Hin; apply in_map_iff; exists x; tauto.
Qed.

Lemma tidy_disarm id s : timers_tidy s -> timers_tidy (disarm id s).
Proof.
  intros (Hnd & Hlt & Hf & Hr); unfold timers_tidy, disarm; simpl.
  split; [apply NoDup_keys_filter; assumption|].
  split; [apply Forall_filter_keep; assumption|].
  split; intros i Hin; apply filter_In in Hin; destruct Hin; auto.
Qed.

(** Disarming the timer a handle names and clearing the handle. *)
Lemma tidy_clear_flush id s :
  flushTimer s = Some id -> timers_tidy s ->
  timers_tidy (set_flushTimer None (disarm id (emit (ClearInterval id) s))).
Proof.
  intros Hft (Hnd & Hlt & Hf & Hr); unfold timers_tidy; simpl.
  split; [apply NoDup_keys_filter; assumption|].
  split; [apply Forall_filter_keep; assumption|].
  split; intros i Hin; apply filter_In in Hin; destruct Hin as [Hin Hne]; simpl in *; auto.
  apply Hf in Hin; rewrite Hft in Hin; inversion Hin; subst.
  rewrite Nat.eqb_refl in Hne; discriminate.
Qed.

Lemma tidy_clear_retry id s :
  retryTimer s = Some id -> timers_tidy s ->
  timers_tidy (set_retryTimer None (disarm id (emit (ClearTimeout id) s))).
Proof.
  intros Hrt (Hnd & Hlt & Hf & Hr); unfold timers_tidy; simpl.
  split; [apply NoDup_keys_filter; assumption|].
  split; [apply Forall_filter_keep; assumption|].
  split; intros i Hin; apply filter_In in Hin; destruct Hin as [Hin Hne]; simpl in *; auto.
  apply Hr in Hin; rewrite Hrt in Hin; inversion Hin; subst.
  rewrite Nat.eqb_refl in Hne; discriminate.
Qed.

Lemma tidy_stop_timers s : timers_tidy s -> timers_tidy (stop_timers s).
Proof.
  intros H; unfold stop_timers.
  destruct (flushTimer s) as [ft|] eqn:F.
  - pose proof (tidy_clear_flush ft s F H) as H1.
    simpl; destruct (retryTimer s) as [rt|] eqn:R; [|exact H1].
    apply (tidy_clear_retry rt
             (set_flushTimer None (disarm ft (emit (ClearInterval ft) s))) R H1).
  - destruct (retryTimer s) as [rt|] eqn:R; [|exact H].
    apply (tidy_clear_retry rt _ R H).
Qed.

Lemma tidy_schedule_retry s : timers_tidy s -> timers_tidy (schedule_retry s).
Proof.
  intros H; unfold schedule_retry.
  destruct (failedBatches s); [exact H|].
  assert (Hgen : forall x,
    timers_tidy x -> (forall i, ~ In (i, RetryTimeout) (timers x)) ->
    timers_tidy (set_retryTimer (Some (nextTimer x))
                   (arm (nextTimer x) RetryTimeout
                      (emit (SetTimeout (nextTimer x)
                               (retryDelay (config x)
                                * Z.min (Z.of_nat (List.length (failedBatches x))) 10)) x)))).
  { intros x (Hnd & Hlt & Hf & Hr) Hno; unfold timers_tidy; simpl.
    split.
    { rewrite map_app; apply NoDup_app; [assumption | repeat constructor; simpl; tauto|].
      intros a Ha [Heq|[]].
      apply in_map_iff in Ha; destruct Ha as (t & Ht & Hin).
      rewrite Forall_forall in Hlt; specialize (Hlt _ Hin).
      destruct t as [i k]; simpl in *; subst; exact (Nat.lt_irrefl _ Hlt). }
    split.
    { apply Forall_app; split; [|repeat constructor].
      eapply Forall_impl; [|exact Hlt]; simpl; intros; lia. }
    split; intros i Hin; apply in_app_or in Hin; destruct Hin as [Hin|[Hin|[]]].
    - auto.
    - discriminate.
    - exfalso; eapply Hno; eauto.
    - inversion Hin; reflexivity. }
  destruct (retryTimer s) as [old|] eqn:R.
  - apply (Hgen (disarm old (emit (ClearTimeout old) s))).
    + apply (tidy_disarm old (emit (ClearTimeout old) s)).
      apply (tidy_same s); auto.
    + intros i Hin; simpl in Hin; apply filter_In in Hin; destruct Hin as [Hin Hne].
      destruct H as (_ & _ & _ & Hr); apply Hr in Hin.
      rewrite R in Hin; inversion Hin; subst; simpl in Hne.
      rewrite Nat.eqb_refl in Hne; discriminate.
  - apply Hgen; [exact H|].
    intros i Hin; destruct H as (_ & _ & _ & Hr); apply Hr in Hin; congruence.
Qed.

Lemma tidy_flush ub s : timers_tidy s -> timers_tidy (flush entropy ub s).
Proof.
  destruct (flush_untouched entropy ub s) as (_ & _ & Hf & Hr & Ht & Hn & _).
  apply tidy_same; assumption.
Qed.

Lemma tidy_retryFailedBatches s :
  timers_tidy s -> timers_tidy (retryFailedBatches s).
Proof.
  apply tidy_same; unfold retryFailedBatches, load_persisted;
    (destruct (isOnline s); [|reflexivity]);
    destruct (storageFault s), (storage s); simpl;
    match goal with |- context [match ?l with [] => _ | _ :: _ => _ end] =>
      destruct l; reflexivity
    end.
Qed.

Lemma tidy_resume_retry b rest o s :
  timers_tidy s -> timers_tidy (resume_retry b rest o s).
Proof.
  intros H; unfold resume_retry; destruct rest as [|next rest'].
  - apply tidy_schedule_retry; destruct o; exact H.
  - destruct o; exact H.
Qed.

Lemma tidy_step s a : timers_tidy s -> timers_tidy (step entropy s a).
Proof.
  intros H; destruct a; cbn [step]; try exact H.
  - unfold addEvent; cbv zeta; destruct (_ >=? _); [|exact H].
    apply tidy_flush; exact H.
  - unfold addEvents; cbv zeta; destruct (_ >=? _); [|exact H].
    apply tidy_flush; exact H.
  - apply tidy_flush; exact H.
  - rewrite destroy_unfold; apply tidy_flush, tidy_stop_timers; exact H.
  - apply tidy_retryFailedBatches; exact H.
  - apply tidy_flush; exact H.
  - destruct hidden; [apply tidy_flush|]; exact H.
  - destruct (timer_kind id s) as [[|]|]; [apply tidy_flush; exact H | | exact H].
    apply tidy_retryFailedBatches, tidy_disarm; exact H.
  - destruct (nth_error (pending s) k) as [[evs aw|b rest]|]; cbn [resume].
    + destruct (resume_flush_untouched entropy evs (outcome aw r)
                  (set_pending (remove_nth k (pending s)) s))
        as (_ & _ & Hf & Hr & Ht & Hn & _).
      eapply tidy_same; eauto.
    + apply tidy_resume_retry; exact H.
    + exact H.
Qed.

Lemma stop_timers_handles s :
  flushTimer (stop_timers s) = None /\ retryTimer (stop_timers s) = None.
Proof.
  unfold stop_timers; split.
  - destruct (flushTimer s) eqn:F; simpl; destruct (retryTimer s); simpl; auto.
  - destruct (flushTimer s); simpl; destruct (retryTimer s) eqn:R; simpl; auto.
Qed.

(** Every armed timer is one of the held handles. *)
Lemma tidy_held s : timers_tidy s -> incl (map fst (timers s)) (held_timers s).
Proof.
  intros (_ & _ & Hf & Hr) i Hin.
  apply in_map_iff in Hin; destruct Hin as ([i' k] & Heq & Hin); simpl in Heq; subst i'.
  unfold held_timers; apply in_or_app; destruct k.
  - left; rewrite (Hf _ Hin); left; reflexivity.
  - right; rewrite (Hr _ Hin); left; reflexivity.
Qed.

End Tidy.

(** X14.  A freshly constructed batcher has one timer, its flush interval.
    From then on, whatever happens, the armed timers have distinct
    identifiers and are among the handles the batcher holds: at most one
    flush interval and one retry timeout, never more than two timers; and
    after [destroy] none is armed. *)
Theorem at_most_two_timers (entropy : Entropy) (acts : list Action) (s : State) :
  timers_tidy s ->
  let s' := run entropy s acts in
  timers_tidy s'
  /\ incl (map fst (timers s')) (held_timers s')
  /\ (List.length (timers s') <= 2)%nat
  /\ timers (destroy entropy s') = []
  /\ forall (h : Host) (c : BatcherConfig),
       exists s0, construct h c = Normal s0 /\ timers_tidy s0
                  /\ timers s0 = [(1%nat, FlushInterval)].
Proof.
  intros H; cbv zeta.
  assert (Hrun : timers_tidy (run entropy s acts)).
  { revert s H; induction acts as [|a acts IH]; intros s H; simpl; [exact H|].
    apply IH, tidy_step; exact H. }
  assert (Hlen : forall x, timers_tidy x ->
            (List.length (timers x) <= List.length (held_timers x))%nat).
  { intros x Hx; rewrite <- (length_map fst (timers x)).
    apply NoDup_incl_length; [apply Hx | apply tidy_held; exact Hx]. }
  split; [exact Hrun|]. split; [apply tidy_held; exact Hrun|]. split.
  { eapply Nat.le_trans; [apply Hlen; exact Hrun|].
    unfold held_timers; rewrite length_app.
    destruct (flushTimer _), (retryTimer _); simpl; lia. }
  split.
  { assert (Hd : timers_tidy (destroy entropy (run entropy s acts))).
    { rewrite destroy_unfold; apply tidy_flush, tidy_stop_timers; exact Hrun. }
    pose proof (Hlen _ Hd) as Hl.
    assert (Hnone : held_timers (destroy entropy (run entropy s acts)) = []).
    { unfold held_timers; rewrite destroy_unfold.
      destruct (flush_untouched entropy true (stop_timers (run entropy s acts)))
        as (_ & _ & Hf & Hr & _).
      destruct (stop_timers_handles (run entropy s acts)) as [Sf Sr].
      rewrite Hf, Hr, Sf, Sr; reflexivity. }
    rewrite Hnone in Hl; destruct (timers _); [reflexivity | simpl in Hl; lia]. }
  intros h c; eexists; split; [reflexivity|]. split; [|reflexivity].
  unfold timers_tidy; simpl.
  split; [repeat constructor; simpl; tauto|].
  split; [repeat constructor|].
  split; intros i [Hin|[]]; inversion Hin; reflexivity.
Qed.

(** ** What a sweep leaves behind *)

Section SweepOutcome.

Variable entropy : Entropy.

Lemma retry_once_callbacks b r s :
  callbacks (trace (retry_once b r s)) = callbacks (trace s) ++ sweep_callbacks [b] [r].
Proof.
  unfold retry_once; simpl; destruct (error_of r); simpl;
    rewrite !callbacks_app; simpl; rewrite ?app_nil_r; reflexivity.
Qed.

Lemma retry_all_callbacks bs : forall rs s,
  callbacks (trace (retry_all bs rs s)) = callbacks (trace s) ++ sweep_callbacks bs rs.
Proof.
  induction bs as [|b bs IH]; intros [|r rs] s; simpl; rewrite ?app_nil_r; auto.
  rewrite IH, retry_once_callbacks, <- app_assoc; reflexivity.
Qed.

Lemma retry_once_transport b r s :
  transport_calls (trace (retry_once b r s))
  = transport_calls (trace s)
    ++ [Fetch (endpoint (config s)) (request_headers (config s)) (JSON_stringify b)].
Proof.
  unfold retry_once; destruct (error_of r); simpl;
    rewrite !transport_calls_app; simpl; rewrite ?app_nil_r; reflexivity.
Qed.

Lemma retry_all_transport bs : forall rs s,
  List.length rs = List.length bs ->
  transport_calls (trace (retry_all bs rs s))
  = transport_calls (trace s)
    ++ map (fun b => Fetch (endpoint (config s)) (request_headers (config s))
                       (JSON_stringify b)) bs.
Proof.
  induction bs as [|b bs IH]; intros [|r rs] s H; simpl in *;
    try discriminate; rewrite ?app_nil_r; auto.
  rewrite IH, retry_once_transport by lia.
  destruct (retry_once_unchanged b r s) as (_ & _ & _ & _ & Hc & _).
  rewrite Hc, <- app_assoc; reflexivity.
Qed.

Lemma schedule_retry_quiet s :
  callbacks (trace (schedule_retry s)) = callbacks (trace s)
  /\ transport_calls (trace (schedule_retry s)) = transport_calls (trace s).
Proof.
  unfold schedule_retry; destruct (failedBatches s); [split; reflexivity|].
  destruct (retryTimer s); simpl;
    rewrite ?callbacks_app, ?transport_calls_app; simpl;
    rewrite ?callbacks_app, ?transport_calls_app; simpl;
    rewrite ?app_nil_r; split; reflexivity.
Qed.

Lemma load_persisted_quiet s :
  transport_calls (trace (load_persisted s)) = transport_calls (trace s)
  /\ eventBuffer (load_persisted s) = eventBuffer s.
Proof.
  unfold load_persisted; destruct (storageFault s), (storage s); simpl;
    rewrite ?transport_calls_app; simpl; rewrite ?app_nil_r; split; reflexivity.
Qed.

End SweepOutcome.

(** X3.  A sweep that runs to its end, its deliveries answered by any
    responses, sends every entry of the in-memory list and then every
    persisted entry, by [fetch] only (never the beacon), calls [onSuccess]
    or [onError] once per entry in that order, and leaves in the in-memory
    list exactly the entries whose delivery failed, in order.  The storage
    key is removed whatever the outcome (unless storage cannot be read), so
    an entry that fails again is kept in memory only. *)
Theorem sweep_requeues_only_failures (entropy : Entropy) (s : State)
    (rs : list Response) :
  isOnline s = true ->
  List.length rs = List.length (batchesToRetry s) ->
  let s' := run entropy (retryFailedBatches s)
              (map (Settle (List.length (pending s))) rs) in
  transport_calls (trace s')
  = transport_calls (trace s)
    ++ map (fun b => Fetch (endpoint (config s)) (request_headers (config s))
                       (JSON_stringify b)) (batchesToRetry s)
  /\ callbacks (trace s')
     = callbacks (trace s) ++ sweep_callbacks (batchesToRetry s) rs
  /\ failedBatches s' = refused (batchesToRetry s) rs
  /\ (storageFault s <> StorageDenied -> storage s' = None)
  /\ pending s' = pending s
  /\ eventBuffer s' = eventBuffer s.
Proof.
  intros Hon Hlen; cbv zeta.
  destruct (sweep_complete entropy s rs Hon Hlen) as (_ & Hf & Hp & _ & Hs).
  cut (transport_calls
         (trace (run entropy (retryFailedBatches s)
                   (map (Settle (List.length (pending s))) rs)))
       = transport_calls (trace s)
         ++ map (fun b => Fetch (endpoint (config s)) (request_headers (config s))
                            (JSON_stringify b)) (batchesToRetry s)
       /\ callbacks
            (trace (run entropy (retryFailedBatches s)
                      (map (Settle (List.length (pending s))) rs)))
          = callbacks (trace s) ++ sweep_callbacks (batchesToRetry s) rs
       /\ eventBuffer (run entropy (retryFailedBatches s)
                         (map (Settle (List.length (pending s))) rs))
          = eventBuffer s).
  { intros (A & B & C); repeat (split; [assumption|]); assumption. }
  clear Hf Hp Hs.
  rewrite retryFailedBatches_online by assumption.
  destruct (load_persisted_unchanged s) as (Lp & _).
  destruct (load_persisted_quiet s) as (Lt & Lb).
  pose proof (load_persisted_callbacks s) as Lc.
  pose proof (load_persisted_config s) as Lcfg.
  destruct (batchesToRetry s) as [|b rest] eqn:E.
  - destruct rs; [|discriminate]; simpl.
    rewrite !app_nil_r; auto.
  - rewrite <- Lp.
    change (pending (load_persisted s))
      with (pending (set_failedBatches [] (load_persisted s))).
    rewrite sweep_run by (simpl in Hlen; lia).
    match goal with |- context [schedule_retry ?x] =>
      destruct (schedule_retry_quiet x) as (Qc & Qt);
      destruct (schedule_retry_unchanged x) as (_ & _ & _ & _ & _ & Qb & _)
    end.
    rewrite Qc, Qt, Qb.
    match goal with |- context [retry_all ?bs rs ?x] =>
      destruct (retry_all_unchanged bs rs x) as (_&_&_&_&_&_&_&_&Rb&_)
    end.
    rewrite Rb, retry_all_callbacks, retry_all_transport by assumption.
    simpl; rewrite Lt, Lc, Lb, Lcfg; auto.
Qed.

(** ** Identifiers *)

Lemma append_assoc3 (s t u : string) :
  ((s ++ t) ++ u = s ++ (t ++ u))%string.
Proof. induction s as [|c s IH]; simpl; [reflexivity | rewrite IH; reflexivity]. Qed.

Lemma digit_at_value (n : nat) :
  (n < 36)%nat -> digit_value (nth n Helpers.digits36 "0"%char) = N.of_nat n.
Proof.
  intros H.
  do 36 (destruct n as [|n]; [reflexivity|]).
  lia.
Qed.

Lemma digit_at_no_dash (n : nat) :
  (n < 36)%nat -> Ascii.eqb (nth n Helpers.digits36 "0"%char) "-"%char = false.
Proof.
  intros H.
  do 36 (destruct n as [|n]; [reflexivity|]).
  lia.
Qed.

Lemma digit36_value (d : N) : (d < 36)%N -> digit_value (Helpers.digit36 d) = d.
Proof.
  intros H; unfold Helpers.digit36.
  rewrite digit_at_value by lia; lia.
Qed.

Lemma digit36_no_dash (d : N) :
  (d < 36)%N -> Ascii.eqb (Helpers.digit36 d) "-"%char = false.
Proof. intros H; unfold Helpers.digit36; apply digit_at_no_dash; lia. Qed.

Lemma to36_digits_acc fuel : forall n acc,
  Helpers.to36_digits fuel n acc
  = (Helpers.to36_digits fuel n EmptyString ++ acc)%string.
Proof.
  induction fuel as [|fuel IH]; intros n acc; simpl; [reflexivity|].
  destruct (N.eqb (n / 36) 0); [reflexivity|].
  rewrite IH, (IH _ (String _ EmptyString)), append_assoc3; reflexivity.
Qed.

Lemma parse36_app s : forall t acc,
  parse36 (s ++ t) acc = parse36 t (parse36 s acc).
Proof. induction s as [|c s IH]; intros t acc; simpl; [reflexivity | apply IH]. Qed.

(** With enough digits allowed, the digits read back as the number. *)
Lemma to36_digits_reads_back fuel : forall n,
  (n < pow36 fuel)%N ->
  parse36 (Helpers.to36_digits fuel n EmptyString) 0 = n.
Proof.
  induction fuel as [|fuel IH]; intros n Hn; simpl in *; [lia|].
  assert (Hd : (n mod 36 < 36)%N) by (apply N.mod_lt; lia).
  destruct (N.eqb_spec (n / 36) 0) as [Hz|Hnz].
  - simpl; rewrite digit36_value by exact Hd.
    rewrite (N.div_mod n 36) at 2 by lia; rewrite Hz; lia.
  - rewrite to36_digits_acc, parse36_app, IH; simpl.
    + rewrite digit36_value by exact Hd.
      rewrite (N.div_mod n 36) at 3 by lia; lia.
    + apply N.Div0.div_lt_upper_bound; exact Hn.
Qed.

Lemma pos_below_pow36 (p : positive) : (N.pos p < pow36 (Pos.size_nat p))%N.
Proof.
  induction p as [p IH|p IH|]; simpl Pos.size_nat; cbn [pow36].
  - change (N.pos p~1) with (2 * N.pos p + 1)%N; lia.
  - change (N.pos p~0) with (2 * N.pos p)%N; lia.
  - lia.
Qed.

Lemma toString36_reads_back (z : Z) :
  0 <= z -> parse36 (Helpers.toString36 z) 0 = Z.to_N z.
Proof.
  intros Hz; destruct z as [|p|p]; [reflexivity| |lia].
  unfold Helpers.toString36; rewrite to36_digits_reads_back; [reflexivity|].
  pose proof (pos_below_pow36 p); cbn [pow36]; lia.
Qed.

Lemma to36_digits_dash fuel : forall n acc,
  has_dash (Helpers.to36_digits fuel n acc) = has_dash acc.
Proof.
  induction fuel as [|fuel IH]; intros n acc; simpl; [reflexivity|].
  assert (Hd : (n mod 36 < 36)%N) by (apply N.mod_lt; lia).
  destruct (N.eqb (n / 36) 0); [|rewrite IH]; simpl;
    rewrite digit36_no_dash by exact Hd; reflexivity.
Qed.

Lemma toString36_no_dash (z : Z) : 0 <= z -> has_dash (Helpers.toString36 z) = false.
Proof.
  intros Hz; destruct z as [|p|p]; [reflexivity| |lia].
  unfold Helpers.toString36; apply to36_digits_dash.
Qed.

(** Two strings cut at their first dash. *)
Lemma cut_at_dash (s1 : string) : forall s2 t1 t2,
  has_dash s1 = false -> has_dash s2 = false ->
  (s1 ++ String "-"%char t1 = s2 ++ String "-"%char t2)%string ->
  s1 = s2 /\ t1 = t2.
Proof.
  induction s1 as [|c s1 IH]; intros [|c2 s2] t1 t2 H1 H2 Heq; simpl in *.
  - inversion Heq; auto.
  - inversion Heq; subst c2.
    rewrite Ascii.eqb_refl in H2; discriminate.
  - inversion Heq; subst c.
    rewrite Ascii.eqb_refl in H1; discriminate.
  - inversion Heq; subst c2.
    apply orb_false_iff in H1; apply orb_false_iff in H2.
    destruct (IH s2 t1 t2) as [-> ->]; tauto.
Qed.

(** X13.  The first part of an identifier is the clock reading in base
    36, and it reads back exactly: the digit budget of the conversion is
    enough for every reading.  Hence identifiers generated at different
    clock readings are different, so are the identifiers of envelopes
    built at different clock readings; at the same reading two identifiers
    are equal only if their random and counter parts agree. *)
Theorem event_ids_differ_across_time :
  (forall z : Z, 0 <= z -> parse36 (Helpers.toString36 z) 0 = Z.to_N z)
  /\ (forall (now1 now2 : Z) (r1 c1 r2 c2 : string),
        0 <= now1 -> 0 <= now2 ->
        Helpers.generateEventId now1 r1 c1 = Helpers.generateEventId now2 r2 c2 ->
        now1 = now2
        /\ (r1 ++ "-" ++ c1 = r2 ++ "-" ++ c2)%string
        /\ (has_dash r1 = false -> has_dash r2 = false -> r1 = r2 /\ c1 = c2))
  /\ (forall (entropy : Entropy) (s1 s2 : State),
        0 <= clock s1 -> 0 <= clock s2 -> clock s1 <> clock s2 ->
        batch_id (flushed_batch entropy s1) <> batch_id (flushed_batch entropy s2)).
Proof.
  assert (Hgen : forall now1 now2 r1 c1 r2 c2,
    0 <= now1 -> 0 <= now2 ->
    Helpers.generateEventId now1 r1 c1 = Helpers.generateEventId now2 r2 c2 ->
    now1 = now2 /\ (r1 ++ "-" ++ c1 = r2 ++ "-" ++ c2)%string).
  { intros now1 now2 r1 c1 r2 c2 H1 H2 Heq; unfold Helpers.generateEventId in Heq.
    apply cut_at_dash in Heq; try (apply toString36_no_dash; assumption).
    destruct Heq as [Hts Hrest]; split; [|exact Hrest].
    apply Z2N.inj; try assumption.
    rewrite <- !toString36_reads_back, Hts by assumption; reflexivity. }
  split; [exact toString36_reads_back|]. split.
  - intros now1 now2 r1 c1 r2 c2 H1 H2 Heq.
    destruct (Hgen _ _ _ _ _ _ H1 H2 Heq) as [Hn Hr].
    split; [exact Hn|]. split; [exact Hr|].
    intros D1 D2; apply cut_at_dash in Hr; assumption.
  - intros entropy s1 s2 H1 H2 Hne Heq; apply Hne.
    unfold flushed_batch, next_id in Heq; simpl in Heq.
    exact (proj1 (Hgen _ _ _ _ _ _ H1 H2 Heq)).
Qed.

(** ** The batcher behind the facade *)

Lemma or_default_twice (x : option Z) (d : Z) :
  d <> 0 -> or_default (Some (or_default x d)) d = or_default x d.
Proof.
  intros Hd; unfold or_default.
  destruct x as [v|].
  - destruct (Z.eqb_spec v 0) as [->|Hv].
    + destruct (Z.eqb_spec d 0); [contradiction | reflexivity].
    + destruct (Z.eqb_spec v 0); [contradiction | reflexivity].
  - destruct (Z.eqb_spec d 0); [contradiction | reflexivity].
Qed.

(** X18.  A batcher built by the facade gets the facade's batch size and
    flush interval (given value, or 50 and 5000 when absent or zero) and
    always the default retry settings, since the facade passes none.  So
    whenever one of its sweeps ends with failed batches, the next sweep is
    set between 1000 and 10000 milliseconds later. *)
Theorem facade_retry_delay_bounds (entropy : Entropy) (h : Host)
    (oc : ObservabilityConfig) (acts : list Action) :
  exists s0 : State,
    construct h (facade_batcher_config oc) = Normal s0
    /\ batchSize (config s0) = or_default (oc_batchSize oc) 50
    /\ flushInterval (config s0) = or_default (oc_flushInterval oc) 5000
    /\ maxRetries (config s0) = 3
    /\ retryDelay (config s0) = 1000
    /\ forall (k : nat) (b : EventBatch) (r : Response),
         let s := run entropy s0 acts in
         nth_error (pending s) k = Some (RetryAwait b []) ->
         let s' := step entropy s (Settle k r) in
         failedBatches s' <> [] ->
         exists pre id delay,
           trace s' = pre ++ [SetTimeout id delay]
           /\ delay = 1000 * Z.min (Z.of_nat (List.length (failedBatches s'))) 10
           /\ 1000 <= delay <= 10000.
Proof.
  eexists; split; [reflexivity|].
  split; [apply or_default_twice; lia|].
  split; [apply or_default_twice; lia|].
  split; [reflexivity|]. split; [reflexivity|].
  intros k b r s Hk s' Hne.
  destruct (sweep_end_schedules entropy s k b r Hk) as [Hs _].
  destruct Hs as (pre & id & Ht & _).
  { fold s'; destruct (failedBatches s'); [congruence | discriminate]. }
  fold s' in Ht.
  assert (Hd : retryDelay (config s) = 1000).
  { subst s; rewrite run_config; reflexivity. }
  rewrite Hd in Ht.
  exists pre, id, (1000 * Z.min (Z.of_nat (List.length (failedBatches s'))) 10).
  split; [exact Ht|]. split; [reflexivity|].
  destruct (failedBatches s'); [congruence|]; simpl List.length; lia.
Qed.

(** ** An offline signal during a sweep *)

(** X19.  The online state is read only when a sweep starts.  When the
    offline signal arrives while a sweep is suspended, the sweep goes on:
    its next batch is still sent by [fetch] although the batcher is
    offline, whereas a flush in that state sends nothing. *)
Theorem offline_signal_does_not_stop_sweep (entropy : Entropy) (s : State)
    (k : nat) (b next : EventBatch) (rest : list EventBatch) (r : Response) :
  nth_error (pending s) k = Some (RetryAwait b (next :: rest)) ->
  let s1 := step entropy s WindowOffline in
  let s2 := step entropy s1 (Settle k r) in
  isOnline s2 = false
  /\ attempts (trace s2) = attempts (trace s) ++ [next]
  /\ nth_error (pending s2) (List.length (pending s) - 1)
     = Some (RetryAwait next rest)
  /\ forall urgent,
       transport_calls (trace (flush entropy urgent s1)) = transport_calls (trace s1).
Proof.
  intros Hk; cbv zeta.
  assert (Hk1 : nth_error (pending (step entropy s WindowOffline)) k
                = Some (RetryAwait b (next :: rest))) by exact Hk.
  split; [|split; [|split]].
  - cbn [step]; simpl; rewrite Hk; cbn [resume].
    unfold resume_retry; destruct (outcome InFlight r); reflexivity.
  - rewrite (retry_goes_on entropy _ _ _ _ _ r Hk1); reflexivity.
  - cbn [step]; simpl; rewrite Hk; cbn [resume].
    unfold resume_retry, retry_send, suspend.
    assert (Hlen : List.length (remove_nth k (pending s)) = (List.length (pending s) - 1)%nat).
    { assert (k < List.length (pending s))%nat by (apply nth_error_Some; congruence).
      unfold remove_nth; rewrite length_app, length_firstn, length_skipn; lia. }
    destruct (outcome InFlight r); simpl; rewrite <- Hlen; apply nth_error_last.
  - intros urgent.
    destruct (eventBuffer (step entropy s WindowOffline)) eqn:E.
    + rewrite flush_empty by exact E; reflexivity.
    + rewrite flush_offline by (try congruence; reflexivity).
      simpl; rewrite store_trace, transport_calls_app, transport_calls_spill_log.
      apply app_nil_r.
Qed.

(** ** Instances of the further properties *)

Lemma spill_cap_keeps_newest_witness :
  storageFault (Sample.start 3) = StorageOk
  /\ failedBatches (storeFailedBatch Sample.entropy [Sample.ev 1] (Sample.start 3))
     = failedBatches (Sample.start 3)
       ++ [spilled_batch Sample.entropy [Sample.ev 1] (Sample.start 3)].
Proof.
  assert (H1 : storageFault (Sample.start 3) = StorageOk) by reflexivity.
  split; [exact H1|].
  exact (proj1 (spill_cap_keeps_newest Sample.entropy [Sample.ev 1] (Sample.start 3) H1)).
Defined.

Lemma persisted_list_stays_capped_witness :
  storage Sample.spilled_offline
  = Some [Sample.old_batch;
          spilled_batch Sample.entropy [Sample.ev 1] Sample.offline_buffered]
  /\ storage_capped Sample.spilled_offline
  /\ option_map (@List.length EventBatch)
       (storage (run Sample.entropy Sample.spilled_offline
                   [CallAddEvent (Sample.ev 2); CallForceFlush]))
     = Some 3%nat
  /\ storage_capped (run Sample.entropy Sample.spilled_offline
                       [CallAddEvent (Sample.ev 2); CallForceFlush]).
Proof.
  assert (H0 : storage Sample.spilled_offline
               = Some [Sample.old_batch;
                       spilled_batch Sample.entropy [Sample.ev 1]
                         Sample.offline_buffered])
    by (vm_compute; reflexivity).
  assert (H1 : storage_capped Sample.spilled_offline).
  { unfold storage_capped; rewrite H0; unfold SPILL_CAP; simpl; lia. }
  assert (H2 : option_map (@List.length EventBatch)
                 (storage (run Sample.entropy Sample.spilled_offline
                             [CallAddEvent (Sample.ev 2); CallForceFlush]))
               = Some 3%nat)
    by (vm_compute; reflexivity).
  split; [exact H0 | split; [exact H1 | split; [exact H2|]]].
  exact (proj1 (persisted_list_stays_capped Sample.entropy
                  [CallAddEvent (Sample.ev 2); CallForceFlush]
                  Sample.spilled_offline H1)).
Defined.

Lemma sweep_requeues_only_failures_witness :
  isOnline Sample.failed_flush = true
  /\ List.length [Sample.ok; Sample.unavailable]
     = List.length (batchesToRetry Sample.failed_flush)
  /\ failedBatches
       (run Sample.entropy (retryFailedBatches Sample.failed_flush)
          (map (Settle (List.length (pending Sample.failed_flush)))
             [Sample.ok; Sample.unavailable]))
     = refused (batchesToRetry Sample.failed_flush) [Sample.ok; Sample.unavailable].
Proof.
  assert (H1 : isOnline Sample.failed_flush = true) by reflexivity.
  assert (H2 : List.length [Sample.ok; Sample.unavailable]
               = List.length (batchesToRetry Sample.failed_flush))
    by (vm_compute; reflexivity).
  split; [exact H1 | split; [exact H2|]].
  exact (proj1 (proj2 (proj2 (sweep_requeues_only_failures Sample.entropy
                                Sample.failed_flush [Sample.ok; Sample.unavailable]
                                H1 H2)))).
Defined.

Lemma retry_timer_offline_is_dropped_witness :
  isOnline Sample.offline_armed = false
  /\ timer_kind 2%nat Sample.offline_armed = Some RetryTimeout
  /\ step Sample.entropy Sample.offline_armed (TimerFires 2%nat)
     = disarm 2%nat Sample.offline_armed.
Proof.
  assert (H1 : isOnline Sample.offline_armed = false) by reflexivity.
  assert (H2 : timer_kind 2%nat Sample.offline_armed = Some RetryTimeout)
    by (vm_compute; reflexivity).
  split; [exact H1 | split; [exact H2|]].
  exact (proj1 (retry_timer_offline_is_dropped Sample.entropy Sample.offline_armed
                  2%nat H1 H2)).
Defined.

Lemma destroy_leaves_sweep_running_witness :
  exists b rest,
    nth_error (pending Sample.sweeping) 0 = Some (RetryAwait b rest)
    /\ nth_error (pending (destroy Sample.entropy Sample.sweeping)) 0
       = Some (RetryAwait b rest).
Proof.
  eexists; eexists.
  assert (H1 : nth_error (pending Sample.sweeping) 0
               = Some (RetryAwait
                         (spilled_batch Sample.entropy [Sample.ev 1] Sample.flushing)
                         [spilled_batch Sample.entropy [Sample.ev 1] Sample.flushing]))
    by (vm_compute; reflexivity).
  split; [exact H1|].
  exact (proj1 (destroy_leaves_sweep_running Sample.entropy Sample.sweeping 0 _ _ H1)).
Defined.

Lemma interval_flush_sends_the_buffer_witness :
  [Sample.ev 1; Sample.ev 2] <> []
  /\ Z.of_nat (List.length [Sample.ev 1; Sample.ev 2])
     < batchSize (resolve_config (Sample.cfg 3))
  /\ exists s0, construct Sample.host (Sample.cfg 3) = Normal s0
                /\ flushTimer s0 = Some 1%nat.
Proof.
  assert (H1 : [Sample.ev 1; Sample.ev 2] <> []) by discriminate.
  assert (H2 : Z.of_nat (List.length [Sample.ev 1; Sample.ev 2])
               < batchSize (resolve_config (Sample.cfg 3))) by reflexivity.
  split; [exact H1 | split; [exact H2|]].
  destruct (interval_flush_sends_the_buffer Sample.entropy Sample.host (Sample.cfg 3)
              [Sample.ev 1; Sample.ev 2] H1 H2) as (s0 & Hc & _ & Hf & _).
  exists s0; split; assumption.
Defined.

Lemma accepted_beacon_counts_as_success_witness :
  isOnline Sample.beacon_accepting = true
  /\ eventBuffer Sample.beacon_accepting <> []
  /\ beacon Sample.beacon_accepting = BeaconAccepts
  /\ pending (flush Sample.entropy true Sample.beacon_accepting)
     = pending Sample.beacon_accepting
       ++ [FlushAwait (eventBuffer Sample.beacon_accepting) Resolved].
Proof.
  assert (H1 : isOnline Sample.beacon_accepting = true) by reflexivity.
  assert (H2 : eventBuffer Sample.beacon_accepting <> []) by (vm_compute; discriminate).
  assert (H3 : beacon Sample.beacon_accepting = BeaconAccepts) by reflexivity.
  split; [exact H1 | split; [exact H2 | split; [exact H3|]]].
  exact (proj1 (proj2 (accepted_beacon_counts_as_success Sample.entropy
                         Sample.beacon_accepting H1 H2 H3))).
Defined.

Lemma request_headers_merge_witness :
  NoDup (map fst (headers Sample.with_headers))
  /\ obj_get "Content-Type" (request_headers Sample.with_headers)
     = Some "application/json"%string.
Proof.
  assert (H1 : NoDup (map fst (headers Sample.with_headers))).
  { repeat constructor; simpl; intuition discriminate. }
  split; [exact H1|].
  apply (proj1 (proj2 (request_headers_merge Sample.with_headers H1))).
  simpl; intuition discriminate.
Defined.

Lemma buffer_stays_below_batch_size_witness :
  1 <= batchSize (config (Sample.start 3))
  /\ Z.of_nat (List.length (eventBuffer (Sample.start 3)))
     < batchSize (config (Sample.start 3))
  /\ Z.of_nat (List.length
                 (eventBuffer (run Sample.entropy (Sample.start 3) Sample.reentrant)))
     < batchSize (config (Sample.start 3)).
Proof.
  assert (H1 : 1 <= batchSize (config (Sample.start 3))) by (vm_compute; discriminate).
  assert (H2 : Z.of_nat (List.length (eventBuffer (Sample.start 3)))
               < batchSize (config (Sample.start 3))) by reflexivity.
  split; [exact H1 | split; [exact H2|]].
  exact (proj2 (buffer_stays_below_batch_size Sample.entropy (Sample.start 3)
                  Sample.reentrant H1 H2)).
Defined.

Lemma collect_sends_full_batches_witness :
  isOnline (Sample.start 3) = true
  /\ fst (collect Sample.entropy Sample.seven ([], Sample.start 3)) = [] ++ Sample.seven.
Proof.
  assert (H1 : isOnline (Sample.start 3) = true) by reflexivity.
  assert (H2 : 1 <= batchSize (config (Sample.start 3))) by (vm_compute; discriminate).
  assert (H3 : Z.of_nat (List.length (eventBuffer (Sample.start 3)))
               < batchSize (config (Sample.start 3))) by reflexivity.
  split; [exact H1|].
  exact (proj1 (collect_sends_full_batches Sample.entropy Sample.seven []
                  (Sample.start 3) H1 H2 H3)).
Defined.

Lemma at_most_two_timers_witness :
  timers_tidy (Sample.start 3)
  /\ (List.length (timers (run Sample.entropy (Sample.start 3) Sample.reentrant)) <= 2)%nat.
Proof.
  assert (H1 : timers_tidy (Sample.start 3)).
  { unfold timers_tidy; simpl.
    split; [repeat constructor; simpl; tauto|].
    split; [repeat constructor|].
    split; intros i [Hin|[]]; inversion Hin; reflexivity. }
  split; [exact H1|].
  exact (proj1 (proj2 (proj2 (at_most_two_timers Sample.entropy Sample.reentrant
                                (Sample.start 3) H1)))).
Defined.

Lemma threshold_spill_offline_witness :
  isOnline (step Sample.entropy (Sample.start 3) WindowOffline) = false
  /\ eventBuffer
       (step Sample.entropy
          (run Sample.entropy (step Sample.entropy (Sample.start 3) WindowOffline)
             (map CallAddEvent [Sample.ev 1; Sample.ev 2]))
          (CallAddEvent (Sample.ev 3))) = [].
Proof.
  assert (H1 : isOnline (step Sample.entropy (Sample.start 3) WindowOffline) = false)
    by reflexivity.
  assert (H2 : eventBuffer (step Sample.entropy (Sample.start 3) WindowOffline) = [])
    by reflexivity.
  assert (H3 : Z.of_nat (List.length ([Sample.ev 1; Sample.ev 2] ++ [Sample.ev 3]))
               = batchSize (config (step Sample.entropy (Sample.start 3) WindowOffline)))
    by reflexivity.
  split; [exact H1|].
  exact (proj2 (proj2 (proj2 (proj2 (proj2 (proj2
           (threshold_spill_offline Sample.entropy
              (step Sample.entropy (Sample.start 3) WindowOffline)
              [Sample.ev 1; Sample.ev 2] (Sample.ev 3) H1 H2 H3))))))).
Defined.

Lemma failed_flush_schedules_no_retry_witness :
  nth_error (pending Sample.flushing) 0 = Some (FlushAwait [Sample.ev 1] InFlight)
  /\ timers (step Sample.entropy Sample.flushing (Settle 0 Sample.unavailable))
     = timers Sample.flushing.
Proof.
  assert (H1 : nth_error (pending Sample.flushing) 0
               = Some (FlushAwait [Sample.ev 1] InFlight)) by reflexivity.
  split; [exact H1|].
  exact (proj1 (failed_flush_schedules_no_retry Sample.entropy Sample.flushing 0
                  [Sample.ev 1] InFlight Sample.unavailable H1)).
Defined.

Lemma offline_signal_does_not_stop_sweep_witness :
  exists b next rest,
    nth_error (pending Sample.sweeping) 0 = Some (RetryAwait b (next :: rest))
    /\ isOnline (step Sample.entropy (step Sample.entropy Sample.sweeping WindowOffline)
                   (Settle 0 Sample.ok)) = false.
Proof.
  do 3 eexists.
  assert (H1 : nth_error (pending Sample.sweeping) 0
               = Some (RetryAwait
                         (spilled_batch Sample.entropy [Sample.ev 1] Sample.flushing)
                         (spilled_batch Sample.entropy [Sample.ev 1] Sample.flushing
                          :: [])))
    by (vm_compute; reflexivity).
  split; [exact H1|].
  exact (proj1 (offline_signal_does_not_stop_sweep Sample.entropy Sample.sweeping 0
                  _ _ _ Sample.ok H1)).
Defined.

Lemma destroy_stops_timers_witness :
  retryTimer Sample.offline_armed = Some 2%nat
  /\ timer_kind 2%nat (destroy Sample.entropy Sample.offline_armed) = None.
Proof.
  assert (H1 : retryTimer Sample.offline_armed = Some 2%nat) by reflexivity.
  split; [exact H1|].
  exact (proj1 (proj1 (proj2 (proj2 (proj2
           (destroy_stops_timers Sample.entropy Sample.offline_armed))))
           2%nat (or_intror H1))).
Defined.

Lemma event_ids_differ_across_time_witness :
  clock (Sample.start 3) <> clock (step Sample.entropy (Sample.start 3) (Elapse 1))
  /\ batch_id (flushed_batch Sample.entropy (Sample.start 3))
     <> batch_id (flushed_batch Sample.entropy
                    (step Sample.entropy (Sample.start 3) (Elapse 1))).
Proof.
  assert (H1 : 0 <= clock (Sample.start 3)) by (vm_compute; discriminate).
  assert (H2 : 0 <= clock (step Sample.entropy (Sample.start 3) (Elapse 1)))
    by (vm_compute; discriminate).
  assert (H3 : clock (Sample.start 3)
               <> clock (step Sample.entropy (Sample.start 3) (Elapse 1)))
    by (vm_compute; discriminate).
  split; [exact H3|].
  exact (proj2 (proj2 event_ids_differ_across_time) Sample.entropy
           (Sample.start 3) (step Sample.entropy (Sample.start 3) (Elapse 1))
           H1 H2 H3).
Defined.

Lemma deliveries_go_to_the_endpoint_witness :
  exists new url hdrs body,
    trace (run Sample.entropy (Sample.start 3) Sample.reentrant)
    = trace (Sample.start 3) ++ new
    /\ In (Fetch url hdrs body) new
    /\ url = Sample.url
    /\ hdrs = [("Content-Type", "application/json")]%string.
Proof.
  destruct (deliveries_go_to_the_endpoint Sample.entropy Sample.reentrant
              (Sample.start 3)) as (new & Htr & Hf & _).
  assert (Hnew : skipn 1 (trace (run Sample.entropy (Sample.start 3) Sample.reentrant))
                 = new) by (rewrite Htr; reflexivity).
  vm_compute in Hnew.
  match type of Hnew with
  | Fetch ?u ?h ?b :: _ = _ =>
      assert (Hin : In (Fetch u h b) new) by (rewrite <- Hnew; left; reflexivity);
      exists new, u, h, b
  end.
  split; [exact Htr|].
  split; [exact Hin|].
  exact (Hf _ _ _ Hin).
Defined.

Lemma facade_retry_delay_bounds_witness :
  exists pre id,
    trace (step Sample.entropy
             (run Sample.entropy
                (Sample.boot Sample.host (facade_batcher_config Sample.facade_page))
                Sample.last_delivery)
             (Settle 0 Sample.unavailable))
    = pre ++ [SetTimeout id 1000].
Proof.
  destruct (facade_retry_delay_bounds Sample.entropy Sample.host Sample.facade_page
              Sample.last_delivery) as (s0 & Hc & _ & _ & _ & _ & Hsweep).
  assert (Hs0 : Sample.boot Sample.host (facade_batcher_config Sample.facade_page) = s0)
    by (unfold Sample.boot; rewrite Hc; reflexivity).
  rewrite <- Hs0 in Hsweep.
  destruct (Hsweep 0%nat
              (spilled_batch Sample.entropy [Sample.ev 1]
                 (Sample.boot Sample.host (facade_batcher_config Sample.facade_page)))
              Sample.unavailable)
    as (pre & id & delay & Htr & Hd & _).
  - vm_compute; reflexivity.
  - vm_compute; discriminate.
  - exists pre, id.
    rewrite Htr, Hd.
    reflexivity.
Defined.

(** ** Spilling while [localStorage] fails *)

(** X20.  When [localStorage] refuses the write or throws, [storeFailedBatch]
    still keeps the batch: it is appended to the in-memory list, the list
    under the storage key is left as it was, one warning is logged and no
    callback is called.  The next sweep then has this batch once more than
    it would have had, right after the earlier in-memory entries. *)
Theorem spill_survives_storage_failure (entropy : Entropy)
    (evs : list ObservabilityEvent) (s : State) :
  storageFault s <> StorageOk ->
  let b := spilled_batch entropy evs s in
  let s' := storeFailedBatch entropy evs s in
  failedBatches s' = failedBatches s ++ [b]
  /\ storage s' = storage s
  /\ trace s' = trace s ++ [ConsoleWarn "Failed to store batch in localStorage:"]
  /\ callbacks (trace s') = callbacks (trace s)
  /\ forall persisted,
       batchesToRetry s = failedBatches s ++ persisted ->
       batchesToRetry s' = failedBatches s ++ [b] ++ persisted.
Proof.
  intros Hfault b s'.
  assert (Hf : failedBatches s' = failedBatches s ++ [b])
    by apply store_failedBatches.
  assert (Hst : storage s' = storage s).
  { unfold s'; rewrite store_storage; unfold persisted_after.
    destruct (storageFault s); [congruence | reflexivity | reflexivity]. }
  assert (Htr : trace s'
                = trace s ++ [ConsoleWarn "Failed to store batch in localStorage:"]).
  { unfold s'; rewrite store_trace; unfold spill_log.
    destruct (storageFault s); [congruence | reflexivity | reflexivity]. }
  split; [exact Hf | split; [exact Hst | split; [exact Htr|]]].
  split.
  - rewrite Htr, callbacks_app; simpl; apply app_nil_r.
  - intros persisted Hold.
    rewrite batchesToRetry_order in Hold.
    apply app_inv_head in Hold.
    rewrite batchesToRetry_order, Hf, Hst.
    destruct (store_unchanged entropy evs s)
      as (_ & _ & _ & _ & _ & _ & _ & Hsf & _).
    fold s' in Hsf; rewrite Hsf, Hold.
    rewrite <- app_assoc; reflexivity.
Qed.

Lemma spill_survives_storage_failure_witness :
  storageFault (step Sample.entropy (Sample.start 3) (StorageBecomes QuotaExceeded))
  <> StorageOk
  /\ storage (storeFailedBatch Sample.entropy [Sample.ev 1]
                (step Sample.entropy (Sample.start 3) (StorageBecomes QuotaExceeded)))
     = storage (step Sample.entropy (Sample.start 3) (StorageBecomes QuotaExceeded)).
Proof.
  assert (H1 : storageFault
                 (step Sample.entropy (Sample.start 3) (StorageBecomes QuotaExceeded))
               <> StorageOk) by (vm_compute; discriminate).
  split; [exact H1|].
  exact (proj1 (proj2 (spill_survives_storage_failure Sample.entropy [Sample.ev 1]
                         (step Sample.entropy (Sample.start 3)
                            (StorageBecomes QuotaExceeded)) H1))).
Defined.
